(** * A shallow embedding of the COVID report pipeline of [src/assets.py]

    The pipeline is a chain of six stages over pandas tables:
    [leer_datos] (Source Reader), [chequear_datos] (Quality Gate),
    [datos_procesados] (Cleaner), [metrica_incidencia_7d] and
    [metrica_factor_crec_7d] (Metric Engine), [chequeo_incidencia]
    (Validator) and [reporte_excel_covid] (Sink), wired by [pipeline_covid].

    Modelling decisions, all stated where they are made:
    - a [float64] is an exact rational extended with [+inf], [-inf] and
      [NaN]; rounding and the sign of zero are not modelled;
    - a table is a list of named columns of cells; the pandas operations the
      stages call ([groupby], [rolling], [shift], [dropna], ...) are
      functions on columns written after the behaviour pandas documents;
    - a table is an object in a store: the stages receive and return
      references, and [df[c] = ...] updates the referenced table in place,
      as Python does; the job runs its stages in the order written and
      hands the returned objects on as they are;
    - exceptions are values of an error monad that also threads the store,
      the printed messages and the written files;
    - what pandas and requests do outside this repository (the date parser,
      the CSV parser, the HTTP exchange, the clock) is taken as a parameter. *)

From stdpp Require Import base decidable option numbers list strings sorting.
From Stdlib Require Import QArith Qcanon Qround Ascii.

Local Open Scope string_scope.
Local Open Scope list_scope.
Local Open Scope Qc_scope.

(** ** Numbers: an idealised [float64] *)

Inductive xnum : Type :=
| Fin (q : Qc)
| PInf
| NInf
| NaN.

Global Instance xnum_eq_dec : EqDecision xnum.
Proof. solve_decision. Defined.

Definition qz (z : Z) : Qc := Qc_of_Z z.
Definition qn (n : nat) : Qc := Qc_of_Z (Z.of_nat n).

(** IEEE division: a zero divisor gives an infinity or [NaN], never an
    exception.  Zero is taken as positive zero. *)
Definition xdiv (a b : xnum) : xnum :=
  match a, b with
  | NaN, _ | _, NaN => NaN
  | Fin x, Fin y =>
      if decide (y = 0) then
        if decide (0 < x) then PInf
        else if decide (x < 0) then NInf
        else NaN
      else Fin (x / y)
  | Fin _, (PInf | NInf) => Fin 0
  | PInf, Fin y => if decide (y < 0) then NInf else PInf
  | NInf, Fin y => if decide (y < 0) then PInf else NInf
  | (PInf | NInf), (PInf | NInf) => NaN
  end.

Definition xmul (a b : xnum) : xnum :=
  match a, b with
  | NaN, _ | _, NaN => NaN
  | Fin x, Fin y => Fin (x * y)
  | Fin x, PInf | PInf, Fin x =>
      if decide (0 < x) then PInf else if decide (x < 0) then NInf else NaN
  | Fin x, NInf | NInf, Fin x =>
      if decide (0 < x) then NInf else if decide (x < 0) then PInf else NaN
  | PInf, PInf | NInf, NInf => PInf
  | PInf, NInf | NInf, PInf => NInf
  end.

(** IEEE comparison: every comparison with [NaN] is false. *)
Definition xleb (a b : xnum) : bool :=
  match a, b with
  | NaN, _ | _, NaN => false
  | NInf, _ | _, PInf => true
  | Fin x, Fin y => bool_decide (x ≤ y)
  | _, _ => false
  end.

(** ** Cells and columns *)

(** A cell of a table: a string, a float, a timestamp (nanoseconds since the
    epoch) or the missing timestamp [NaT].  A missing value of a non-date
    column is the float [NaN], as [read_csv] produces it. *)
Inductive cell : Type :=
| Str (s : string)
| Num (x : xnum)
| Date (t : Z)
| NaT.

Global Instance cell_eq_dec : EqDecision cell.
Proof. solve_decision. Defined.

Abbreviation Series := (list cell).

(** [pd.isna] on one cell. *)
Definition isna (c : cell) : bool :=
  match c with
  | Num NaN | NaT => true
  | _ => false
  end.

(** ** Exceptions *)

Inductive exn : Type :=
| KeyError (key : string)
| TypeError
| ValueError
| Timeout
| ConnectionError
| ParserError
| EmptyDataError
| DanglingReference.

Inductive outcome (A : Type) : Type :=
| Ok (a : A)
| Raise (e : exn).
Arguments Ok {A} a.
Arguments Raise {A} e.

Global Instance exn_eq_dec : EqDecision exn.
Proof. solve_decision. Defined.

Global Instance outcome_eq_dec {A} `{EqDecision A} : EqDecision (outcome A).
Proof. solve_decision. Defined.

Definition obind {A B} (o : outcome A) (f : A → outcome B) : outcome B :=
  match o with
  | Ok a => f a
  | Raise e => Raise e
  end.

Fixpoint omapM {A B} (f : A → outcome B) (l : list A) : outcome (list B) :=
  match l with
  | [] => Ok []
  | a :: l' => obind (f a) (λ b, obind (omapM f l') (λ bs, Ok (b :: bs)))
  end.

(** The float view of a column: arithmetic, rolling windows and [min]/[max]
    need every cell to be a float; a string or a timestamp among them makes
    pandas raise (which exception it raises there is not told apart). *)
Definition as_float (c : cell) : outcome xnum :=
  match c with
  | Num x => Ok x
  | _ => Raise TypeError
  end.

Definition as_floats (s : Series) : outcome (list xnum) := omapM as_float s.

Definition of_floats (x : list xnum) : Series := Num <$> x.

(** [a / b] and [a * k] on columns, element by element. *)
Definition series_div (a b : Series) : outcome Series :=
  obind (as_floats a) (λ x, obind (as_floats b) (λ y,
    Ok (of_floats (zip_with xdiv x y)))).

Definition series_mul_scalar (a : Series) (k : xnum) : outcome Series :=
  obind (as_floats a) (λ x, Ok (of_floats ((λ v, xmul v k) <$> x))).

(** ** Rolling windows: [x.rolling(n, min_periods=m)] *)

(** The rows [i-n+1 .. i] of [x], fewer at the start of the series. *)
Definition window {A} (n i : nat) (x : list A) : list A :=
  drop (S i - n) (take (S i) x).

(** The observations of a window: pandas turns infinities into [NaN] before
    aggregating, and [NaN] is not an observation. *)
Definition fin_of (x : xnum) : option Qc :=
  match x with Fin q => Some q | _ => None end.

Definition observed (w : list xnum) : list Qc := omap fin_of w.

Definition qsum (l : list Qc) : Qc := foldr Qcplus 0 l.

Definition agg_sum (obs : list Qc) : xnum := Fin (qsum obs).
Definition agg_mean (obs : list Qc) : xnum := Fin (qsum obs / qn (length obs)).

Definition rolling (n minp : nat) (agg : list Qc → xnum) (x : list xnum)
  : list xnum :=
  imap (λ i _, let obs := observed (window n i x) in
               if decide (minp ≤ length obs)%nat then agg obs else NaN) x.

Definition rolling_mean (n minp : nat) := rolling n minp agg_mean.
Definition rolling_sum (n minp : nat) := rolling n minp agg_sum.

(** [x.shift(n)]: every value moves [n] rows down, [NaN] fills the top. *)
Definition shift (n : nat) (x : list xnum) : list xnum :=
  take (length x) (replicate n NaN ++ x).

(** ** Group-by: [df.groupby(key)[col]] *)

(** The values of the rows whose key is [k], in row order. *)
Definition select {A} (k : cell) (keys : list cell) (vals : list A) : list A :=
  snd <$> filter (λ kv, kv.1 = k) (zip keys vals).

(** The number of rows of [keys] that carry the key [k]. *)
Definition rank (k : cell) (keys : list cell) : nat :=
  length (filter (λ k', k' = k) keys).

(** [groupby(...).transform(f)] and [groupby(...).shift(n)]: [f] runs on the
    sub-series of each group and the results go back to the rows they came
    from.  Rows whose key is missing belong to no group and get [NaN]. *)
Definition group_apply (f : list xnum → list xnum)
    (keys : list cell) (vals : list xnum) : list xnum :=
  imap (λ i k, if isna k then NaN
               else default NaN (f (select k keys vals) !! rank k (take i keys)))
       keys.

(** [Series.min()] and [Series.max()]: [NaN] is skipped, the result for no
    value at all is [NaN]. *)
Definition xmin2 (a b : xnum) : xnum := if xleb a b then a else b.
Definition xmax2 (a b : xnum) : xnum := if xleb a b then b else a.

Definition present (x : list xnum) : list xnum :=
  filter (λ v, v ≠ NaN) x.

Definition series_min (x : list xnum) : xnum :=
  match present x with
  | [] => NaN
  | a :: l => foldl xmin2 a l
  end.

Definition series_max (x : list xnum) : xnum :=
  match present x with
  | [] => NaN
  | a :: l => foldl xmax2 a l
  end.

(** ** Tables *)

(** A [pd.DataFrame]: the length of its index and its columns in order, each
    a name with the cells of the column. *)
Record DataFrame : Type := mkDF {
  nrows : nat;
  cols : list (string * Series)
}.

Global Instance DataFrame_eq_dec : EqDecision DataFrame.
Proof. solve_decision. Defined.

(** [pd.DataFrame()] *)
Definition empty_frame : DataFrame := mkDF 0 [].

Definition columns (df : DataFrame) : list string := fst <$> cols df.

Fixpoint assoc {A} (c : string) (l : list (string * A)) : option A :=
  match l with
  | [] => None
  | (c', v) :: l' => if decide (c' = c) then Some v else assoc c l'
  end.

Fixpoint assoc_set {A} (c : string) (v : A) (l : list (string * A))
  : list (string * A) :=
  match l with
  | [] => [(c, v)]
  | (c', v') :: l' =>
      if decide (c' = c) then (c, v) :: l' else (c', v') :: assoc_set c v l'
  end.

Definition getcol (c : string) (df : DataFrame) : option Series :=
  assoc c (cols df).

(** [df[c]]: a missing column is a [KeyError]. *)
Definition column (c : string) (df : DataFrame) : outcome Series :=
  match getcol c df with
  | Some v => Ok v
  | None => Raise (KeyError c)
  end.

(** [df[c] = v]: replaces the column where it stands, or appends it. *)
Definition setcol (c : string) (v : Series) (df : DataFrame) : DataFrame :=
  mkDF (nrows df) (assoc_set c v (cols df)).

(** [df[[c1, ..., cn]]]: the named columns in the order asked for. *)
Definition project (cs : list string) (df : DataFrame) : outcome DataFrame :=
  obind (omapM (λ c, obind (column c df) (λ v, Ok (c, v))) cs)
        (λ l, Ok (mkDF (nrows df) l)).

(** [df.rename(columns=m)] *)
Definition rename (m : list (string * string)) (df : DataFrame) : DataFrame :=
  mkDF (nrows df) ((λ cv, (default cv.1 (assoc cv.1 m), cv.2)) <$> cols df).

(** [df[mask]]: the rows where the mask holds, in order. *)
Definition filter_mask {A} (mask : list bool) (l : list A) : list A :=
  snd <$> filter (λ bv, bv.1 = true) (zip mask l).

Definition count_true (mask : list bool) : nat :=
  length (filter (λ b, b = true) mask).

Definition filter_rows (mask : list bool) (df : DataFrame) : DataFrame :=
  mkDF (count_true (take (nrows df) mask))
       ((λ cv, (cv.1, filter_mask mask cv.2)) <$> cols df).

(** The rows of a table, each the list of its cells in column order. *)
Definition row (i : nat) (df : DataFrame) : list cell :=
  (λ cv, default (Num NaN) (cv.2 !! i)) <$> cols df.

Definition rows (df : DataFrame) : list (list cell) :=
  (λ i, row i df) <$> seq 0 (nrows df).

(** [duplicated()]: a row is a duplicate when an earlier row equals it
    (missing values compare equal here, as in pandas). *)
Definition duplicated {A} `{EqDecision A} (l : list A) : list bool :=
  imap (λ i a, bool_decide (a ∈ take i l)) l.

(** [df.isna().sum().sum()] *)
Definition count_na (df : DataFrame) : nat :=
  sum_list ((λ cv, length (filter (λ c, isna c = true) cv.2)) <$> cols df).

(** [df.dropna(subset=cs)] *)
Definition dropna (cs : list string) (df : DataFrame) : outcome DataFrame :=
  obind (project cs df) (λ sub,
    Ok (filter_rows ((λ r, bool_decide (Forall (λ c, isna c = false) r))
                       <$> rows sub) df)).

(** [df.drop_duplicates()]: the first of each run of equal rows stays. *)
Definition drop_duplicates (df : DataFrame) : DataFrame :=
  filter_rows (negb <$> duplicated (rows df)) df.

(** [s.isin(vs)] *)
Definition isin (vs : list cell) (s : Series) : list bool :=
  (λ c, bool_decide (c ∈ vs)) <$> s.

(** [s > t] for a datetime column: [NaT] compares false. *)
Definition date_gt (t : Z) (c : cell) : bool :=
  match c with
  | Date d => bool_decide (t < d)%Z
  | _ => false
  end.

(** ** The store, the console and the disk *)

Definition loc := nat.

(** The messages the stages print, with the values formatted into them. *)
Inductive msg : Type :=
| MsgDownloadFailed (status_code : Z)
| MsgDownloaded (filas : nat)
| MsgFutureDates (n : nat)
| MsgDatesValid
| MsgNullKeys (n : nat) (claves : list string)
| MsgKeysComplete
| MsgDuplicates (n : nat)
| MsgNoDuplicates
| MsgProcessed (filas : nat)
| MsgInRange (min_val max_val : xnum)
| MsgOutOfRange (min_val max_val : xnum)
| MsgExcel (output_file : string).

(** A written spreadsheet: its sheets in order, each a name and the table
    written with [index=False] (the header row and the rows). *)
Definition workbook := list (string * DataFrame).

Record world : Type := mkWorld {
  heap : list DataFrame;       (* the tables alive, by reference *)
  stdout : list msg;           (* what was printed, oldest first *)
  disk : list (string * workbook)   (* the files written, by path *)
}.

Global Instance msg_eq_dec : EqDecision msg.
Proof. solve_decision. Defined.

Global Instance world_eq_dec : EqDecision world.
Proof. solve_decision. Defined.

Definition M (A : Type) : Type := world → outcome A * world.

Definition ret {A} (a : A) : M A := λ w, (Ok a, w).

Definition bind {A B} (m : M A) (f : A → M B) : M B :=
  λ w, match m w with
       | (Ok a, w') => f a w'
       | (Raise e, w') => (Raise e, w')
       end.

Declare Scope py_scope.
Delimit Scope py_scope with py.
Notation "x <- m ;; k" := (bind m (λ x, k))
  (at level 100, m at next level, right associativity) : py_scope.
Notation "m ;;; k" := (bind m (λ _, k))
  (at level 100, right associativity) : py_scope.
Local Open Scope py_scope.

Definition raise {A} (e : exn) : M A := λ w, (Raise e, w).

Definition lift {A} (o : outcome A) : M A := λ w, (o, w).

Definition print (m : msg) : M unit :=
  λ w, (Ok (), mkWorld (heap w) (stdout w ++ [m]) (disk w)).

(** Reading the table a reference points to. *)
Definition deref (l : loc) : M DataFrame :=
  λ w, match heap w !! l with
       | Some df => (Ok df, w)
       | None => (Raise DanglingReference, w)
       end.

(** The world after the table at [l] was replaced by [df]. *)
Definition upd (l : loc) (df : DataFrame) (w : world) : world :=
  mkWorld (<[l := df]> (heap w)) (stdout w) (disk w).

(** Updating in place the table a reference points to. *)
Definition assign (l : loc) (df : DataFrame) : M unit :=
  λ w, (Ok (), upd l df w).

(** A new table object. *)
Definition new (df : DataFrame) : M loc :=
  λ w, (Ok (length (heap w)), mkWorld (heap w ++ [df]) (stdout w) (disk w)).

Definition write_file (path : string) (wb : workbook) : M unit :=
  λ w, (Ok (), mkWorld (heap w) (stdout w) (assoc_set path wb (disk w))).

(** [df[c]] and [df[c] = v] through a reference. *)
Definition getitem (df : loc) (c : string) : M Series :=
  d <- deref df ;; lift (column c d).

Definition setitem (df : loc) (c : string) (v : Series) : M unit :=
  d <- deref df ;; assign df (setcol c v d).

Definition getitems (df : loc) (cs : list string) : M DataFrame :=
  d <- deref df ;; lift (project cs d).

(** ** The stages of [src/assets.py] *)

(** What the request of [leer_datos] comes back with: [requests.get] either
    raises (a timeout, a refused connection) or returns a response. *)
Inductive http_result : Type :=
| HttpRaises (e : exn)
| HttpResponse (status_code : Z) (text : string).

Section Stages.

(** pandas' parser of one date value, consulted for strings and for
    numbers that are not [NaN]; [None] when the value is no date.  The
    format pandas settles on for a column is part of this parameter: every
    statement below holds for any parser. *)
Variable parse_date : cell → option Z.

(** [pd.read_csv] on the text of the response. *)
Variable read_csv : string → outcome DataFrame.

(** [pd.Timestamp(datetime.today().date())] *)
Variable hoy : Z.

(** [pd.to_datetime(s, errors="coerce")] on one cell. *)
Definition to_datetime_coerce (c : cell) : cell :=
  match c with
  | Date t => Date t
  | NaT | Num NaN => NaT
  | _ => match parse_date c with
         | Some t => Date t
         | None => NaT
         end
  end.

(** [pd.to_datetime(s)] on one cell: what does not parse raises. *)
Definition to_datetime_strict (c : cell) : outcome cell :=
  match c with
  | Date t => Ok (Date t)
  | NaT | Num NaN => Ok NaT
  | _ => match parse_date c with
         | Some t => Ok (Date t)
         | None => Raise ValueError
         end
  end.

Definition to_datetime (s : Series) : outcome Series :=
  omapM to_datetime_strict s.

(** Lines 9-21. *)
Definition leer_datos (resp : http_result) : M loc :=
  match resp with
  | HttpRaises e => raise e
  | HttpResponse status_code text =>
      if decide (status_code ≠ 200%Z) then
        print (MsgDownloadFailed status_code) ;;;
        new empty_frame
      else
        d <- lift (read_csv text) ;;
        df <- new d ;;
        print (MsgDownloaded (nrows d)) ;;;
        ret df
  end.

Definition columnas_clave : list string := ["country"; "date"; "population"].

(** Lines 24-51. *)
Definition chequear_datos (df : loc) : M loc :=
  date <- getitem df "date" ;;
  setitem df "date" (to_datetime_coerce <$> date) ;;;
  date <- getitem df "date" ;;
  d <- deref df ;;
  let fechas_invalidas := filter_rows (date_gt hoy <$> date) d in
  (if decide (0 < nrows fechas_invalidas)%nat
   then print (MsgFutureDates (nrows fechas_invalidas))
   else print MsgDatesValid) ;;;
  claves <- getitems df columnas_clave ;;
  let nulos := count_na claves in
  (if decide (0 < nulos)%nat
   then print (MsgNullKeys nulos columnas_clave)
   else print MsgKeysComplete) ;;;
  sub <- getitems df ["country"; "date"] ;;
  let duplicados := count_true (duplicated (rows sub)) in
  (if decide (0 < duplicados)%nat
   then print (MsgDuplicates duplicados)
   else print MsgNoDuplicates) ;;;
  ret df.

Definition columnas : list string :=
  ["country"; "date"; "new_cases"; "people_vaccinated"; "population"].

Definition paises : list cell := [Str "Ecuador"; Str "Argentina"].

(** Lines 55-62. *)
Definition datos_procesados (df : loc) : M loc :=
  d <- deref df ;;
  d1 <- lift (dropna ["new_cases"; "people_vaccinated"] d) ;;
  let d2 := drop_duplicates d1 in
  country <- lift (column "country" d2) ;;
  let df_proc := filter_rows (isin paises country) d2 in
  print (MsgProcessed (nrows df_proc)) ;;;
  r <- lift (project columnas df_proc) ;;
  new r.

(** Lines 66-77. *)
Definition metrica_incidencia_7d (df : loc) : M loc :=
  date <- getitem df "date" ;;
  date' <- lift (to_datetime date) ;;
  setitem df "date" date' ;;;
  new_cases <- getitem df "new_cases" ;;
  population <- getitem df "population" ;;
  ratio <- lift (series_div new_cases population) ;;
  diaria <- lift (series_mul_scalar ratio (Fin (qz 100000))) ;;
  setitem df "incidencia_diaria" diaria ;;;
  country <- getitem df "country" ;;
  diaria <- getitem df "incidencia_diaria" ;;
  x <- lift (as_floats diaria) ;;
  setitem df "incidencia_7d"
    (of_floats (group_apply (rolling_mean 7 1) country x)) ;;;
  sub <- getitems df ["date"; "country"; "incidencia_7d"] ;;
  new (rename [("date", "fecha"); ("country", "país")] sub).

(** Lines 80-91. *)
Definition metrica_factor_crec_7d (df : loc) : M loc :=
  date <- getitem df "date" ;;
  date' <- lift (to_datetime date) ;;
  setitem df "date" date' ;;;
  country <- getitem df "country" ;;
  new_cases <- getitem df "new_cases" ;;
  x <- lift (as_floats new_cases) ;;
  setitem df "casos_semana_actual"
    (of_floats (group_apply (rolling_sum 7 7) country x)) ;;;
  country <- getitem df "country" ;;
  actual <- getitem df "casos_semana_actual" ;;
  a <- lift (as_floats actual) ;;
  setitem df "casos_semana_prev"
    (of_floats (group_apply (shift 7) country a)) ;;;
  actual <- getitem df "casos_semana_actual" ;;
  prev <- getitem df "casos_semana_prev" ;;
  factor <- lift (series_div actual prev) ;;
  setitem df "factor_crec_7d" factor ;;;
  sub <- getitems df
           ["date"; "country"; "casos_semana_actual"; "factor_crec_7d"] ;;
  new (rename [("date", "semana_fin"); ("country", "país");
               ("casos_semana_actual", "casos_semana")] sub).

(** [0 <= v <= 2000] *)
Definition in_range (v : xnum) : bool :=
  xleb (Fin (qz 0)) v && xleb v (Fin (qz 2000)).

(** Lines 95-102. *)
Definition chequeo_incidencia (incidencia : loc) : M unit :=
  s <- getitem incidencia "incidencia_7d" ;;
  x <- lift (as_floats s) ;;
  let min_val := series_min x in
  let max_val := series_max x in
  if in_range min_val && in_range max_val
  then print (MsgInRange min_val max_val)
  else print (MsgOutOfRange min_val max_val).

Definition output_file : string := "reporte_covid.xlsx".

(** Lines 106-114. *)
Definition reporte_excel_covid (df_proc incidencia factor_crec : loc)
  : M string :=
  s1 <- deref df_proc ;;
  s2 <- deref incidencia ;;
  s3 <- deref factor_crec ;;
  write_file output_file
    [("datos_procesados", s1); ("incidencia_7d", s2); ("factor_crec_7d", s3)] ;;;
  print (MsgExcel output_file) ;;;
  ret output_file.

(** Lines 118-131, from the table the Reader hands over: the stages run in
    the order written and pass their tables on by reference. *)
Definition despues_de_leer (df_raw : loc) : M string :=
  df_checkeado <- chequear_datos df_raw ;;
  df_proc <- datos_procesados df_checkeado ;;
  incidencia <- metrica_incidencia_7d df_proc ;;
  factor_crec <- metrica_factor_crec_7d df_proc ;;
  chequeo_incidencia incidencia ;;;
  reporte_excel_covid df_proc incidencia factor_crec.

Definition pipeline_covid (resp : http_result) : M string :=
  df_raw <- leer_datos resp ;;
  despues_de_leer df_raw.

End Stages.

(** The world before the job starts, and a run on a given raw table. *)
Definition world0 : world := mkWorld [] [] [].

Definition run_on (parse_date : cell → option Z) (hoy : Z) (raw : DataFrame)
  : outcome string * world :=
  (df_raw <- new raw ;; despues_de_leer parse_date hoy df_raw) world0.

(** ** An instance of the date parser, and sample tables *)

(** A parser for the dates of the source file, [YYYY-MM-DD], to nanoseconds
    since 1970-01-01; a number stands for that many nanoseconds.  It serves
    as the instance of [parse_date] in the examples. *)
Definition digit (a : ascii) : option Z :=
  let n := Z.of_nat (nat_of_ascii a) in
  if decide (48 ≤ n ≤ 57)%Z then Some (n - 48)%Z else None.

Fixpoint number (acc : Z) (l : list ascii) : option Z :=
  match l with
  | [] => Some acc
  | a :: l' => match digit a with
               | Some d => number (10 * acc + d) l'
               | None => None
               end
  end.

Definition leap (y : Z) : bool :=
  bool_decide (y mod 4 = 0)%Z
  && (negb (bool_decide (y mod 100 = 0)%Z) || bool_decide (y mod 400 = 0)%Z).

Definition days_in_month (y m : Z) : Z :=
  if decide (m = 2)%Z then (if leap y then 29 else 28)%Z
  else if decide (m = 4 ∨ m = 6 ∨ m = 9 ∨ m = 11)%Z then 30%Z
  else 31%Z.

Definition days_from_civil (y m d : Z) : Z :=
  let y' := (if decide (m ≤ 2)%Z then y - 1 else y)%Z in
  let era := (y' / 400)%Z in
  let yoe := (y' - era * 400)%Z in
  let mp := (if decide (2 < m)%Z then m - 3 else m + 9)%Z in
  let doy := ((153 * mp + 2) / 5 + d - 1)%Z in
  let doe := (yoe * 365 + yoe / 4 - yoe / 100 + doy)%Z in
  (era * 146097 + doe - 719468)%Z.

Definition ns_per_day : Z := 86400000000000.

Definition iso_date (c : cell) : option Z :=
  match c with
  | Str s =>
      match String.list_ascii_of_string s with
      | [y1; y2; y3; y4; sep1; m1; m2; sep2; d1; d2] =>
          if decide (sep1 = "-"%char ∧ sep2 = "-"%char) then
            match number 0 [y1; y2; y3; y4], number 0 [m1; m2], number 0 [d1; d2] with
            | Some y, Some m, Some d =>
                if decide (1678 ≤ y ≤ 2261 ∧ 1 ≤ m ≤ 12 ∧ 1 ≤ d ≤ days_in_month y m)%Z
                then Some (days_from_civil y m d * ns_per_day)%Z
                else None
            | _, _, _ => None
            end
          else None
      | _ => None
      end
  | Num (Fin q) => Some (Qfloor q)
  | _ => None
  end.

Definition fnum (z : Z) : cell := Num (Fin (qz z)).

(** Today in the examples: 2026-01-01. *)
Definition hoy_demo : Z := (20454 * ns_per_day)%Z.

(** The two rows of the scenario of the specification. *)
Definition ecuador2 : DataFrame :=
  mkDF 2 [("country", [Str "Ecuador"; Str "Ecuador"]);
          ("date", [Str "2024-01-01"; Str "2024-01-02"]);
          ("new_cases", [fnum 100; fnum 200]);
          ("people_vaccinated", [fnum 5; fnum 6]);
          ("population", [fnum 1000000; fnum 1000000])].

(** A raw table with a date that does not parse, a date in the future, a
    missing population and a repeated (country, date). *)
Definition raw_demo : DataFrame :=
  mkDF 4 [("country", [Str "Ecuador"; Str "Ecuador"; Str "Peru"; Str "Ecuador"]);
          ("date", [Str "2024-01-01"; Str "ayer"; Str "2031-05-05"; Str "2024-01-01"]);
          ("new_cases", [fnum 100; fnum 200; fnum 7; fnum 300]);
          ("people_vaccinated", [fnum 5; fnum 6; fnum 7; Num NaN]);
          ("population", [fnum 1000000; fnum 1000000; Num NaN; fnum 1000000]);
          ("total_deaths", [fnum 1; fnum 2; fnum 3; fnum 4])].

(** A header-only table with the columns of the source file. *)
Definition header_only : DataFrame :=
  mkDF 0 [("country", []); ("date", []); ("new_cases", []);
          ("people_vaccinated", []); ("population", [])].

(** The run of one stage on one table, alone in the store. *)
Definition alone {A} (stage : loc → M A) (df : DataFrame) : outcome A * world :=
  stage 0%nat (mkWorld [df] [] []).

(** ** What the statements below speak about *)

(** A cell of a [datetime64] column. *)
Definition is_datetime (c : cell) : bool :=
  match c with
  | Date _ | NaT => true
  | _ => false
  end.

(** The view of a cleaned table the metric derivations work on: the key and
    date columns, the two float columns, the dates already timestamps (the
    Quality Gate made them so), every column as long as the index. *)
Record CleanedTable (df : DataFrame) (country date : Series)
    (new_cases population : list xnum) : Prop := {
  cl_country : getcol "country" df = Some country;
  cl_date : getcol "date" df = Some date;
  cl_new_cases : getcol "new_cases" df = Some (of_floats new_cases);
  cl_population : getcol "population" df = Some (of_floats population);
  cl_datetime : Forall (λ c, is_datetime c = true) date;
  cl_len_country : length country = nrows df;
  cl_len_date : length date = nrows df;
  cl_len_new_cases : length new_cases = nrows df;
  cl_len_population : length population = nrows df
}.

(** [new_cases / population * 100000], row by row. *)
Definition incidencia_diaria (new_cases population : list xnum) : list xnum :=
  (λ v, xmul v (Fin (qz 100000))) <$> zip_with xdiv new_cases population.

(** The messages of the three checks of the Quality Gate. *)
Definition future_msg (n : nat) : msg :=
  if decide (0 < n)%nat then MsgFutureDates n else MsgDatesValid.
Definition null_msg (n : nat) : msg :=
  if decide (0 < n)%nat then MsgNullKeys n ["country"; "date"; "population"]
  else MsgKeysComplete.
Definition dup_msg (n : nat) : msg :=
  if decide (0 < n)%nat then MsgDuplicates n else MsgNoDuplicates.

Definition count_isna (s : Series) : nat :=
  length (filter (λ c, isna c = true) s).

(** The column [c] of the table a stage returned, if it returned one. *)
Definition column_of (c : string) (r : outcome loc * world) : option Series :=
  match r with
  | (Ok l, w) => heap w !! l ≫= getcol c
  | _ => None
  end.

(** The scenario table as the Cleaner hands it over, dates as timestamps. *)
Definition ecuador2_limpio : DataFrame :=
  mkDF 2 [("country", [Str "Ecuador"; Str "Ecuador"]);
          ("date", [Date 1704067200000000000; Date 1704153600000000000]);
          ("new_cases", [fnum 100; fnum 200]);
          ("people_vaccinated", [fnum 5; fnum 6]);
          ("population", [fnum 1000000; fnum 1000000])].


(** Eight and fourteen days of one entity, one case a day. *)
Definition dias (n : nat) : DataFrame :=
  mkDF n [("country", replicate n (Str "Ecuador"));
          ("date", (λ i, Date (Z.of_nat i * ns_per_day)) <$> seq 0 n);
          ("new_cases", replicate n (fnum 1));
          ("people_vaccinated", replicate n (fnum 1));
          ("population", replicate n (fnum 1000000))].

(** A value that lies within [[0, 2000]]. *)
Definition within_bounds (v : xnum) : Prop :=
  ∃ q, v = Fin q ∧ qz 0 ≤ q ∧ q ≤ qz 2000.

(** An incidence table, as the incidence derivation returns it. *)
Definition incidencia_demo : DataFrame :=
  mkDF 2 [("fecha", [Date 1704067200000000000; Date 1704153600000000000]);
          ("país", [Str "Ecuador"; Str "Ecuador"]);
          ("incidencia_7d", [fnum 10; fnum 15])].

(** ** An instance of the CSV reader *)

(** A reader for the plain files of the examples: lines of fields separated
    by commas, the first line the header.  An empty text is an
    [EmptyDataError], a line with more fields than the header a
    [ParserError]; an empty field is [NaN], a decimal number a float, any
    other text a string. *)
Fixpoint split_on (sep : ascii) (cur : list ascii) (l : list ascii)
  : list (list ascii) :=
  match l with
  | [] => [reverse cur]
  | a :: l' => if decide (a = sep) then reverse cur :: split_on sep [] l'
               else split_on sep (a :: cur) l'
  end.

Definition newline : ascii := ascii_of_nat 10.

Definition csv_lines (text : string) : list (list ascii) :=
  filter (λ ln, ln ≠ []) (split_on newline [] (String.list_ascii_of_string text)).

Definition decimal (l : list ascii) : option Qc :=
  match split_on "."%char [] l with
  | [i] => if decide (i = []) then None else qz <$> number 0 i
  | [i; f] =>
      if decide (i = [] ∨ f = []) then None
      else match number 0 i, number 0 f with
           | Some a, Some b =>
               Some (qz a + qz b / qz (10 ^ Z.of_nat (length f)))
           | _, _ => None
           end
  | _ => None
  end.

Definition csv_cell (l : list ascii) : cell :=
  match l with
  | [] => Num NaN
  | a :: l' =>
      if decide (a = "-"%char) then
        match decimal l' with
        | Some q => Num (Fin (- q))
        | None => Str (String.string_of_list_ascii l)
        end
      else
        match decimal l with
        | Some q => Num (Fin q)
        | None => Str (String.string_of_list_ascii l)
        end
  end.

Definition csv_simple (text : string) : outcome DataFrame :=
  match csv_lines text with
  | [] => Raise EmptyDataError
  | header :: body =>
      let names := String.string_of_list_ascii <$> split_on ","%char [] header in
      let records := (λ ln, csv_cell <$> split_on ","%char [] ln) <$> body in
      if decide (Forall (λ r, length r ≤ length names)%nat records) then
        Ok (mkDF (length body)
              (imap (λ j c, (c, (λ r, default (Num NaN) (r !! j)) <$> records))
                 names))
      else Raise ParserError
  end.

(** The text of a small source file, and a text whose second record has one
    field too many. *)
Definition csv_demo : string :=
  String.string_of_list_ascii
    (String.list_ascii_of_string "country,date,new_cases,people_vaccinated,population"
     ++ [newline]
     ++ String.list_ascii_of_string "Ecuador,2024-01-01,100,5,1000000"
     ++ [newline]
     ++ String.list_ascii_of_string "Ecuador,2024-01-02,200,6,1000000"
     ++ [newline]).


(** The cell of column [c] in row [i]. *)
Definition cell_at (c : string) (i : nat) (df : DataFrame) : option cell :=
  getcol c df ≫= (.!! i).

(** ** The Cleaner, column by column *)

(** The column [c] of a table, empty when the table has none of that name. *)
Definition col (c : string) (df : DataFrame) : Series :=
  default [] (getcol c df).

(** The three row masks of the Cleaner: the rows with [new_cases] and
    [people_vaccinated] present, the rows that repeat no earlier row, the
    rows of the two countries. *)
Definition mask_dropna (d : DataFrame) : list bool :=
  (λ r, bool_decide (Forall (λ c, isna c = false) r))
    <$> rows (mkDF (nrows d) [("new_cases", col "new_cases" d);
                              ("people_vaccinated", col "people_vaccinated" d)]).

Definition mask_first (d1 : DataFrame) : list bool :=
  negb <$> duplicated (rows d1).

Definition mask_paises (d2 : DataFrame) : list bool :=
  isin paises (col "country" d2).

(** What the Cleaner keeps of a column [v] of the table [d]. *)
Definition kept {A} (d : DataFrame) (v : list A) : list A :=
  let d1 := filter_rows (mask_dropna d) d in
  let d2 := filter_rows (mask_first d1) d1 in
  filter_mask (mask_paises d2)
    (filter_mask (mask_first d1) (filter_mask (mask_dropna d) v)).

(** The table the Cleaner returns for the table [d]. *)
Definition limpio (d : DataFrame) : DataFrame :=
  let d1 := filter_rows (mask_dropna d) d in
  let d2 := filter_rows (mask_first d1) d1 in
  mkDF (nrows (filter_rows (mask_paises d2) d2))
       ((λ c, (c, kept d (col c d))) <$> columnas).

(** The message of the Validator for the values [x] of [incidencia_7d]. *)
Definition range_msg (x : list xnum) : msg :=
  if in_range (series_min x) && in_range (series_max x)
  then MsgInRange (series_min x) (series_max x)
  else MsgOutOfRange (series_min x) (series_max x).

(** ** The tables of a whole run *)

Section Tables.
Variable parse_date : cell → option Z.

(** The raw table after the Quality Gate. *)
Definition tras_chequeo (raw : DataFrame) : DataFrame :=
  setcol "date" (to_datetime_coerce parse_date <$> col "date" raw) raw.

(** The incidence and growth tables of a cleaned table [c], whose float
    columns are [x] ([new_cases]) and [y] ([population]). *)
Definition serie_7d (c : DataFrame) (x y : list xnum) : list xnum :=
  group_apply (rolling_mean 7 1) (col "country" c) (incidencia_diaria x y).

Definition serie_semana (c : DataFrame) (x : list xnum) : list xnum :=
  group_apply (rolling_sum 7 7) (col "country" c) x.

Definition serie_prev (c : DataFrame) (x : list xnum) : list xnum :=
  group_apply (shift 7) (col "country" c) (serie_semana c x).

Definition serie_factor (c : DataFrame) (x : list xnum) : list xnum :=
  zip_with xdiv (serie_semana c x) (serie_prev c x).

Definition tabla_incidencia (c : DataFrame) (x y : list xnum) : DataFrame :=
  mkDF (nrows c) [("fecha", col "date" c); ("país", col "country" c);
                  ("incidencia_7d", of_floats (serie_7d c x y))].

Definition tabla_factor (c : DataFrame) (x : list xnum) : DataFrame :=
  mkDF (nrows c) [("semana_fin", col "date" c); ("país", col "country" c);
                  ("casos_semana", of_floats (serie_semana c x));
                  ("factor_crec_7d", of_floats (serie_factor c x))].

(** The cleaned table once both derivations have run on it. *)
Definition tras_metricas (c : DataFrame) (x y : list xnum) : DataFrame :=
  setcol "factor_crec_7d" (of_floats (serie_factor c x))
    (setcol "casos_semana_prev" (of_floats (serie_prev c x))
       (setcol "casos_semana_actual" (of_floats (serie_semana c x))
          (setcol "date" (col "date" c)
             (setcol "incidencia_7d" (of_floats (serie_7d c x y))
                (setcol "incidencia_diaria" (of_floats (incidencia_diaria x y))
                   (setcol "date" (col "date" c) c)))))).

End Tables.

(** The sheet [name] of the file written at [path]. *)
Definition sheet (path name : string) (w : world) : option DataFrame :=
  assoc path (disk w) ≫= assoc name.

(** A sheet with a header and no rows. *)
Definition header_only_sheet (s : DataFrame) : Prop :=
  nrows s = 0%nat ∧ Forall (λ cv, cv.2 = []) (cols s).


(** ** Rearranged tables *)

(** [df.iloc[idx]]: the rows of [df] at the positions [idx], in that order. *)
Definition reorder {A} (dflt : A) (idx : list nat) (v : list A) : list A :=
  (λ j, default dflt (v !! j)) <$> idx.

Definition take_rows (idx : list nat) (df : DataFrame) : DataFrame :=
  mkDF (length idx) ((λ cv, (cv.1, reorder (Num NaN) idx cv.2)) <$> cols df).

(** [idx] permutes or deletes rows of the entity [B] only: the rows of every
    other entity are all there, in the order they had. *)
Definition spares (B : cell) (keys : list cell) (idx : list nat) : Prop :=
  filter (λ j, keys !! j ≠ Some B) idx
  = filter (λ j, keys !! j ≠ Some B) (seq 0 (length keys)).

(** The values of column [c] on the rows of the entity [A] in the table a
    derivation returned, in the order of the rows. *)
Definition por_entidad (A : cell) (c : string) (r : outcome loc * world)
  : option Series :=
  keys ← column_of "país" r; v ← column_of c r; Some (select A keys v).

(** Three entities interleaved, and a rearrangement of the rows of Peru. *)
Definition tres_paises : DataFrame :=
  mkDF 6 [("country", [Str "Ecuador"; Str "Peru"; Str "Ecuador"; Str "Peru";
                       Str "Argentina"; Str "Peru"]);
          ("date", (λ i, Date (Z.of_nat i * ns_per_day)) <$> seq 0 6);
          ("new_cases", [fnum 1; fnum 20; fnum 3; fnum 40; fnum 5; fnum 60]);
          ("people_vaccinated", replicate 6 (fnum 1));
          ("population", replicate 6 (fnum 100000))].

(** ** Sorting by date *)

(** The order of [sort_values("date")]: timestamps ascending, missing dates
    last. *)
Definition date_leb (a b : cell) : bool :=
  match a, b with
  | Date s, Date t => bool_decide (s ≤ t)%Z
  | Date _, _ => true
  | _, Date _ => false
  | _, _ => true
  end.

(** A stable insertion sort of row positions. *)
Fixpoint insert_by (le : nat → nat → bool) (j : nat) (l : list nat) : list nat :=
  match l with
  | [] => [j]
  | k :: l' => if le j k then j :: k :: l' else k :: insert_by le j l'
  end.

Definition sort_by (le : nat → nat → bool) (l : list nat) : list nat :=
  foldr (insert_by le) [] l.

Definition fecha_leb (date : Series) (j k : nat) : bool :=
  date_leb (default NaT (date !! j)) (default NaT (date !! k)).

(** The row positions of a table in date order, ties in table order. *)
Definition orden_por_fecha (date : Series) : list nat :=
  sort_by (fecha_leb date) (seq 0 (length date)).

(** [df.sort_values("date", kind="stable")] *)
Definition sort_values (df : DataFrame) : DataFrame :=
  take_rows (orden_por_fecha (col "date" df)) df.

(** The dates of a series stand in ascending order. *)
Fixpoint ascending (s : Series) : bool :=
  match s with
  | a :: (b :: _) as s' => date_leb a b && ascending s'
  | _ => true
  end.

(** The values of column [c] of a returned table on the rows of entity [A]
    dated [d] (the date is in column [f]). *)
Definition attached (r : outcome loc * world) (f c : string) (A d : cell)
  : option Series :=
  keys ← column_of "país" r; ds ← column_of f r; v ← column_of c r;
  Some (select d (select A keys ds) (select A keys v)).

(** ** The rows the Cleaner keeps *)

(** A table whose columns are all as long as its index. *)
Definition well_formed (df : DataFrame) : Prop :=
  Forall (λ cv, length cv.2 = nrows df) (cols df).

(** The row [i] of [d] has a [new_cases] and a [people_vaccinated]. *)
Definition fila_completa (d : DataFrame) (i : nat) : bool :=
  negb (isna (default (Num NaN) (col "new_cases" d !! i)))
  && negb (isna (default (Num NaN) (col "people_vaccinated" d !! i))).

(** The row [i] of [d] belongs to one of the two countries. *)
Definition del_pais (d : DataFrame) (i : nat) : bool :=
  bool_decide (default (Num NaN) (col "country" d !! i) ∈ paises).

(** * Properties *)

(** ** The model at work *)

Example rolling_mean_demo :
  rolling_mean 7 1 [Fin (qz 10); Fin (qz 20)] = [Fin (qz 10); Fin (qz 15)].
Proof. apply (bool_decide_eq_true_1 _). vm_compute. reflexivity. Qed.

(** Windows stay within a group; a row without a key gets [NaN]. *)
Example group_apply_demo :
  group_apply (rolling_sum 2 2) [Str "a"; Str "b"; Str "a"; Num NaN; Str "b"]
     [Fin (qz 1); Fin (qz 10); Fin (qz 2); Fin (qz 5); Fin (qz 20)]
  = [NaN; NaN; Fin (qz 3); NaN; Fin (qz 30)].
Proof. apply (bool_decide_eq_true_1 _). vm_compute. reflexivity. Qed.

(** The file of the source, read and run: the messages in order. *)
Example pipeline_demo :
  stdout (pipeline_covid iso_date csv_simple hoy_demo
            (HttpResponse 200 csv_demo) world0).2
  = [MsgDownloaded 2; MsgDatesValid; MsgKeysComplete; MsgNoDuplicates;
     MsgProcessed 2; MsgInRange (Fin (qz 10)) (Fin (qz 15));
     MsgExcel "reporte_covid.xlsx"].
Proof. apply (bool_decide_eq_true_1 _). vm_compute. reflexivity. Qed.

(** A raw table with a date that does not parse, a future date, a missing
    population and a repeated key: the three alerts, and two rows left. *)
Example raw_demo_messages :
  stdout (run_on iso_date hoy_demo raw_demo).2
  = [MsgFutureDates 1; MsgNullKeys 2 ["country"; "date"; "population"];
     MsgDuplicates 1; MsgProcessed 2;
     MsgInRange (Fin (qz 10)) (Fin (qz 15)); MsgExcel "reporte_covid.xlsx"].
Proof. apply (bool_decide_eq_true_1 _). vm_compute. reflexivity. Qed.

(** ** Columns of floats *)

Lemma as_floats_of_floats (x : list xnum) : as_floats (of_floats x) = Ok x.
Proof.
  induction x as [|v x IH]; [done|].
  unfold as_floats, of_floats in *. cbn. by rewrite IH.
Qed.


Lemma series_div_of_floats (x y : list xnum) :
  series_div (of_floats x) (of_floats y) = Ok (of_floats (zip_with xdiv x y)).
Proof. unfold series_div. by rewrite !as_floats_of_floats. Qed.

Lemma series_mul_of_floats (x : list xnum) (k : xnum) :
  series_mul_scalar (of_floats x) k = Ok (of_floats ((λ v, xmul v k) <$> x)).
Proof. unfold series_mul_scalar. by rewrite as_floats_of_floats. Qed.

(** ** Rolling windows and shifts *)

Lemma length_rolling n m agg (x : list xnum) :
  length (rolling n m agg x) = length x.
Proof. apply length_imap. Qed.

Lemma length_shift n (x : list xnum) : length (shift n x) = length x.
Proof.
  unfold shift. rewrite length_take, length_app, length_replicate. lia.
Qed.

Lemma lookup_rolling n m agg (x : list xnum) (i : nat) :
  (i < length x)%nat →
  rolling n m agg x !! i
  = Some (if decide (m ≤ length (observed (window n i x)))%nat
          then agg (observed (window n i x)) else NaN).
Proof.
  intros Hi. unfold rolling. rewrite list_lookup_imap.
  destruct (lookup_lt_is_Some_2 x i Hi) as [v ->]. done.
Qed.



Lemma length_window {A} n i (x : list A) :
  (i < length x)%nat → length (window n i x) = Nat.min n (S i).
Proof.
  intros Hi. unfold window. rewrite length_drop, length_take. lia.
Qed.

Lemma window_last {A} n i (x : list A) (v : A) :
  (0 < n)%nat → x !! i = Some v → v ∈ window n i x.
Proof.
  intros Hn Hx. apply list_elem_of_lookup.
  exists (i - (S i - n))%nat. unfold window.
  rewrite lookup_drop, lookup_take_lt by lia.
  replace (S i - n + (i - (S i - n)))%nat with i by lia. done.
Qed.

Lemma window_sub {A} n i (x : list A) (v : A) :
  v ∈ window n i x → v ∈ x.
Proof.
  unfold window. intros H.
  apply list_elem_of_lookup in H as [j Hj].
  rewrite lookup_drop in Hj. apply lookup_take_Some in Hj as [Hj _].
  by eapply list_elem_of_lookup_2.
Qed.

Lemma length_observed_le (w : list xnum) : (length (observed w) ≤ length w)%nat.
Proof.
  induction w as [|v w IH]; [done|].
  unfold observed in *. cbn. destruct (fin_of v); cbn; lia.
Qed.


Lemma observed_elem (w : list xnum) (q : Qc) :
  Fin q ∈ w → (0 < length (observed w))%nat.
Proof.
  induction w as [|v w IH]; intros H.
  - by apply elem_of_nil in H.
  - unfold observed in *. cbn.
    apply elem_of_cons in H as [<-|H]; cbn; [lia|].
    destruct (fin_of v); cbn; [lia|by apply IH].
Qed.

(** ** Groups *)

Lemma select_cons {A} k k' (keys : list cell) (v : A) (vals : list A) :
  select k (k' :: keys) (v :: vals)
  = if decide (k' = k) then v :: select k keys vals else select k keys vals.
Proof.
  unfold select. cbn. by destruct (decide (k' = k)).
Qed.

Lemma rank_cons k k' (keys : list cell) :
  rank k (k' :: keys) = if decide (k' = k) then S (rank k keys) else rank k keys.
Proof. unfold rank. rewrite filter_cons. by destruct (decide (k' = k)). Qed.

Lemma rank_app k (l1 l2 : list cell) : rank k (l1 ++ l2) = (rank k l1 + rank k l2)%nat.
Proof. unfold rank. by rewrite filter_app, length_app. Qed.

Lemma length_select {A} k (keys : list cell) (vals : list A) :
  (length keys ≤ length vals)%nat → length (select k keys vals) = rank k keys.
Proof.
  revert vals. induction keys as [|k' keys IH]; intros vals H; [done|].
  destruct vals as [|v vals]; cbn in H; [lia|].
  rewrite select_cons, rank_cons.
  destruct (decide (k' = k)); cbn; rewrite IH; auto with lia.
Qed.

Lemma select_app {A} k (l1 l2 : list cell) (v1 v2 : list A) :
  length l1 = length v1 →
  select k (l1 ++ l2) (v1 ++ v2) = select k l1 v1 ++ select k l2 v2.
Proof.
  intros H. unfold select.
  rewrite zip_with_app by done. by rewrite filter_app, fmap_app.
Qed.

(** The row [i] of the table is the row [rank k (take i keys)] of its group. *)
Lemma lookup_select {A} k (keys : list cell) (vals : list A) (i : nat) (v : A) :
  keys !! i = Some k → vals !! i = Some v →
  select k keys vals !! rank k (take i keys) = Some v.
Proof.
  intros Hk Hv.
  assert (length (take i keys) = length (take i vals)) as Hlen.
  { apply lookup_lt_Some in Hk, Hv. rewrite !length_take. lia. }
  remember (rank k (take i keys)) as r eqn:Hr.
  rewrite <-(take_drop_middle keys i k Hk), <-(take_drop_middle vals i v Hv).
  subst r. rewrite select_app by done.
  rewrite select_cons, decide_True by done.
  rewrite lookup_app_r; rewrite length_select by lia; [|lia].
  by rewrite Nat.sub_diag.
Qed.

Lemma select_fmap {A B} (g : A → B) k (keys : list cell) (vals : list A) :
  select k keys (g <$> vals) = g <$> select k keys vals.
Proof.
  revert vals. induction keys as [|k' keys IH]; intros vals; [done|].
  destruct vals as [|v vals]; [done|].
  rewrite fmap_cons, !select_cons.
  destruct (decide (k' = k)); by rewrite ?fmap_cons, IH.
Qed.

Lemma select_zip_with {A B C} (g : A → B → C) k (keys : list cell)
    (a : list A) (b : list B) :
  length a = length keys → length b = length keys →
  select k keys (zip_with g a b)
  = zip_with g (select k keys a) (select k keys b).
Proof.
  revert a b. induction keys as [|k' keys IH]; intros a b Ha Hb.
  - by destruct a, b.
  - destruct a as [|x a], b as [|y b]; try discriminate.
    cbn [zip_with]. rewrite !select_cons.
    injection Ha as Ha. injection Hb as Hb.
    destruct (decide (k' = k)); cbn [zip_with]; by rewrite IH.
Qed.

Lemma fmap_lookup_seq {A} (d : A) (l : list A) :
  (λ j, default d (l !! j)) <$> seq 0 (length l) = l.
Proof.
  apply list_eq. intros i. rewrite list_lookup_fmap.
  destruct (decide (i < length l)%nat) as [Hi|Hi].
  - rewrite lookup_seq_lt by done. cbn.
    by destruct (lookup_lt_is_Some_2 l i Hi) as [v ->].
  - rewrite lookup_seq_ge by lia. by rewrite lookup_ge_None_2 by lia.
Qed.

Lemma length_group_apply f (keys : list cell) (vals : list xnum) :
  length (group_apply f keys vals) = length keys.
Proof. apply length_imap. Qed.

Lemma lookup_group_apply f (keys : list cell) (vals : list xnum) i k :
  keys !! i = Some k →
  group_apply f keys vals !! i
  = Some (if isna k then NaN
          else default NaN (f (select k keys vals) !! rank k (take i keys))).
Proof. intros H. unfold group_apply. by rewrite list_lookup_imap, H. Qed.

Lemma select_scatter (F : cell → list xnum) k (ks pre : list cell) :
  isna k = false →
  select k ks
    (imap (λ i k', if isna k' then NaN
                   else default NaN (F k' !! rank k' (pre ++ take i ks))) ks)
  = (λ j, default NaN (F k !! j)) <$> seq (rank k pre) (rank k ks).
Proof.
  intros Hk. revert pre. induction ks as [|k0 ks IH]; intros pre; [done|].
  rewrite imap_cons, select_cons, rank_cons. cbn [take].
  rewrite app_nil_r.
  assert (imap ((λ i k', if isna k' then NaN
            else default NaN (F k' !! rank k' (pre ++ take i (k0 :: ks)))) ∘ S) ks
          = imap (λ i k', if isna k' then NaN
              else default NaN (F k' !! rank k' ((pre ++ [k0]) ++ take i ks))) ks)
    as ->.
  { apply imap_ext. intros i k' _. cbn. by rewrite <-app_assoc. }
  rewrite IH, rank_app, (rank_cons k k0 []).
  change (rank k []) with 0%nat.
  destruct (decide (k0 = k)) as [->|Hne].
  - rewrite Hk. cbn [seq fmap list_fmap].
    by replace (rank k pre + 1)%nat with (S (rank k pre)) by lia.
  - by rewrite Nat.add_0_r.
Qed.

(** What [groupby(...).transform(f)] leaves on the rows of one group is [f]
    of the sub-series of that group. *)
Lemma select_group_apply f k (keys : list cell) (vals : list xnum) :
  isna k = false →
  (∀ x, length (f x) = length x) →
  (length keys ≤ length vals)%nat →
  select k keys (group_apply f keys vals) = f (select k keys vals).
Proof.
  intros Hk Hf Hlen. unfold group_apply.
  pose proof (select_scatter (λ k', f (select k' keys vals)) k keys [] Hk) as H.
  change (rank k []) with 0%nat in H. etrans; [exact H|].
  rewrite <-(length_select k keys vals Hlen), <-(Hf (select k keys vals)).
  apply fmap_lookup_seq.
Qed.

(** ** Tables and the store *)

Lemma assoc_set_eq {A} c (v : A) l : assoc c (assoc_set c v l) = Some v.
Proof.
  induction l as [|[c' v'] l IH]; cbn.
  - by rewrite decide_True.
  - destruct (decide (c' = c)) as [->|Hne]; cbn.
    + by rewrite decide_True.
    + by rewrite decide_False.
Qed.

Lemma assoc_set_ne {A} c c' (v : A) l :
  c ≠ c' → assoc c (assoc_set c' v l) = assoc c l.
Proof.
  intros Hne. induction l as [|[c0 v0] l IH]; cbn.
  - by rewrite decide_False.
  - destruct (decide (c0 = c')) as [->|Hne']; cbn.
    + by rewrite !decide_False.
    + destruct (decide (c0 = c)); [done|apply IH].
Qed.

Lemma getcol_setcol_eq c v df : getcol c (setcol c v df) = Some v.
Proof. apply assoc_set_eq. Qed.

Lemma getcol_setcol_ne c c' v df :
  c ≠ c' → getcol c (setcol c' v df) = getcol c df.
Proof. apply assoc_set_ne. Qed.

Lemma column_Ok c df v : getcol c df = Some v → column c df = Ok v.
Proof. unfold column. by intros ->. Qed.

Lemma column_missing c df : getcol c df = None → column c df = Raise (KeyError c).
Proof. unfold column. by intros ->. Qed.

Lemma run_deref l w d : heap w !! l = Some d → deref l w = (Ok d, w).
Proof. unfold deref. by intros ->. Qed.

Lemma run_getitem l c w d v :
  heap w !! l = Some d → getcol c d = Some v → getitem l c w = (Ok v, w).
Proof.
  intros Hl Hc. unfold getitem, bind, lift.
  by rewrite (run_deref _ _ _ Hl), (column_Ok _ _ _ Hc).
Qed.

Lemma run_setitem l c v w d :
  heap w !! l = Some d →
  setitem l c v w = (Ok (), upd l (setcol c v d) w).
Proof.
  intros Hl. unfold setitem, bind. by rewrite (run_deref _ _ _ Hl).
Qed.

Lemma run_getitems l cs w d r :
  heap w !! l = Some d → project cs d = Ok r → getitems l cs w = (Ok r, w).
Proof.
  intros Hl Hp. unfold getitems, bind, lift.
  by rewrite (run_deref _ _ _ Hl), Hp.
Qed.

Lemma upd_upd l d d' w : upd l d (upd l d' w) = upd l d w.
Proof. unfold upd. cbn. by rewrite list_insert_insert_eq. Qed.

(** ** Running the stages *)

Lemma bind_ok {A B} (m : M A) (k : A → M B) w a w' :
  m w = (Ok a, w') → bind m k w = k a w'.
Proof. unfold bind. by intros ->. Qed.

Lemma run_lift {A} (o : outcome A) w : lift o w = (o, w).
Proof. done. Qed.

Lemma run_print m w :
  print m w = (Ok (), mkWorld (heap w) (stdout w ++ [m]) (disk w)).
Proof. done. Qed.

Lemma if_print {P : Prop} (d : Decision P) m1 m2 :
  (if d then print m1 else print m2) = print (if d then m1 else m2).
Proof. by destruct d. Qed.

Ltac heap_tac :=
  cbn [heap upd];
  first [ eassumption
        | apply list_lookup_insert_eq; rewrite ?length_insert;
          eapply lookup_lt_Some; eassumption ].

Ltac col_tac :=
  repeat (rewrite getcol_setcol_ne by done);
  first [ apply getcol_setcol_eq | eassumption ].

Ltac proj_tac :=
  unfold project; cbn [omapM];
  repeat (erewrite column_Ok by col_tac; cbn [obind]);
  reflexivity.

Ltac step_with tac := etrans; [eapply bind_ok; tac | cbv beta; rewrite ?upd_upd].

Ltac step :=
  lazymatch goal with
  | |- bind (getitem _ _) _ _ = _ =>
      step_with ltac:(eapply run_getitem; [heap_tac | col_tac])
  | |- bind (setitem _ _ _) _ _ = _ =>
      step_with ltac:(eapply run_setitem; heap_tac)
  | |- bind (getitems _ _) _ _ = _ =>
      step_with ltac:(eapply run_getitems; [heap_tac | proj_tac])
  | |- bind (deref _) _ _ = _ =>
      step_with ltac:(eapply run_deref; heap_tac)
  | |- bind (print _) _ _ = _ =>
      step_with ltac:(apply run_print)
  | |- bind (if _ then print _ else print _) _ _ = _ =>
      rewrite if_print
  | |- bind (lift _) _ _ = _ =>
      step_with ltac:(rewrite run_lift; f_equal;
                      first [ eassumption | apply series_div_of_floats
                            | apply series_mul_of_floats
                            | apply as_floats_of_floats ])
  end.

Lemma to_datetime_datetime parse (s : Series) :
  Forall (λ c, is_datetime c = true) s → to_datetime parse s = Ok s.
Proof.
  induction 1 as [|c s Hc _ IH]; [done|].
  unfold to_datetime in *. cbn. rewrite IH.
  by destruct c as [?|[]| |].
Qed.

Lemma to_datetime_coerce_datetime parse (s : Series) :
  Forall (λ c, is_datetime c = true) (to_datetime_coerce parse <$> s).
Proof.
  apply Forall_fmap, Forall_forall. intros c _. cbn.
  destruct c as [?|[]| |]; cbn; try done; by destruct (parse _).
Qed.

Section StageRuns.

Variable parse_date : cell → option Z.
Variable hoy : Z.

(** The incidence derivation on a table with the columns it reads: the
    table it received gets the date column rewritten and two more columns,
    and a new three-column table is returned. *)
Lemma incidencia_run l w df date date' country x y :
  heap w !! l = Some df →
  getcol "date" df = Some date → to_datetime parse_date date = Ok date' →
  getcol "new_cases" df = Some (of_floats x) →
  getcol "population" df = Some (of_floats y) →
  getcol "country" df = Some country →
  let i7 := group_apply (rolling_mean 7 1) country (incidencia_diaria x y) in
  metrica_incidencia_7d parse_date l w =
   (Ok (length (heap w)),
    mkWorld (<[l := setcol "incidencia_7d" (of_floats i7)
                     (setcol "incidencia_diaria"
                        (of_floats (incidencia_diaria x y))
                        (setcol "date" date' df))]> (heap w)
             ++ [mkDF (nrows df) [("fecha", date'); ("país", country);
                                  ("incidencia_7d", of_floats i7)]])
            (stdout w) (disk w)).
Proof.
  intros Hl Hdate Hparse Hnc Hpop Hkeys i7.
  unfold metrica_incidencia_7d.
  repeat step.
  unfold new, rename, upd. cbn. rewrite length_insert.
  repeat (case_decide; try done).
Qed.

(** The growth derivation, likewise: three more columns on the table it
    received, and a new four-column table returned. *)
Lemma factor_run l w df date date' country x :
  heap w !! l = Some df →
  getcol "date" df = Some date → to_datetime parse_date date = Ok date' →
  getcol "country" df = Some country →
  getcol "new_cases" df = Some (of_floats x) →
  let actual := group_apply (rolling_sum 7 7) country x in
  let prev := group_apply (shift 7) country actual in
  let factor := zip_with xdiv actual prev in
  metrica_factor_crec_7d parse_date l w =
   (Ok (length (heap w)),
    mkWorld (<[l := setcol "factor_crec_7d" (of_floats factor)
                     (setcol "casos_semana_prev" (of_floats prev)
                        (setcol "casos_semana_actual" (of_floats actual)
                           (setcol "date" date' df)))]> (heap w)
             ++ [mkDF (nrows df)
                   [("semana_fin", date'); ("país", country);
                    ("casos_semana", of_floats actual);
                    ("factor_crec_7d", of_floats factor)]])
            (stdout w) (disk w)).
Proof.
  intros Hl Hdate Hparse Hkeys Hnc actual prev factor.
  unfold metrica_factor_crec_7d.
  repeat step.
  unfold new, rename, upd. cbn. rewrite length_insert.
  repeat (case_decide; try done).
Qed.

End StageRuns.

(** ** The incidence derivation *)

Lemma column_of_new c n (h : list DataFrame) out so dk :
  length h = n →
  column_of c (Ok n, mkWorld (h ++ [out]) so dk) = getcol c out.
Proof.
  intros <-. unfold column_of. cbn [heap].
  rewrite lookup_app_r by done. by rewrite Nat.sub_diag.
Qed.

Ltac getcol_explicit :=
  unfold getcol; cbn [cols assoc]; repeat (case_decide; try done).


Lemma length_incidencia_diaria nc pop :
  length (incidencia_diaria nc pop) = Nat.min (length nc) (length pop).
Proof. unfold incidencia_diaria. by rewrite length_fmap, length_zip_with. Qed.

Lemma rolling_mean_defined x r q :
  x !! r = Some (Fin q) →
  rolling_mean 7 1 x !! r = Some (agg_mean (observed (window 7 r x)))
  ∧ (1 ≤ length (observed (window 7 r x)) ≤ 7)%nat.
Proof.
  intros Hx. pose proof (lookup_lt_Some _ _ _ Hx) as Hr.
  assert (1 ≤ length (observed (window 7 r x)))%nat as Hobs.
  { apply (observed_elem _ q), window_last; [lia|done]. }
  split.
  - unfold rolling_mean. rewrite lookup_rolling by done.
    by rewrite decide_True.
  - split; [done|].
    etrans; [apply length_observed_le|]. rewrite length_window by done. lia.
Qed.



(** ** The growth derivation *)






Section Growth.
Variable parse_date : cell → option Z.

End Growth.


Example growth_14th_row :
  column_of "factor_crec_7d" (alone (metrica_factor_crec_7d iso_date) (dias 14))
    ≫= (.!! 13%nat) = Some (fnum 1).
Proof. apply (bool_decide_eq_true_1 _). vm_compute. reflexivity. Qed.


(** ** The Validator *)

Lemma xleb_refl v : v ≠ NaN → xleb v v = true.
Proof.
  destruct v; try done. intros _. cbn. apply bool_decide_eq_true_2.
  apply Qcle_refl.
Qed.

Lemma xleb_trans a b c : xleb a b = true → xleb b c = true → xleb a c = true.
Proof.
  destruct a, b, c; cbn; try done.
  rewrite !bool_decide_eq_true. apply Qcle_trans.
Qed.

Lemma xleb_total a b : a ≠ NaN → b ≠ NaN → xleb a b = true ∨ xleb b a = true.
Proof.
  destruct a as [x| | |], b as [y| | |]; cbn; try done; auto.
  intros _ _. rewrite !bool_decide_eq_true.
  destruct (Qclt_le_dec x y); [left; by apply Qclt_le_weak|by right].
Qed.

Lemma xleb_false_flip a b : a ≠ NaN → b ≠ NaN → xleb a b = false → xleb b a = true.
Proof.
  intros Ha Hb H. destruct (xleb_total a b Ha Hb) as [H'|H']; [congruence|done].
Qed.

Lemma present_spec (x : list xnum) v : v ∈ present x ↔ v ∈ x ∧ v ≠ NaN.
Proof. unfold present. by rewrite list_elem_of_filter, (comm and). Qed.

Lemma foldl_xmin2 (l : list xnum) a :
  a ≠ NaN → Forall (λ v, v ≠ NaN) l →
  foldl xmin2 a l ∈ a :: l
  ∧ ∀ v, v ∈ a :: l → xleb (foldl xmin2 a l) v = true.
Proof.
  intros Ha Hl. revert a Ha. induction Hl as [|b l Hb _ IH]; intros a Ha.
  - cbn. split; [apply list_elem_of_here|].
    intros v Hv. apply list_elem_of_singleton in Hv as ->. by apply xleb_refl.
  - cbn [foldl].
    assert (xmin2 a b ≠ NaN) as Hm by (unfold xmin2; by destruct (xleb a b)).
    destruct (IH _ Hm) as [Hin Hle]. split.
    + apply elem_of_cons in Hin as [->|Hin].
      * unfold xmin2. destruct (xleb a b); [apply list_elem_of_here|].
        apply list_elem_of_further, list_elem_of_here.
      * by do 2 apply list_elem_of_further.
    + intros v Hv.
      assert (xleb (foldl xmin2 (xmin2 a b) l) (xmin2 a b) = true) as H0
        by apply Hle, list_elem_of_here.
      apply elem_of_cons in Hv as [->|Hv]; [|apply elem_of_cons in Hv as [->|Hv]].
      * eapply xleb_trans; [exact H0|]. unfold xmin2.
        destruct (xleb a b) eqn:E; [by apply xleb_refl|by apply xleb_false_flip].
      * eapply xleb_trans; [exact H0|]. unfold xmin2.
        destruct (xleb a b) eqn:E; [done|by apply xleb_refl].
      * by apply Hle, list_elem_of_further.
Qed.

Lemma foldl_xmax2 (l : list xnum) a :
  a ≠ NaN → Forall (λ v, v ≠ NaN) l →
  foldl xmax2 a l ∈ a :: l
  ∧ ∀ v, v ∈ a :: l → xleb v (foldl xmax2 a l) = true.
Proof.
  intros Ha Hl. revert a Ha. induction Hl as [|b l Hb _ IH]; intros a Ha.
  - cbn. split; [apply list_elem_of_here|].
    intros v Hv. apply list_elem_of_singleton in Hv as ->. by apply xleb_refl.
  - cbn [foldl].
    assert (xmax2 a b ≠ NaN) as Hm by (unfold xmax2; by destruct (xleb a b)).
    destruct (IH _ Hm) as [Hin Hle]. split.
    + apply elem_of_cons in Hin as [->|Hin].
      * unfold xmax2. destruct (xleb a b); [|apply list_elem_of_here].
        apply list_elem_of_further, list_elem_of_here.
      * by do 2 apply list_elem_of_further.
    + intros v Hv.
      assert (xleb (xmax2 a b) (foldl xmax2 (xmax2 a b) l) = true) as H0
        by apply Hle, list_elem_of_here.
      apply elem_of_cons in Hv as [->|Hv]; [|apply elem_of_cons in Hv as [->|Hv]].
      * eapply xleb_trans; [|exact H0]. unfold xmax2.
        destruct (xleb a b) eqn:E; [done|by apply xleb_refl].
      * eapply xleb_trans; [|exact H0]. unfold xmax2.
        destruct (xleb a b) eqn:E; [by apply xleb_refl|by apply xleb_false_flip].
      * by apply Hle, list_elem_of_further.
Qed.

Lemma present_not_nan (x : list xnum) : Forall (λ v, v ≠ NaN) (present x).
Proof. apply Forall_forall. intros v Hv. by apply present_spec in Hv as [_ ?]. Qed.

(** [Series.min()] is the least of the values that are not [NaN], and [NaN]
    when there is none; [Series.max()] the greatest. *)
Lemma series_min_spec (x : list xnum) :
  (present x = [] ∧ series_min x = NaN)
  ∨ (series_min x ∈ x ∧ series_min x ≠ NaN
     ∧ ∀ v, v ∈ x → v ≠ NaN → xleb (series_min x) v = true).
Proof.
  unfold series_min. pose proof (present_not_nan x) as Hp.
  destruct (present x) as [|a l] eqn:E; [by left|right].
  inversion Hp as [|?? Ha Hl]; subst.
  destruct (foldl_xmin2 l a Ha Hl) as [Hin Hle].
  rewrite <-E in Hin. apply present_spec in Hin as [Hin Hnn].
  repeat split; [done..|].
  intros v Hv Hvn. apply Hle. rewrite <-E. by apply present_spec.
Qed.

Lemma series_max_spec (x : list xnum) :
  (present x = [] ∧ series_max x = NaN)
  ∨ (series_max x ∈ x ∧ series_max x ≠ NaN
     ∧ ∀ v, v ∈ x → v ≠ NaN → xleb v (series_max x) = true).
Proof.
  unfold series_max. pose proof (present_not_nan x) as Hp.
  destruct (present x) as [|a l] eqn:E; [by left|right].
  inversion Hp as [|?? Ha Hl]; subst.
  destruct (foldl_xmax2 l a Ha Hl) as [Hin Hle].
  rewrite <-E in Hin. apply present_spec in Hin as [Hin Hnn].
  repeat split; [done..|].
  intros v Hv Hvn. apply Hle. rewrite <-E. by apply present_spec.
Qed.

Lemma in_range_spec v : in_range v = true ↔ within_bounds v.
Proof.
  unfold in_range, within_bounds. split.
  - intros H. apply andb_true_iff in H as [H1 H2].
    destruct v as [q| | |]; try done. cbn in H1, H2.
    apply bool_decide_eq_true in H1, H2. by exists q.
  - intros (q & -> & H1 & H2). cbn.
    by rewrite !bool_decide_eq_true_2.
Qed.

(** C8. On every incidence table the Validator raises nothing and leaves the
    store and the disk as they are; it prints exactly one message, the "in
    range" one if and only if the minimum and the maximum of [incidencia_7d]
    (over the values that are not [NaN]) both lie within [[0, 2000]], and the
    "out of range" one with that minimum and maximum otherwise, which is
    what an empty table gets. *)
Theorem validator_logs_range l w t x :
  heap w !! l = Some t →
  getcol "incidencia_7d" t = Some (of_floats x) →
  let min_val := series_min x in
  let max_val := series_max x in
  ∃ m,
    chequeo_incidencia l w = (Ok (), mkWorld (heap w) (stdout w ++ [m]) (disk w))
    ∧ (m = MsgInRange min_val max_val ∨ m = MsgOutOfRange min_val max_val)
    ∧ (m = MsgInRange min_val max_val
       ↔ within_bounds min_val ∧ within_bounds max_val)
    ∧ (∀ v, v ∈ x → v ≠ NaN →
         xleb min_val v = true ∧ xleb v max_val = true)
    ∧ (x = [] → m = MsgOutOfRange NaN NaN).
Proof.
  intros Hl Hc min_val max_val.
  unfold chequeo_incidencia.
  exists (if in_range min_val && in_range max_val
          then MsgInRange min_val max_val else MsgOutOfRange min_val max_val).
  split; [|split; [|split; [|split]]].
  - repeat step. fold min_val max_val.
    by destruct (in_range min_val && in_range max_val).
  - destruct (in_range min_val && in_range max_val); auto.
  - rewrite <-!in_range_spec, <-andb_true_iff.
    destruct (in_range min_val && in_range max_val); split; done.
  - intros v Hv Hn. split.
    + destruct (series_min_spec x) as [[Hp _]|(_ & _ & H)]; [|by apply H].
      assert (v ∈ present x) as Hin by by apply present_spec.
      rewrite Hp in Hin. by apply elem_of_nil in Hin.
    + destruct (series_max_spec x) as [[Hp _]|(_ & _ & H)]; [|by apply H].
      assert (v ∈ present x) as Hin by by apply present_spec.
      rewrite Hp in Hin. by apply elem_of_nil in Hin.
  - intros ->. done.
Qed.

Lemma validator_logs_range_witness :
  ∃ m,
    chequeo_incidencia 0%nat (mkWorld [incidencia_demo] [] [])
    = (Ok (), mkWorld [incidencia_demo] [m] [])
    ∧ (m = MsgInRange (Fin (qz 10)) (Fin (qz 15))
       ∨ m = MsgOutOfRange (Fin (qz 10)) (Fin (qz 15))).
Proof.
  destruct (validator_logs_range 0%nat (mkWorld [incidencia_demo] [] [])
              incidencia_demo [Fin (qz 10); Fin (qz 15)])
    as (m & Hrun & Hm & _).
  - reflexivity.
  - reflexivity.
  - exists m. split; [exact Hrun|exact Hm].
Defined.

Example validator_empty :
  chequeo_incidencia 0%nat (mkWorld [mkDF 0 [("incidencia_7d", [])]] [] [])
  = (Ok (), mkWorld [mkDF 0 [("incidencia_7d", [])]] [MsgOutOfRange NaN NaN] []).
Proof. reflexivity. Qed.

(** ** The Source Reader *)

Section Reader.
Variable read_csv : string → outcome DataFrame.

End Reader.



(** ** The Quality Gate *)

Section Gate.
Variable parse_date : cell → option Z.
Variable hoy : Z.

(** The Quality Gate on a table with the three key columns. *)
Lemma chequear_run l w df date country pop :
  heap w !! l = Some df →
  getcol "date" df = Some date →
  getcol "country" df = Some country →
  getcol "population" df = Some pop →
  let date' := to_datetime_coerce parse_date <$> date in
  chequear_datos parse_date hoy l w =
    (Ok l,
     mkWorld (<[l := setcol "date" date' df]> (heap w))
       (stdout w ++
          [future_msg (count_true (take (nrows df) (date_gt hoy <$> date')));
           null_msg (count_isna country + count_isna date' + count_isna pop);
           dup_msg (count_true (duplicated (rows
                      (mkDF (nrows df) [("country", country); ("date", date')]))))])
       (disk w)).
Proof.
  intros Hl Hdate Hcountry Hpop date'.
  unfold chequear_datos, columnas_clave.
  repeat step.
  unfold ret, upd. cbn [heap stdout disk].
  rewrite <-!app_assoc. cbn [app].
  unfold future_msg, null_msg, dup_msg, count_na, count_isna.
  cbn [filter_rows nrows setcol cols fmap list_fmap sum_list sum_list_with fst snd].
  rewrite Nat.add_0_r, Nat.add_assoc. done.
Qed.

Lemma columns_setcol c v df u :
  getcol c df = Some u → columns (setcol c v df) = columns df.
Proof.
  unfold getcol, columns, setcol. cbn [cols].
  induction (cols df) as [|[c' v'] cs IH]; [done|].
  cbn. destruct (decide (c' = c)) as [->|Hne]; cbn; [done|].
  intros H. by rewrite IH.
Qed.

(** C3, amended. On every raw table that has the columns [date],
    [country] and [population] the Quality Gate raises nothing and returns
    the very table it was given, with the same rows, the same columns in
    the same order and every column other than [date] unchanged; the
    [date] column is overwritten in place by its coercion to timestamps
    (a timestamp stays what it is, what does not parse becomes [NaT]).
    Besides that it touches no other table and no file, and prints the
    three messages of its checks. *)
Theorem gate_pass_through l w df date country pop :
  heap w !! l = Some df →
  getcol "date" df = Some date →
  getcol "country" df = Some country →
  getcol "population" df = Some pop →
  ∃ w' df' m1 m2 m3,
    chequear_datos parse_date hoy l w = (Ok l, w')
    ∧ heap w' = <[l := df']> (heap w)
    ∧ heap w' !! l = Some df'
    ∧ nrows df' = nrows df
    ∧ columns df' = columns df
    ∧ (∀ c, c ≠ "date" → getcol c df' = getcol c df)
    ∧ getcol "date" df' = Some (to_datetime_coerce parse_date <$> date)
    ∧ (∀ i t, date !! i = Some (Date t) →
         (to_datetime_coerce parse_date <$> date) !! i = Some (Date t))
    ∧ disk w' = disk w
    ∧ stdout w' = stdout w ++ [m1; m2; m3]
    ∧ (m1 = MsgDatesValid ∨ ∃ n, m1 = MsgFutureDates n)
    ∧ (m2 = MsgKeysComplete ∨ ∃ n, m2 = MsgNullKeys n columnas_clave)
    ∧ (m3 = MsgNoDuplicates ∨ ∃ n, m3 = MsgDuplicates n).
Proof.
  intros Hl Hdate Hcountry Hpop.
  eexists _, (setcol "date" (to_datetime_coerce parse_date <$> date) df), _, _, _.
  split; [by apply chequear_run|].
  cbn [heap stdout disk].
  split; [done|].
  split; [apply list_lookup_insert_eq; by eapply lookup_lt_Some|].
  split; [done|].
  split; [by eapply columns_setcol|].
  split; [intros c Hc; by apply getcol_setcol_ne|].
  split; [apply getcol_setcol_eq|].
  split; [intros i t Hi; by rewrite list_lookup_fmap, Hi|].
  split; [done|]. split; [done|].
  unfold future_msg, null_msg, dup_msg.
  repeat split; case_decide; eauto.
Qed.
End Gate.

(** C3 as stated fails: the Gate rewrites the date column of the table it
    was given, a date that does not parse becoming [NaT]. *)
Lemma gate_rewrites_dates :
  let r := alone (chequear_datos iso_date hoy_demo) raw_demo in
  r.1 = Ok 0%nat
  ∧ heap r.2 !! 0%nat ≠ Some raw_demo
  ∧ cell_at "date" 1 raw_demo = Some (Str "ayer")
  ∧ (heap r.2 !! 0%nat) ≫= cell_at "date" 1 = Some NaT.
Proof.
  cbv zeta. split; [by vm_compute|]. split; [|split; by vm_compute].
  apply (bool_decide_eq_false_1 _). by vm_compute.
Qed.

Lemma gate_pass_through_witness :
  ∃ w' df',
    chequear_datos iso_date hoy_demo 0%nat (mkWorld [raw_demo] [] []) = (Ok 0%nat, w')
    ∧ heap w' !! 0%nat = Some df'
    ∧ nrows df' = 4%nat
    ∧ getcol "new_cases" df' = getcol "new_cases" raw_demo.
Proof.
  destruct (gate_pass_through iso_date hoy_demo 0%nat (mkWorld [raw_demo] [] [])
              raw_demo
              [Str "2024-01-01"; Str "ayer"; Str "2031-05-05"; Str "2024-01-01"]
              [Str "Ecuador"; Str "Ecuador"; Str "Peru"; Str "Ecuador"]
              [fnum 1000000; fnum 1000000; Num NaN; fnum 1000000])
    as (w' & df' & m1 & m2 & m3 & Hrun & _ & Hdf & Hn & _ & Hc & _).
  - reflexivity.
  - reflexivity.
  - reflexivity.
  - reflexivity.
  - exists w', df'. split; [exact Hrun|]. split; [exact Hdf|].
    split; [exact Hn|]. apply Hc. discriminate.
Defined.


(** ** The Cleaner *)

Lemma getcol_col c d v : getcol c d = Some v → col c d = v.
Proof. unfold col. by intros ->. Qed.

Lemma getcol_filter_rows c m d :
  getcol c (filter_rows m d) = filter_mask m <$> getcol c d.
Proof.
  unfold getcol, filter_rows. cbn [cols].
  induction (cols d) as [|[c' v'] cs IH]; [done|].
  cbn. by destruct (decide (c' = c)).
Qed.

Lemma filter_mask_cons {A} b m (a : A) v :
  filter_mask (b :: m) (a :: v)
  = if b then a :: filter_mask m v else filter_mask m v.
Proof. unfold filter_mask. cbn. by destruct b. Qed.

Lemma filter_mask_nil_r {A} m : filter_mask m (@nil A) = [].
Proof. by destruct m. Qed.

Lemma filter_mask_fmap {A B} (g : A → B) m (v : list A) :
  filter_mask m (g <$> v) = g <$> filter_mask m v.
Proof.
  revert v. induction m as [|b m IH]; intros [|a v]; try done.
  rewrite fmap_cons, !filter_mask_cons, IH. by destruct b.
Qed.

Lemma filter_mask_Forall {A} (P : A → Prop) m (v : list A) :
  Forall P v → Forall P (filter_mask m v).
Proof.
  intros H. revert m.
  induction H as [|a v Ha _ IH]; intros [|b m]; try done.
  rewrite filter_mask_cons. destruct b; [constructor|]; auto.
Qed.

Lemma kept_fmap {A B} (g : A → B) d (v : list A) : kept d (g <$> v) = g <$> kept d v.
Proof. unfold kept. by rewrite !filter_mask_fmap. Qed.

Lemma kept_Forall {A} (P : A → Prop) d (v : list A) :
  Forall P v → Forall P (kept d v).
Proof. intros H. unfold kept. by do 3 apply filter_mask_Forall. Qed.

Lemma datos_run l w d country date nc pv pop :
  heap w !! l = Some d →
  getcol "country" d = Some country →
  getcol "date" d = Some date →
  getcol "new_cases" d = Some nc →
  getcol "people_vaccinated" d = Some pv →
  getcol "population" d = Some pop →
  datos_procesados l w =
    (Ok (length (heap w)),
     mkWorld (heap w ++ [limpio d])
             (stdout w ++ [MsgProcessed (nrows (limpio d))]) (disk w)).
Proof.
  intros Hl Hcountry Hdate Hnc Hpv Hpop.
  unfold datos_procesados.
  step.
  assert (dropna ["new_cases"; "people_vaccinated"] d
          = Ok (filter_rows (mask_dropna d) d)) as Hdrop.
  { unfold dropna, project. cbn [omapM].
    rewrite (column_Ok _ _ _ Hnc), (column_Ok _ _ _ Hpv). cbn [obind].
    unfold mask_dropna. by rewrite (getcol_col _ _ _ Hnc), (getcol_col _ _ _ Hpv). }
  step.
  set (d1 := filter_rows (mask_dropna d) d).
  unfold drop_duplicates. fold (mask_first d1).
  set (d2 := filter_rows (mask_first d1) d1).
  assert (∀ c v, getcol c d = Some v →
            getcol c d2 = Some (filter_mask (mask_first d1) (filter_mask (mask_dropna d) v)))
    as Hd2.
  { intros c v Hc. unfold d2, d1. by rewrite !getcol_filter_rows, Hc. }
  etrans; [eapply bind_ok; rewrite run_lift; f_equal; apply column_Ok, Hd2, Hcountry|].
  cbv beta.
  assert (isin paises (filter_mask (mask_first d1) (filter_mask (mask_dropna d) country))
          = mask_paises d2) as ->.
  { unfold mask_paises. by rewrite (getcol_col _ _ _ (Hd2 _ _ Hcountry)). }
  step.
  assert (project columnas (filter_rows (mask_paises d2) d2) = Ok (limpio d)) as Hproj.
  { unfold project, columnas. cbn [omapM].
    rewrite !(column_Ok _ _ (filter_mask (mask_paises d2) _))
      by (rewrite getcol_filter_rows; erewrite Hd2 by eassumption; reflexivity).
    cbn [obind]. unfold limpio, kept, columnas. fold d1 d2. cbn [fmap list_fmap].
    by rewrite (getcol_col _ _ _ Hcountry), (getcol_col _ _ _ Hdate),
      (getcol_col _ _ _ Hnc), (getcol_col _ _ _ Hpv), (getcol_col _ _ _ Hpop). }
  step.
  unfold new. cbn [heap stdout disk]. unfold limpio. fold d1 d2. done.
Qed.

(** ** The Validator and the Sink, run *)

Lemma insert_snoc {A} (h : list A) p q : <[length h := p]> (h ++ [q]) = h ++ [p].
Proof.
  rewrite insert_app_r_alt by done. by rewrite Nat.sub_diag.
Qed.

Lemma lookup_snoc {A} (h : list A) q : (h ++ [q]) !! length h = Some q.
Proof. rewrite lookup_app_r by done. by rewrite Nat.sub_diag. Qed.

Lemma chequeo_run l w t x :
  heap w !! l = Some t →
  getcol "incidencia_7d" t = Some (of_floats x) →
  chequeo_incidencia l w
  = (Ok (), mkWorld (heap w) (stdout w ++ [range_msg x]) (disk w)).
Proof.
  intros Hl Hc. unfold chequeo_incidencia. repeat step.
  unfold range_msg.
  by destruct (in_range (series_min x) && in_range (series_max x)).
Qed.

Lemma reporte_run l1 l2 l3 w s1 s2 s3 :
  heap w !! l1 = Some s1 → heap w !! l2 = Some s2 → heap w !! l3 = Some s3 →
  reporte_excel_covid l1 l2 l3 w
  = (Ok output_file,
     mkWorld (heap w) (stdout w ++ [MsgExcel output_file])
       (assoc_set output_file
          [("datos_procesados", s1); ("incidencia_7d", s2); ("factor_crec_7d", s3)]
          (disk w))).
Proof.
  intros H1 H2 H3. unfold reporte_excel_covid. repeat step.
  done.
Qed.

(** ** The whole run *)

Lemma insert_middle {A} (h : list A) p q rest :
  <[length h := p]> (h ++ q :: rest) = h ++ p :: rest.
Proof. rewrite insert_app_r_alt by done. by rewrite Nat.sub_diag. Qed.

Lemma lookup_after {A} (h l : list A) i : (h ++ l) !! (length h + i)%nat = l !! i.
Proof.
  rewrite lookup_app_r by lia. f_equal. lia.
Qed.

Lemma getcol_limpio c d :
  c ∈ columnas → getcol c (limpio d) = Some (kept d (col c d)).
Proof.
  intros Hc. unfold limpio, columnas in *. unfold getcol. cbn [cols fmap list_fmap assoc].
  repeat (apply elem_of_cons in Hc as [->|Hc];
          [repeat (case_decide; try done)|]).
  by apply elem_of_nil in Hc.
Qed.

Section Pipeline.
Variable parse_date : cell → option Z.
Variable hoy : Z.

(** The stages after the Reader on a raw table that has the five columns
    of the source file, [new_cases] and [population] being floats. *)
Lemma despues_de_leer_run l w raw country date x pv y :
  heap w !! l = Some raw →
  getcol "country" raw = Some country →
  getcol "date" raw = Some date →
  getcol "new_cases" raw = Some (of_floats x) →
  getcol "people_vaccinated" raw = Some pv →
  getcol "population" raw = Some (of_floats y) →
  let d := tras_chequeo parse_date raw in
  let c := limpio d in
  let date' := to_datetime_coerce parse_date <$> date in
  let proc := tras_metricas c (kept d x) (kept d y) in
  let inc := tabla_incidencia c (kept d x) (kept d y) in
  let fac := tabla_factor c (kept d x) in
  despues_de_leer parse_date hoy l w =
    (Ok output_file,
     mkWorld (<[l := d]> (heap w) ++ [proc; inc; fac])
       (stdout w ++
          [future_msg (count_true (take (nrows raw) (date_gt hoy <$> date')));
           null_msg (count_isna country + count_isna date' + count_isna (of_floats y));
           dup_msg (count_true (duplicated (rows
                      (mkDF (nrows raw) [("country", country); ("date", date')]))));
           MsgProcessed (nrows c);
           range_msg (serie_7d c (kept d x) (kept d y));
           MsgExcel output_file])
       (assoc_set output_file
          [("datos_procesados", proc); ("incidencia_7d", inc);
           ("factor_crec_7d", fac)] (disk w))).
Proof.
  intros Hl Hcountry Hdate Hnc Hpv Hpop d c date' proc inc fac.
  pose proof (lookup_lt_Some _ _ _ Hl) as Hlt.
  unfold despues_de_leer.
  etrans; [eapply bind_ok; by eapply chequear_run|]. cbv beta.
  assert (d = setcol "date" date' raw) as Hd.
  { unfold d, tras_chequeo, date'. by rewrite (getcol_col _ _ _ Hdate). }
  fold date'. rewrite <-Hd.
  etrans.
  { eapply bind_ok. eapply (datos_run _ _ d).
    - cbn [heap]. by apply list_lookup_insert_eq.
    - rewrite Hd, getcol_setcol_ne by done. exact Hcountry.
    - rewrite Hd. apply getcol_setcol_eq.
    - rewrite Hd, getcol_setcol_ne by done. exact Hnc.
    - rewrite Hd, getcol_setcol_ne by done. exact Hpv.
    - rewrite Hd, getcol_setcol_ne by done. exact Hpop. }
  cbv beta. cbn [heap stdout disk]. fold c.
  set (h := <[l:=d]> (heap w)).
  assert (col "country" d = country) as Ec
    by (apply getcol_col; rewrite Hd, getcol_setcol_ne by done; exact Hcountry).
  assert (col "date" d = date') as Ed
    by (apply getcol_col; rewrite Hd; apply getcol_setcol_eq).
  assert (col "new_cases" d = of_floats x) as En
    by (apply getcol_col; rewrite Hd, getcol_setcol_ne by done; exact Hnc).
  assert (col "population" d = of_floats y) as Ep
    by (apply getcol_col; rewrite Hd, getcol_setcol_ne by done; exact Hpop).
  assert (getcol "country" c = Some (kept d country)) as Hc1.
  { unfold c. rewrite getcol_limpio, Ec; [done|]. unfold columnas.
    repeat first [apply list_elem_of_here | apply list_elem_of_further]. }
  assert (getcol "date" c = Some (kept d date')) as Hc2.
  { unfold c. rewrite getcol_limpio, Ed; [done|]. unfold columnas.
    repeat first [apply list_elem_of_here | apply list_elem_of_further]. }
  assert (getcol "new_cases" c = Some (of_floats (kept d x))) as Hc3.
  { unfold c. rewrite getcol_limpio, En; [unfold of_floats; by rewrite kept_fmap|]. unfold columnas.
    repeat first [apply list_elem_of_here | apply list_elem_of_further]. }
  assert (getcol "population" c = Some (of_floats (kept d y))) as Hc4.
  { unfold c. rewrite getcol_limpio, Ep; [unfold of_floats; by rewrite kept_fmap|]. unfold columnas.
    repeat first [apply list_elem_of_here | apply list_elem_of_further]. }
  assert (to_datetime parse_date (kept d date') = Ok (kept d date')) as Hdt.
  { apply to_datetime_datetime, kept_Forall, to_datetime_coerce_datetime. }
  etrans.
  { eapply bind_ok. eapply (incidencia_run _ _ _ c); try eassumption.
    cbn [heap]. apply lookup_snoc. }
  cbv beta. cbn [heap stdout disk]. rewrite insert_snoc.
  etrans.
  { eapply bind_ok. eapply factor_run.
    - cbn [heap]. rewrite <-app_assoc. apply list_lookup_middle. done.
    - rewrite !getcol_setcol_ne by done. apply getcol_setcol_eq.
    - exact Hdt.
    - rewrite !getcol_setcol_ne by done. exact Hc1.
    - rewrite !getcol_setcol_ne by done. exact Hc3. }
  cbv beta. cbn [heap stdout disk].
  rewrite <-!app_assoc. cbn [app]. rewrite insert_middle.
  rewrite <-!app_assoc. cbn [app].
  rewrite !length_app. cbn [length].
  etrans.
  { eapply bind_ok. eapply chequeo_run.
    - cbn [heap]. rewrite lookup_after. reflexivity.
    - getcol_explicit. }
  cbv beta. cbn [heap stdout disk].
  etrans.
  { eapply reporte_run; cbn [heap].
    - rewrite <-(Nat.add_0_r (length h)), lookup_after. reflexivity.
    - rewrite lookup_after. reflexivity.
    - rewrite lookup_after. reflexivity. }
  cbn [heap stdout disk].
  rewrite <-!app_assoc. cbn [app].
  unfold proc, inc, fac, tras_metricas, tabla_incidencia, tabla_factor,
    serie_factor, serie_prev, serie_semana, serie_7d.
  rewrite (getcol_col _ _ _ Hc1), (getcol_col _ _ _ Hc2).
  reflexivity.
Qed.
End Pipeline.

(** ** Dates that do not parse *)

Lemma length_filter_delete {A} (P : A → Prop) `{∀ a, Decision (P a)}
    (l : list A) i a :
  l !! i = Some a →
  length (filter P l)
  = (length (filter P (delete i l)) + if decide (P a) then 1 else 0)%nat.
Proof.
  revert i. induction l as [|b l IH]; intros [|i] Hi; try done.
  - injection Hi as ->. cbn [delete list_delete]. rewrite filter_cons.
    destruct (decide (P a)); cbn [length]; lia.
  - cbn in Hi. change (delete (S i) (b :: l)) with (b :: delete i l).
    rewrite !filter_cons.
    pose proof (IH i Hi) as IH'.
    destruct (decide (P a)), (decide (P b)); cbn [length] in *; lia.
Qed.

Lemma kept_index {A} (dflt : A) d (v : list A) :
  kept d v = (λ j, default dflt (v !! j)) <$> kept d (seq 0 (length v)).
Proof. by rewrite <-kept_fmap, fmap_lookup_seq. Qed.

Lemma col_limpio c d : c ∈ columnas → col c (limpio d) = kept d (col c d).
Proof. intros H. unfold col at 1. by rewrite getcol_limpio. Qed.

Lemma col_date_tras_chequeo parse raw :
  col "date" (tras_chequeo parse raw)
  = to_datetime_coerce parse <$> col "date" raw.
Proof. unfold tras_chequeo, col at 1. by rewrite getcol_setcol_eq. Qed.

Ltac in_list := repeat first [apply list_elem_of_here | apply list_elem_of_further].

Section Unparsable.
Variable parse_date : cell → option Z.
Variable hoy : Z.

Lemma coerce_of_failure c :
  to_datetime_strict parse_date c = Raise ValueError →
  to_datetime_coerce parse_date c = NaT.
Proof.
  destruct c as [s|[]| |]; cbn; try done; by destruct (parse_date _).
Qed.

(** C10. A date of the raw table that does not parse is replaced by the
    missing timestamp [NaT] in the table the Gate was given: the row is
    not among the future dates (the count is what it is without the row),
    it adds one to the null total over [country], [date] and [population],
    which is therefore alerted; and downstream the missing date stays with
    its row: wherever the row stands in the cleaned table, the date written
    to the three sheets ([date], [fecha], [semana_fin]) is [NaT]. *)
Theorem unparsable_date_goes_missing l w raw country date x pv y i c :
  heap w !! l = Some raw →
  getcol "country" raw = Some country →
  getcol "date" raw = Some date →
  getcol "new_cases" raw = Some (of_floats x) →
  getcol "people_vaccinated" raw = Some pv →
  getcol "population" raw = Some (of_floats y) →
  length date = nrows raw →
  date !! i = Some c →
  to_datetime_strict parse_date c = Raise ValueError →
  let date' := to_datetime_coerce parse_date <$> date in
  let futuras := date_gt hoy <$> date' in
  let nulos := (count_isna country + count_isna date' + count_isna (of_floats y))%nat in
  let d := tras_chequeo parse_date raw in
  (∃ w1 m3,
      chequear_datos parse_date hoy l w = (Ok l, w1)
      ∧ (heap w1 !! l) ≫= cell_at "date" i = Some NaT
      ∧ stdout w1 = stdout w ++ [future_msg (count_true futuras);
                                 MsgNullKeys nulos columnas_clave; m3]
      ∧ futuras !! i = Some false
      ∧ count_true futuras = count_true (delete i futuras)
      ∧ count_isna date' = S (count_isna (delete i date'))
      ∧ (1 ≤ nulos)%nat)
  ∧ (∃ w2 s1 s2 s3,
      despues_de_leer parse_date hoy l w = (Ok output_file, w2)
      ∧ assoc output_file (disk w2)
        = Some [("datos_procesados", s1); ("incidencia_7d", s2);
                ("factor_crec_7d", s3)]
      ∧ getcol "date" s1 = Some (kept d date')
      ∧ getcol "fecha" s2 = Some (kept d date')
      ∧ getcol "semana_fin" s3 = Some (kept d date')
      ∧ ∀ p, kept d (seq 0 (nrows raw)) !! p = Some i →
             kept d date' !! p = Some NaT).
Proof.
  intros Hl Hcountry Hdate Hnc Hpv Hpop Hlen Hi Hfail date' futuras nulos d.
  assert (date' !! i = Some NaT) as Hi'.
  { unfold date'. by rewrite list_lookup_fmap, Hi, <-(coerce_of_failure c). }
  assert (futuras !! i = Some false) as Hf.
  { unfold futuras. by rewrite list_lookup_fmap, Hi'. }
  assert (count_isna date' = S (count_isna (delete i date'))) as Hna.
  { unfold count_isna.
    rewrite (length_filter_delete _ _ _ _ Hi'), decide_True by done. lia. }
  split.
  - eexists _, _. split; [by eapply chequear_run|].
    cbn [heap stdout disk]. fold date' futuras.
    split.
    { rewrite list_lookup_insert_eq by by eapply lookup_lt_Some.
      cbn [mbind option_bind]. unfold cell_at. rewrite getcol_setcol_eq.
      exact Hi'. }
    split.
    { rewrite take_ge by (unfold futuras, date'; rewrite !length_fmap; lia).
      fold nulos. unfold null_msg. rewrite decide_True; [done|].
      unfold nulos. lia. }
    split; [done|]. split.
    { unfold count_true.
      rewrite (length_filter_delete _ _ _ _ Hf), decide_False by done. lia. }
    split; [done|]. unfold nulos. lia.
  - eexists _, _, _, _. split; [by eapply despues_de_leer_run|].
    cbn [disk]. split; [apply assoc_set_eq|].
    assert (col "date" (limpio d) = kept d date') as Hcd.
    { rewrite col_limpio by (unfold columnas; in_list).
      unfold d. rewrite col_date_tras_chequeo.
      by rewrite (getcol_col _ _ _ Hdate). }
    fold d. split.
    { unfold tras_metricas. rewrite !getcol_setcol_ne by done.
      by rewrite getcol_setcol_eq, Hcd. }
    split; [unfold tabla_incidencia; getcol_explicit; by rewrite Hcd|].
    split; [unfold tabla_factor; getcol_explicit; by rewrite Hcd|].
    intros p Hp.
    rewrite (kept_index NaT d date').
    assert (length date' = nrows raw) as -> by (unfold date'; by rewrite length_fmap).
    rewrite list_lookup_fmap, Hp. cbn [fmap option_fmap option_map].
    by rewrite Hi'.
Qed.
End Unparsable.

Lemma unparsable_date_goes_missing_witness :
  (∃ w1,
     chequear_datos iso_date hoy_demo 0%nat (mkWorld [raw_demo] [] []) = (Ok 0%nat, w1)
     ∧ (heap w1 !! 0%nat) ≫= cell_at "date" 1 = Some NaT)
  ∧ kept (tras_chequeo iso_date raw_demo)
         (to_datetime_coerce iso_date <$> col "date" raw_demo) !! 1%nat = Some NaT.
Proof.
  destruct (unparsable_date_goes_missing iso_date hoy_demo 0%nat
              (mkWorld [raw_demo] [] []) raw_demo
              [Str "Ecuador"; Str "Ecuador"; Str "Peru"; Str "Ecuador"]
              [Str "2024-01-01"; Str "ayer"; Str "2031-05-05"; Str "2024-01-01"]
              [Fin (qz 100); Fin (qz 200); Fin (qz 7); Fin (qz 300)]
              [fnum 5; fnum 6; fnum 7; Num NaN]
              [Fin (qz 1000000); Fin (qz 1000000); NaN; Fin (qz 1000000)]
              1%nat (Str "ayer"))
    as [(w1 & m3 & Hrun & Hcell & _) (w2 & s1 & s2 & s3 & _ & _ & _ & _ & _ & Hrow)].
  - reflexivity.
  - reflexivity.
  - reflexivity.
  - reflexivity.
  - reflexivity.
  - reflexivity.
  - reflexivity.
  - reflexivity.
  - reflexivity.
  - split.
    + exists w1. split; [exact Hrun|exact Hcell].
    + apply (Hrow 1%nat). vm_compute. reflexivity.
Defined.

(** ** Tables without rows *)

Section EmptyTable.
Variable parse_date : cell → option Z.
Variable read_csv : string → outcome DataFrame.
Variable hoy : Z.

(** C1 fails on the table the Reader substitutes for a failed download,
    [pd.DataFrame()], which has no rows and no columns: every stage but
    the Sink raises a [KeyError] on it, and the run from the Reader's
    fallback ends in that error with no file written. *)
Theorem empty_table_raises :
  alone (chequear_datos parse_date hoy) empty_frame
    = (Raise (KeyError "date"), mkWorld [empty_frame] [] [])
  ∧ alone datos_procesados empty_frame
    = (Raise (KeyError "new_cases"), mkWorld [empty_frame] [] [])
  ∧ alone (metrica_incidencia_7d parse_date) empty_frame
    = (Raise (KeyError "date"), mkWorld [empty_frame] [] [])
  ∧ alone (metrica_factor_crec_7d parse_date) empty_frame
    = (Raise (KeyError "date"), mkWorld [empty_frame] [] [])
  ∧ alone chequeo_incidencia empty_frame
    = (Raise (KeyError "incidencia_7d"), mkWorld [empty_frame] [] [])
  ∧ run_on parse_date hoy empty_frame
    = (Raise (KeyError "date"), mkWorld [empty_frame] [] [])
  ∧ pipeline_covid parse_date read_csv hoy (HttpResponse 404 "") world0
    = (Raise (KeyError "date"),
       mkWorld [empty_frame] [MsgDownloadFailed 404] []).
Proof. repeat split. Qed.

(** A table without rows that does carry the columns of the source file
    goes through every stage, and three header-only sheets are written. *)
Lemma header_only_runs :
  ∃ w s1 s2 s3,
    run_on parse_date hoy header_only = (Ok output_file, w)
    ∧ sheet output_file "datos_procesados" w = Some s1
    ∧ sheet output_file "incidencia_7d" w = Some s2
    ∧ sheet output_file "factor_crec_7d" w = Some s3
    ∧ header_only_sheet s1 ∧ header_only_sheet s2 ∧ header_only_sheet s3
    ∧ stdout w = [MsgDatesValid; MsgKeysComplete; MsgNoDuplicates;
                  MsgProcessed 0; MsgOutOfRange NaN NaN; MsgExcel output_file].
Proof.
  eexists _, _, _, _. split; [vm_compute; reflexivity|].
  split; [vm_compute; reflexivity|].
  split; [vm_compute; reflexivity|].
  split; [vm_compute; reflexivity|].
  unfold header_only_sheet. cbn.
  repeat split; repeat constructor.
Qed.

Lemma col_tras_chequeo_ne c raw :
  c ≠ "date" → col c (tras_chequeo parse_date raw) = col c raw.
Proof.
  intros Hne. unfold tras_chequeo. unfold col at 1 3.
  by rewrite getcol_setcol_ne.
Qed.

Lemma kept_nil {A} d : kept d (@nil A) = [].
Proof. unfold kept. by rewrite !filter_mask_nil_r. Qed.

Lemma nrows_limpio_zero d : nrows d = 0%nat → nrows (limpio d) = 0%nat.
Proof. intros H. unfold limpio. cbn. by rewrite H. Qed.

(** The same for every table without rows that has the five columns. *)
Lemma zero_rows_run raw :
  nrows raw = 0%nat →
  (∀ c, c ∈ columnas → getcol c raw = Some []) →
  ∃ w s1 s2 s3,
    run_on parse_date hoy raw = (Ok output_file, w)
    ∧ sheet output_file "datos_procesados" w = Some s1
    ∧ sheet output_file "incidencia_7d" w = Some s2
    ∧ sheet output_file "factor_crec_7d" w = Some s3
    ∧ header_only_sheet s1 ∧ header_only_sheet s2 ∧ header_only_sheet s3.
Proof.
  intros Hn Hcols.
  assert (∀ c, c ∈ columnas → col c (limpio (tras_chequeo parse_date raw)) = [])
    as Hcol.
  { intros c Hc. rewrite col_limpio by done.
    destruct (decide (c = "date")) as [->|Hne].
    - rewrite col_date_tras_chequeo, (getcol_col _ _ _ (Hcols _ Hc)).
      apply kept_nil.
    - rewrite col_tras_chequeo_ne, (getcol_col _ _ _ (Hcols _ Hc)) by done.
      apply kept_nil. }
  assert (nrows (limpio (tras_chequeo parse_date raw)) = 0%nat) as Hn'
    by by apply nrows_limpio_zero.
  eexists _, _, _, _. split.
  { unfold run_on. etrans; [eapply bind_ok; reflexivity|]. cbv beta.
    eapply (despues_de_leer_run _ _ _ _ raw [] [] [] [] []);
      first [reflexivity | apply Hcols; unfold columnas; in_list]. }
  unfold sheet. cbn [disk assoc_set assoc mbind option_bind world0].
  rewrite !decide_True by done. cbn [mbind option_bind assoc].
  rewrite !decide_True by done. rewrite !decide_False by done.
  rewrite !decide_True by done.
  split; [reflexivity|]. split; [reflexivity|]. split; [reflexivity|].
  rewrite !kept_nil.
  unfold header_only_sheet, tras_metricas, tabla_incidencia, tabla_factor,
    serie_factor, serie_prev, serie_semana, serie_7d.
  rewrite !Hcol by (unfold columnas; in_list).
  cbn [nrows setcol cols]. rewrite Hn'.
  unfold limpio at 1. cbn [cols fmap list_fmap columnas].
  rewrite <-!col_limpio by (unfold columnas; in_list).
  rewrite !Hcol by (unfold columnas; in_list).
  vm_compute. repeat split; repeat constructor.
Qed.
End EmptyTable.

(** ** The cleaned table after the derivations *)

Section Aliasing.
Variable parse_date : cell → option Z.
Variable hoy : Z.


End Aliasing.

(** On the two rows of the scenario: the Cleaner returns five columns, the
    sheet [datos_procesados] is written with ten. *)
Example scenario_sheet_columns :
  (sheet output_file "datos_procesados" (run_on iso_date hoy_demo ecuador2).2
     ≫= λ s, Some (columns s))
  = Some ["country"; "date"; "new_cases"; "people_vaccinated"; "population";
          "incidencia_diaria"; "incidencia_7d"; "casos_semana_actual";
          "casos_semana_prev"; "factor_crec_7d"].
Proof. vm_compute. reflexivity. Qed.


(** ** Rearranging rows *)

Lemma select_reorder {A} (dv : A) (dk k : cell) (keys : list cell) (v : list A)
    (idx : list nat) :
  select k (reorder dk idx keys) (reorder dv idx v)
  = reorder dv (filter (λ j, default dk (keys !! j) = k) idx) v.
Proof.
  unfold reorder. induction idx as [|j idx IH]; [done|].
  rewrite !fmap_cons, select_cons, filter_cons, IH.
  by destruct (decide (default dk (keys !! j) = k)).
Qed.

Lemma reorder_seq {A} (d : A) (v : list A) : reorder d (seq 0 (length v)) v = v.
Proof. apply fmap_lookup_seq. Qed.

Lemma select_as_reorder {A} (dv : A) (dk k : cell) (keys : list cell) (v : list A) :
  length v = length keys →
  select k keys v
  = reorder dv (filter (λ j, default dk (keys !! j) = k) (seq 0 (length keys))) v.
Proof.
  intros Hlen. rewrite <-select_reorder, reorder_seq.
  by rewrite <-Hlen, reorder_seq.
Qed.

Lemma filter_entity (A B : cell) (keys : list cell) (l : list nat) :
  A ≠ B → A ≠ Num NaN →
  filter (λ j, default (Num NaN) (keys !! j) = A) (filter (λ j, keys !! j ≠ Some B) l)
  = filter (λ j, default (Num NaN) (keys !! j) = A) l.
Proof.
  intros HAB HA. rewrite list_filter_filter. apply list_filter_iff.
  intros j. split; [by intros [? _]|]. intros H. split; [done|].
  intros HB. rewrite HB in H. cbn in H. by subst.
Qed.

(** The rows of [A] are where they were when only rows of [B] moved. *)
Lemma select_spared {X} (dv : X) (A B : cell) (keys : list cell) (v : list X) idx :
  A ≠ B → isna A = false → spares B keys idx → length v = length keys →
  select A (reorder (Num NaN) idx keys) (reorder dv idx v) = select A keys v.
Proof.
  intros HAB HA Hsp Hlen.
  assert (A ≠ Num NaN) as HA' by (intros ->; done).
  rewrite select_reorder, (select_as_reorder dv (Num NaN)) by done.
  by rewrite <-(filter_entity A B keys idx), Hsp, filter_entity.
Qed.

(** ** Entity by entity *)

Lemma getcol_take_rows c idx df :
  getcol c (take_rows idx df) = reorder (Num NaN) idx <$> getcol c df.
Proof.
  unfold getcol, take_rows. cbn [cols].
  induction (cols df) as [|[c' v'] cs IH]; [done|].
  cbn. by destruct (decide (c' = c)).
Qed.

Lemma reorder_of_floats idx (x : list xnum) :
  reorder (Num NaN) idx (of_floats x) = of_floats (reorder NaN idx x).
Proof.
  unfold reorder, of_floats. rewrite <-list_fmap_compose.
  apply list_fmap_ext. intros _ j _. cbn.
  rewrite list_lookup_fmap. by destruct (x !! j).
Qed.

Lemma length_reorder {A} (d : A) idx v : length (reorder d idx v) = length idx.
Proof. apply length_fmap. Qed.

Lemma reorder_Forall {A} (P : A → Prop) (d : A) idx v :
  Forall P v → Forall (λ j, j < length v)%nat idx → Forall P (reorder d idx v).
Proof.
  intros Hv Hidx. unfold reorder. apply Forall_fmap.
  eapply Forall_impl; [exact Hidx|]. intros j Hj. cbn.
  destruct (lookup_lt_is_Some_2 v j Hj) as [a Ha]. rewrite Ha. cbn.
  rewrite Forall_forall in Hv. apply Hv. by eapply list_elem_of_lookup_2.
Qed.

Lemma cleaned_take_rows df country date nc pop idx :
  CleanedTable df country date nc pop →
  Forall (λ j, j < nrows df)%nat idx →
  CleanedTable (take_rows idx df)
    (reorder (Num NaN) idx country) (reorder (Num NaN) idx date)
    (reorder NaN idx nc) (reorder NaN idx pop).
Proof.
  intros [Hc Hd Hn Hp Hdt L1 L2 L3 L4] Hidx. constructor.
  - by rewrite getcol_take_rows, Hc.
  - by rewrite getcol_take_rows, Hd.
  - by rewrite getcol_take_rows, Hn, <-reorder_of_floats.
  - by rewrite getcol_take_rows, Hp, <-reorder_of_floats.
  - apply reorder_Forall; [done|]. by rewrite L2.
  - apply length_reorder.
  - apply length_reorder.
  - apply length_reorder.
  - apply length_reorder.
Qed.

Lemma select_incidencia_diaria k (keys : list cell) nc pop :
  length nc = length keys → length pop = length keys →
  select k keys (incidencia_diaria nc pop)
  = incidencia_diaria (select k keys nc) (select k keys pop).
Proof.
  intros Hn Hp. unfold incidencia_diaria.
  by rewrite select_fmap, select_zip_with.
Qed.

Section PerEntity.
Variable parse_date : cell → option Z.

(** On the rows of one entity the incidence derivation returns the rolling
    mean of the daily incidence of those rows, taken in table order. *)
Lemma incidencia_por_entidad l w df country date nc pop A :
  heap w !! l = Some df →
  CleanedTable df country date nc pop →
  isna A = false →
  let out := metrica_incidencia_7d parse_date l w in
  por_entidad A "incidencia_7d" out
  = Some (of_floats (rolling_mean 7 1
            (incidencia_diaria (select A country nc) (select A country pop))))
  ∧ por_entidad A "fecha" out = Some (select A country date).
Proof.
  intros Hl [] HA out. subst out.
  erewrite incidencia_run by eauto using to_datetime_datetime.
  unfold por_entidad. rewrite !column_of_new by apply length_insert.
  split.
  - getcol_explicit. cbn [mbind option_bind]. f_equal.
    unfold of_floats. rewrite select_fmap. f_equal.
    rewrite select_group_apply; [|done|apply length_rolling|].
    + by rewrite select_incidencia_diaria by lia.
    + rewrite length_incidencia_diaria. lia.
  - by getcol_explicit.
Qed.

(** On the rows of one entity the growth derivation returns the rolling
    sum of [new_cases] of those rows, taken in table order, and its
    quotient by itself seven rows earlier. *)
Lemma factor_por_entidad l w df country date nc pop A :
  heap w !! l = Some df →
  CleanedTable df country date nc pop →
  isna A = false →
  let out := metrica_factor_crec_7d parse_date l w in
  let cs := rolling_sum 7 7 (select A country nc) in
  por_entidad A "casos_semana" out = Some (of_floats cs)
  ∧ por_entidad A "factor_crec_7d" out
    = Some (of_floats (zip_with xdiv cs (shift 7 cs)))
  ∧ por_entidad A "semana_fin" out = Some (select A country date).
Proof.
  intros Hl [] HA out cs. subst out.
  erewrite factor_run by eauto using to_datetime_datetime.
  unfold por_entidad. rewrite !column_of_new by apply length_insert.
  assert (select A country (group_apply (rolling_sum 7 7) country nc) = cs) as Hcs.
  { apply select_group_apply; [done|apply length_rolling|lia]. }
  split; [|split].
  - getcol_explicit. cbn [mbind option_bind]. f_equal.
    unfold of_floats. by rewrite select_fmap, Hcs.
  - getcol_explicit. cbn [mbind option_bind]. f_equal.
    unfold of_floats. rewrite select_fmap. f_equal.
    rewrite select_zip_with, Hcs by (by rewrite !length_group_apply).
    f_equal. rewrite <-Hcs.
    apply select_group_apply; [done|apply length_shift|].
    by rewrite length_group_apply.
  - by getcol_explicit.
Qed.

End PerEntity.


(** ** Sorting by date *)

Lemma date_leb_total a b : date_leb a b = true ∨ date_leb b a = true.
Proof.
  destruct a as [?|?|s|], b as [?|?|t|]; cbn; auto.
  rewrite !bool_decide_eq_true. lia.
Qed.

Lemma date_leb_trans a b c :
  date_leb a b = true → date_leb b c = true → date_leb a c = true.
Proof.
  destruct a as [?|?|s|], b as [?|?|t|], c as [?|?|u|]; cbn; try done.
  rewrite !bool_decide_eq_true. lia.
Qed.

Section Sorting.
Variable le : nat → nat → bool.
Hypothesis le_total : ∀ j k, le j k = true ∨ le k j = true.
Hypothesis le_trans : ∀ i j k, le i j = true → le j k = true → le i k = true.

Lemma elem_of_insert_by z j l : z ∈ insert_by le j l ↔ z = j ∨ z ∈ l.
Proof.
  induction l as [|k l IH]; cbn.
  - rewrite list_elem_of_singleton, elem_of_nil. tauto.
  - destruct (le j k); rewrite !elem_of_cons, ?IH; tauto.
Qed.

Lemma elem_of_sort_by z l : z ∈ sort_by le l ↔ z ∈ l.
Proof.
  induction l as [|k l IH]; [done|].
  cbn. rewrite elem_of_insert_by, elem_of_cons, IH. tauto.
Qed.

Lemma insert_by_head j l :
  (∀ z, z ∈ l → le j z = true) → insert_by le j l = j :: l.
Proof.
  destruct l as [|k l]; [done|]. intros H. cbn.
  by rewrite H by apply list_elem_of_here.
Qed.

Lemma insert_by_sorted j l :
  StronglySorted (λ a b, le a b = true) l →
  StronglySorted (λ a b, le a b = true) (insert_by le j l).
Proof.
  induction 1 as [|k l Hs IH Hk]; cbn.
  - repeat constructor.
  - destruct (le j k) eqn:E.
    + constructor; [by constructor|].
      constructor; [done|]. eapply Forall_impl; [exact Hk|].
      intros z Hz. by eapply le_trans.
    + constructor; [done|]. apply Forall_forall. intros z Hz.
      apply elem_of_insert_by in Hz as [->|Hz].
      * destruct (le_total j k); [congruence|done].
      * rewrite Forall_forall in Hk. by apply Hk.
Qed.

Lemma sort_by_sorted l : StronglySorted (λ a b, le a b = true) (sort_by le l).
Proof.
  induction l as [|k l IH]; [constructor|]. cbn. by apply insert_by_sorted.
Qed.

Lemma filter_insert_by (P : nat → Prop) `{∀ j, Decision (P j)} j l :
  StronglySorted (λ a b, le a b = true) l →
  filter P (insert_by le j l)
  = if decide (P j) then insert_by le j (filter P l) else filter P l.
Proof.
  induction 1 as [|k l Hs IH Hk]; cbn [insert_by].
  - rewrite filter_cons, !filter_nil. by destruct (decide (P j)).
  - destruct (le j k) eqn:E.
    + rewrite (filter_cons _ j). destruct (decide (P j)); [|done].
      rewrite insert_by_head; [done|].
      intros z Hz. apply list_elem_of_filter in Hz as [_ Hz].
      apply elem_of_cons in Hz as [->|Hz]; [done|].
      rewrite Forall_forall in Hk. eapply le_trans; [exact E|by apply Hk].
    + rewrite !(filter_cons _ k), IH.
      destruct (decide (P j)), (decide (P k)); try done.
      cbn [insert_by]. by rewrite E.
Qed.

(** A stable sort keeps the rows of a group in the order the sort of the
    group alone would give them. *)
Lemma filter_sort_by (P : nat → Prop) `{∀ j, Decision (P j)} l :
  filter P (sort_by le l) = sort_by le (filter P l).
Proof.
  induction l as [|k l IH]; [done|].
  cbn [sort_by foldr]. rewrite filter_insert_by by apply sort_by_sorted.
  fold (sort_by le l). rewrite IH, filter_cons.
  by destruct (decide (P k)).
Qed.

Lemma sort_by_id l :
  Sorted (λ a b, le a b = true) l → sort_by le l = l.
Proof.
  induction 1 as [|k l Hs IH Hk]; [done|].
  cbn [sort_by foldr]. fold (sort_by le l). rewrite IH.
  destruct Hk as [|k' l' Hk]; [done|]. cbn. by rewrite Hk.
Qed.
End Sorting.

Lemma ascending_Sorted (date : Series) (l : list nat) :
  ascending (reorder NaT l date) = true →
  Sorted (λ a b, fecha_leb date a b = true) l.
Proof.
  induction l as [|j [|k l] IH]; intros H.
  - constructor.
  - repeat constructor.
  - cbn in H. apply andb_true_iff in H as [H1 H2].
    constructor; [by apply IH|]. by constructor.
Qed.

(** Where the dates of an entity already ascend, the date sort leaves its
    rows in the order they had. *)
Lemma select_sorted {X} (dv : X) A (country date : Series) (v : list X) :
  isna A = false →
  length country = length date → length v = length date →
  ascending (select A country date) = true →
  select A (reorder (Num NaN) (orden_por_fecha date) country)
           (reorder dv (orden_por_fecha date) v)
  = select A country v.
Proof.
  intros HA Hc Hv Hasc.
  rewrite select_reorder, (select_as_reorder dv (Num NaN)) by lia.
  f_equal. unfold orden_por_fecha.
  rewrite filter_sort_by.
  - rewrite <-Hc. apply sort_by_id.
    apply ascending_Sorted.
    by rewrite (select_as_reorder NaT (Num NaN)) in Hasc by lia.
  - intros j k. apply date_leb_total.
  - intros i j k. apply date_leb_trans.
Qed.

Lemma orden_por_fecha_valid (date : Series) :
  Forall (λ j, j < length date)%nat (orden_por_fecha date).
Proof.
  apply Forall_forall. intros j Hj. unfold orden_por_fecha in Hj.
  apply elem_of_sort_by, elem_of_seq in Hj. lia.
Qed.

(** ** Rearranged and sorted tables *)

Lemma attached_por_entidad r f c A d :
  attached r f c A d
  = (ds ← por_entidad A f r; v ← por_entidad A c r; Some (select d ds v)).
Proof.
  unfold attached, por_entidad.
  destruct (column_of "país" r); [|done]. cbn.
  destruct (column_of f r); [|done]. cbn.
  by destruct (column_of c r).
Qed.

Section Rearranged.
Variable parse_date : cell → option Z.

(** When a rearrangement of the rows leaves the rows of [A] where they
    were, relative to each other, it leaves the derived values of [A] what
    they were. *)
Lemma por_entidad_rearranged l w df l2 w2 country date nc pop A idx :
  heap w !! l = Some df →
  CleanedTable df country date nc pop →
  isna A = false →
  Forall (λ j, j < nrows df)%nat idx →
  (∀ X (dv : X) (v : list X), length v = nrows df →
     select A (reorder (Num NaN) idx country) (reorder dv idx v)
     = select A country v) →
  heap w2 !! l2 = Some (take_rows idx df) →
  (∀ c, c ∈ ["fecha"; "incidencia_7d"] →
     is_Some (por_entidad A c (metrica_incidencia_7d parse_date l w))
     ∧ por_entidad A c (metrica_incidencia_7d parse_date l2 w2)
       = por_entidad A c (metrica_incidencia_7d parse_date l w))
  ∧ (∀ c, c ∈ ["semana_fin"; "casos_semana"; "factor_crec_7d"] →
     is_Some (por_entidad A c (metrica_factor_crec_7d parse_date l w))
     ∧ por_entidad A c (metrica_factor_crec_7d parse_date l2 w2)
       = por_entidad A c (metrica_factor_crec_7d parse_date l w)).
Proof.
  intros Hl Hcl HA Hidx Hsel Hl2.
  pose proof (cleaned_take_rows _ _ _ _ _ idx Hcl Hidx) as Hcl2.
  destruct (incidencia_por_entidad parse_date _ _ _ _ _ _ _ A Hl Hcl HA) as [Hi1 Hi2].
  destruct (incidencia_por_entidad parse_date _ _ _ _ _ _ _ A Hl2 Hcl2 HA) as [Hj1 Hj2].
  destruct (factor_por_entidad parse_date _ _ _ _ _ _ _ A Hl Hcl HA) as (Hf1 & Hf2 & Hf3).
  destruct (factor_por_entidad parse_date _ _ _ _ _ _ _ A Hl2 Hcl2 HA) as (Hg1 & Hg2 & Hg3).
  destruct Hcl.
  repeat rewrite Hsel in Hj1 by done.
  repeat rewrite Hsel in Hj2 by done.
  repeat rewrite Hsel in Hg1 by done.
  repeat rewrite Hsel in Hg2 by done.
  repeat rewrite Hsel in Hg3 by done.
  split; intros c Hc.
  - apply elem_of_cons in Hc as [->|Hc]; [|apply list_elem_of_singleton in Hc as ->].
    + rewrite Hi2, Hj2. eauto.
    + rewrite Hi1, Hj1. eauto.
  - apply elem_of_cons in Hc as [->|Hc];
      [|apply elem_of_cons in Hc as [->|Hc];
        [|apply list_elem_of_singleton in Hc as ->]].
    + rewrite Hf3, Hg3. eauto.
    + rewrite Hf1, Hg1. eauto.
    + rewrite Hf2, Hg2. eauto.
Qed.

(** C6. Per-entity isolation: when the rows of a cleaned table are
    rearranged so that only rows of the entity [B] are permuted or deleted
    (the rows of the other entities all stay, in their order), every
    derived value on the rows of any other entity [A], incidence and
    growth alike, is what it was: the windows hold rows of [A] only, also
    where rows of other entities stand between them. *)
Theorem entity_isolation l w df l2 w2 country date nc pop A B idx :
  heap w !! l = Some df →
  CleanedTable df country date nc pop →
  A ≠ B → isna A = false →
  Forall (λ j, j < nrows df)%nat idx →
  spares B country idx →
  heap w2 !! l2 = Some (take_rows idx df) →
  (∀ c, c ∈ ["fecha"; "incidencia_7d"] →
     is_Some (por_entidad A c (metrica_incidencia_7d parse_date l w))
     ∧ por_entidad A c (metrica_incidencia_7d parse_date l2 w2)
       = por_entidad A c (metrica_incidencia_7d parse_date l w))
  ∧ (∀ c, c ∈ ["semana_fin"; "casos_semana"; "factor_crec_7d"] →
     is_Some (por_entidad A c (metrica_factor_crec_7d parse_date l w))
     ∧ por_entidad A c (metrica_factor_crec_7d parse_date l2 w2)
       = por_entidad A c (metrica_factor_crec_7d parse_date l w)).
Proof.
  intros Hl Hcl HAB HA Hidx Hsp Hl2.
  eapply por_entidad_rearranged; try eassumption.
  intros X dv v Hv. destruct Hcl.
  eapply select_spared; eauto. lia.
Qed.

(** C2, amended. For every cleaned table, each metric derivation computes
    its rolling and lag windows over the rows of each entity in the order
    in which they stand in the table; no sort by date takes place.  The
    values attached to each (entity, date) pair are therefore those of the
    date-sorted table when the dates of the entity already ascend in the
    table. *)
Theorem windows_follow_table_order l w df country date nc pop A :
  heap w !! l = Some df →
  CleanedTable df country date nc pop →
  isna A = false →
  let inc := metrica_incidencia_7d parse_date l w in
  let fac := metrica_factor_crec_7d parse_date l w in
  let cs := rolling_sum 7 7 (select A country nc) in
  (por_entidad A "incidencia_7d" inc
     = Some (of_floats (rolling_mean 7 1
               (incidencia_diaria (select A country nc) (select A country pop))))
   ∧ por_entidad A "casos_semana" fac = Some (of_floats cs)
   ∧ por_entidad A "factor_crec_7d" fac
     = Some (of_floats (zip_with xdiv cs (shift 7 cs))))
  ∧ (ascending (select A country date) = true →
     ∀ l2 w2 d, heap w2 !! l2 = Some (sort_values df) →
       attached (metrica_incidencia_7d parse_date l2 w2) "fecha" "incidencia_7d" A d
       = attached inc "fecha" "incidencia_7d" A d
       ∧ attached (metrica_factor_crec_7d parse_date l2 w2) "semana_fin" "casos_semana" A d
         = attached fac "semana_fin" "casos_semana" A d
       ∧ attached (metrica_factor_crec_7d parse_date l2 w2) "semana_fin" "factor_crec_7d" A d
         = attached fac "semana_fin" "factor_crec_7d" A d).
Proof.
  intros Hl Hcl HA inc fac cs. split.
  - destruct (incidencia_por_entidad parse_date _ _ _ _ _ _ _ A Hl Hcl HA) as [Hi1 _].
    destruct (factor_por_entidad parse_date _ _ _ _ _ _ _ A Hl Hcl HA) as (Hf1 & Hf2 & _).
    done.
  - intros Hasc l2 w2 d Hl2.
    pose proof Hcl as [Hc Hd Hn Hp Hdt L1 L2 L3 L4].
    unfold sort_values in Hl2. rewrite (getcol_col _ _ _ Hd) in Hl2.
    destruct (por_entidad_rearranged l w df l2 w2 country date nc pop A
                (orden_por_fecha date)) as [Hinc Hfac]; try done.
    + rewrite <-L2. apply orden_por_fecha_valid.
    + intros X dv v Hv. apply select_sorted; [done|lia|lia|done].
    + rewrite !attached_por_entidad.
      destruct (Hinc "fecha") as [_ ->]; [in_list|].
      destruct (Hinc "incidencia_7d") as [_ ->]; [in_list|].
      destruct (Hfac "semana_fin") as [_ ->]; [in_list|].
      destruct (Hfac "casos_semana") as [_ ->]; [in_list|].
      destruct (Hfac "factor_crec_7d") as [_ ->]; [in_list|].
      done.
Qed.
End Rearranged.

(** C2 as stated fails: with the two rows of the scenario in the other
    order, the value attached to (Ecuador, 2024-01-01) is the mean of both
    days, 15, where the date-sorted table gives 10. *)
Lemma date_order_is_not_restored :
  let revuelta := take_rows [1; 0]%nat ecuador2_limpio in
  sort_values revuelta = ecuador2_limpio
  ∧ attached (alone (metrica_incidencia_7d iso_date) revuelta)
      "fecha" "incidencia_7d" (Str "Ecuador") (Date 1704067200000000000)
    = Some [fnum 15]
  ∧ attached (alone (metrica_incidencia_7d iso_date) (sort_values revuelta))
      "fecha" "incidencia_7d" (Str "Ecuador") (Date 1704067200000000000)
    = Some [fnum 10].
Proof.
  cbv zeta. split; [by vm_compute|].
  split; apply (bool_decide_eq_true_1 _); by vm_compute.
Qed.

Lemma entity_isolation_witness :
  por_entidad (Str "Ecuador") "incidencia_7d"
    (alone (metrica_incidencia_7d iso_date) (take_rows [0; 5; 2; 4; 1]%nat tres_paises))
  = por_entidad (Str "Ecuador") "incidencia_7d"
      (alone (metrica_incidencia_7d iso_date) tres_paises)
  ∧ por_entidad (Str "Ecuador") "factor_crec_7d"
      (alone (metrica_factor_crec_7d iso_date) (take_rows [0; 5; 2; 4; 1]%nat tres_paises))
    = por_entidad (Str "Ecuador") "factor_crec_7d"
        (alone (metrica_factor_crec_7d iso_date) tres_paises).
Proof.
  destruct (entity_isolation iso_date 0%nat (mkWorld [tres_paises] [] []) tres_paises
              0%nat (mkWorld [take_rows [0; 5; 2; 4; 1]%nat tres_paises] [] [])
              (col "country" tres_paises) (col "date" tres_paises)
              [Fin (qz 1); Fin (qz 20); Fin (qz 3); Fin (qz 40); Fin (qz 5); Fin (qz 60)]
              (replicate 6 (Fin (qz 100000)))
              (Str "Ecuador") (Str "Peru") [0; 5; 2; 4; 1]%nat)
    as [Hinc Hfac].
  - reflexivity.
  - constructor; try reflexivity. vm_compute. repeat constructor.
  - discriminate.
  - reflexivity.
  - vm_compute. repeat constructor.
  - reflexivity.
  - reflexivity.
  - split.
    + apply (Hinc "incidencia_7d"). in_list.
    + apply (Hfac "factor_crec_7d"). in_list.
Defined.

Lemma windows_follow_table_order_witness :
  let inc := alone (metrica_incidencia_7d iso_date) ecuador2_limpio in
  por_entidad (Str "Ecuador") "incidencia_7d" inc = Some [fnum 10; fnum 15]
  ∧ attached (alone (metrica_incidencia_7d iso_date) (sort_values ecuador2_limpio))
      "fecha" "incidencia_7d" (Str "Ecuador") (Date 1704153600000000000)
    = attached inc "fecha" "incidencia_7d" (Str "Ecuador") (Date 1704153600000000000).
Proof.
  destruct (windows_follow_table_order iso_date 0%nat
              (mkWorld [ecuador2_limpio] [] []) ecuador2_limpio
              [Str "Ecuador"; Str "Ecuador"]
              [Date 1704067200000000000; Date 1704153600000000000]
              [Fin (qz 100); Fin (qz 200)]
              [Fin (qz 1000000); Fin (qz 1000000)]
              (Str "Ecuador"))
    as [(Hinc & _ & _) Hsorted].
  - reflexivity.
  - constructor; try reflexivity. repeat constructor.
  - reflexivity.
  - cbv zeta. split.
    + etrans; [exact Hinc|]. apply (bool_decide_eq_true_1 _). by vm_compute.
    + destruct (Hsorted eq_refl 0%nat (mkWorld [sort_values ecuador2_limpio] [] [])
                  (Date 1704153600000000000) eq_refl) as (H & _ & _).
      exact H.
Defined.


(** ** Cleaned tables *)

Lemma length_filter_mask {A} m (v : list A) :
  length (filter_mask m v) = count_true (take (length v) m).
Proof.
  revert v. induction m as [|b m IH]; intros [|a v]; try done.
  rewrite filter_mask_cons. cbn [length take]. unfold count_true.
  rewrite filter_cons. destruct b; cbn [length]; rewrite IH; done.
Qed.

Lemma filter_mask_isin vs (s : Series) :
  Forall (λ k, k ∈ vs) (filter_mask (isin vs s) s).
Proof.
  induction s as [|c s IH]; [constructor|].
  unfold isin in *. rewrite fmap_cons, filter_mask_cons.
  case_bool_decide; [by constructor|done].
Qed.

Lemma col_filter_rows c m d :
  col c (filter_rows m d) = filter_mask m (col c d).
Proof.
  unfold col. rewrite getcol_filter_rows.
  destruct (getcol c d); [done|]. cbn. by rewrite filter_mask_nil_r.
Qed.

Lemma length_kept {A} d (v : list A) :
  length v = nrows d → length (kept d v) = nrows (limpio d).
Proof.
  intros Hv. unfold kept, limpio. cbn [nrows filter_rows].
  by rewrite !length_filter_mask, Hv.
Qed.

Lemma kept_country_paises d :
  Forall (λ k, k ∈ paises) (kept d (col "country" d)).
Proof.
  unfold kept, mask_paises. rewrite !col_filter_rows.
  apply filter_mask_isin.
Qed.

Section CleanedTables.
Variable parse_date : cell → option Z.

(** The table the Cleaner makes of a raw table that went through the Gate
    is a cleaned table in the sense of [CleanedTable], and every row of it
    belongs to one of the two countries. *)
Lemma limpio_cleaned raw country date x pv y :
  getcol "country" raw = Some country →
  getcol "date" raw = Some date →
  getcol "new_cases" raw = Some (of_floats x) →
  getcol "people_vaccinated" raw = Some pv →
  getcol "population" raw = Some (of_floats y) →
  length country = nrows raw → length date = nrows raw →
  length x = nrows raw → length y = nrows raw →
  let d := tras_chequeo parse_date raw in
  CleanedTable (limpio d) (kept d country)
    (kept d (to_datetime_coerce parse_date <$> date)) (kept d x) (kept d y)
  ∧ Forall (λ k, k ∈ paises ∧ isna k = false) (kept d country).
Proof.
  intros Hc Hd Hn Hv Hp L1 L2 L3 L4 d.
  assert (col "country" d = country) as Ec.
  { unfold d. rewrite col_tras_chequeo_ne by done. by apply getcol_col. }
  assert (col "date" d = to_datetime_coerce parse_date <$> date) as Ed.
  { unfold d. by rewrite col_date_tras_chequeo, (getcol_col _ _ _ Hd). }
  assert (col "new_cases" d = of_floats x) as En.
  { unfold d. rewrite col_tras_chequeo_ne by done. by apply getcol_col. }
  assert (col "population" d = of_floats y) as Ep.
  { unfold d. rewrite col_tras_chequeo_ne by done. by apply getcol_col. }
  assert (nrows d = nrows raw) as Hnr by done.
  split.
  - constructor.
    + rewrite getcol_limpio, Ec by (unfold columnas; in_list). done.
    + rewrite getcol_limpio, Ed by (unfold columnas; in_list). done.
    + rewrite getcol_limpio, En by (unfold columnas; in_list).
      unfold of_floats. by rewrite kept_fmap.
    + rewrite getcol_limpio, Ep by (unfold columnas; in_list).
      unfold of_floats. by rewrite kept_fmap.
    + apply kept_Forall, to_datetime_coerce_datetime.
    + apply length_kept. lia.
    + apply length_kept. rewrite length_fmap. lia.
    + apply length_kept. lia.
    + apply length_kept. lia.
  - rewrite <-Ec. eapply Forall_impl; [apply kept_country_paises|].
    intros k Hk. split; [done|].
    unfold paises in Hk.
    apply elem_of_cons in Hk as [->|Hk]; [done|].
    apply list_elem_of_singleton in Hk as ->. done.
Qed.
End CleanedTables.

(** * Further properties of the stages *)

(** ** Counting *)

Lemma count_true_fmap {A} (f : A → bool) (l : list A) :
  count_true (f <$> l) = length (filter (λ a, f a = true) l).
Proof.
  unfold count_true. induction l as [|a l IH]; [done|].
  rewrite fmap_cons, !filter_cons.
  destruct (decide (f a = true)); cbn [length]; by rewrite IH.
Qed.

Lemma length_filter_zero {A} (P : A → Prop) `{∀ a, Decision (P a)} (l : list A) :
  length (filter P l) = 0%nat ↔ Forall (λ a, ¬ P a) l.
Proof.
  induction l as [|a l IH]; [by split; [constructor|]|].
  rewrite filter_cons, Forall_cons.
  destruct (decide (P a)); cbn [length]; [split; [done|tauto]|].
  rewrite IH. tauto.
Qed.

Lemma duplicated_snoc {A} `{EqDecision A} (l : list A) a :
  duplicated (l ++ [a]) = duplicated l ++ [bool_decide (a ∈ l)].
Proof.
  unfold duplicated. rewrite imap_app. cbn [imap].
  rewrite Nat.add_0_r, take_app_length. f_equal.
  apply imap_ext. intros i x Hi.
  rewrite take_app_le; [done|]. apply lookup_lt_Some in Hi. lia.
Qed.

Lemma count_true_app l1 l2 :
  count_true (l1 ++ l2) = (count_true l1 + count_true l2)%nat.
Proof. unfold count_true. by rewrite filter_app, length_app. Qed.

Lemma length_remove_dups_snoc {A} `{EqDecision A} (l : list A) a :
  length (remove_dups (l ++ [a]))
  = (length (remove_dups l) + if decide (a ∈ l) then 0 else 1)%nat.
Proof.
  induction l as [|x l IH].
  - cbn [app remove_dups].
    destruct (decide_rel elem_of a []) as [H|H]; [by inversion H|].
    destruct (decide (a ∈ [])) as [H'|H']; [by inversion H'|done].
  - cbn [app remove_dups].
    revert IH. destruct (decide (a ∈ l)) as [H4|H4]; intros IH;
      destruct (decide_rel elem_of x (l ++ [a])) as [H1|H1];
      destruct (decide_rel elem_of x l) as [H2|H2];
      destruct (decide (a ∈ x :: l)) as [H3|H3];
      cbn [length]; rewrite ?IH; try lia; exfalso;
      rewrite ?elem_of_app, ?elem_of_cons, ?list_elem_of_singleton in *;
      destruct_or?; subst; try (by intuition);
      try match goal with H : _ ∈ [] |- _ => inversion H end.
Qed.

(** The rows [duplicated()] marks are the rows beyond the first of each
    value. *)
Lemma count_duplicated {A} `{EqDecision A} (l : list A) :
  (count_true (duplicated l) + length (remove_dups l))%nat = length l.
Proof.
  induction l as [|a l IH] using rev_ind; [done|].
  rewrite duplicated_snoc, count_true_app, length_remove_dups_snoc, length_app.
  cbn [length]. unfold count_true at 2. rewrite filter_cons, filter_nil.
  destruct (decide (a ∈ l)).
  - rewrite bool_decide_eq_true_2 by done. rewrite decide_True by done.
    cbn [length]. lia.
  - rewrite bool_decide_eq_false_2 by done. rewrite decide_False by done.
    cbn [length]. lia.
Qed.

Lemma count_duplicated_zero {A} `{EqDecision A} (l : list A) :
  count_true (duplicated l) = 0%nat ↔ NoDup l.
Proof.
  induction l as [|a l IH] using rev_ind; [split; [constructor|done]|].
  rewrite duplicated_snoc, count_true_app, NoDup_app.
  unfold count_true at 2. rewrite filter_cons, filter_nil.
  split.
  - intros H. destruct (decide (a ∈ l)) as [Hin|Hin].
    + rewrite bool_decide_eq_true_2, decide_True in H by done. cbn in H. lia.
    + split; [apply IH; lia|]. split; [|apply NoDup_singleton].
      intros x Hx Hx'. apply list_elem_of_singleton in Hx' as ->. done.
  - intros (Hl & Ha & _). apply IH in Hl. rewrite Hl.
    assert (a ∉ l) as Hin by (intros Hin; apply (Ha a Hin), list_elem_of_here).
    by rewrite bool_decide_eq_false_2, decide_False.
Qed.

Lemma duplicated_fmap {A B} `{EqDecision A, EqDecision B} (f : A → B)
    `{!Inj (=) (=) f} (l : list A) :
  duplicated (f <$> l) = duplicated l.
Proof.
  induction l as [|a l IH] using rev_ind; [done|].
  rewrite fmap_app. cbn [fmap list_fmap]. rewrite !duplicated_snoc, IH.
  do 2 f_equal. apply bool_decide_ext, list_elem_of_fmap_inj. done.
Qed.

Lemma zip_as_seq {A B} (da : A) (db : B) (a : list A) (b : list B) n :
  length a = n → length b = n →
  zip a b = (λ i, (default da (a !! i), default db (b !! i))) <$> seq 0 n.
Proof.
  intros Ha Hb. apply list_eq. intros i.
  rewrite lookup_zip_with, list_lookup_fmap.
  destruct (decide (i < n)%nat) as [Hi|Hi].
  - rewrite lookup_seq_lt by done.
    destruct (lookup_lt_is_Some_2 a i) as [x Hx]; [lia|].
    destruct (lookup_lt_is_Some_2 b i) as [y Hy]; [lia|].
    rewrite Hx, Hy. cbn. by rewrite Hx, Hy.
  - rewrite lookup_seq_ge by lia.
    by rewrite (lookup_ge_None_2 a) by lia.
Qed.

Lemma rows_two_columns c1 c2 (a b : Series) n :
  length a = n → length b = n →
  rows (mkDF n [(c1, a); (c2, b)]) = (λ p, [p.1; p.2]) <$> zip a b.
Proof.
  intros Ha Hb. rewrite (zip_as_seq (Num NaN) (Num NaN) a b n Ha Hb).
  unfold rows, row. cbn [nrows cols]. by rewrite <-list_fmap_compose.
Qed.

(** ** More on tables and dates *)

Lemma assoc_set_same {A} c (v : A) l : assoc c l = Some v → assoc_set c v l = l.
Proof.
  induction l as [|[c' v'] l IH]; [done|]. cbn.
  destruct (decide (c' = c)) as [->|Hne]; [by intros [= ->]|].
  intros H. by rewrite IH.
Qed.

Lemma setcol_same c v df : getcol c df = Some v → setcol c v df = df.
Proof.
  intros H. unfold setcol. rewrite assoc_set_same by done. by destruct df.
Qed.

Lemma to_datetime_coerce_idem parse c :
  to_datetime_coerce parse (to_datetime_coerce parse c)
  = to_datetime_coerce parse c.
Proof. destruct c as [?|[]| |]; cbn; try done; by destruct (parse _). Qed.

Lemma date_gt_spec t c : date_gt t c = true ↔ ∃ d, c = Date d ∧ (t < d)%Z.
Proof.
  destruct c; cbn; try (split; [done|by intros (? & ? & ?)]).
  rewrite bool_decide_eq_true. split; [eauto|]. by intros (? & [= <-] & ?).
Qed.

Lemma isna_coerce parse c :
  isna (to_datetime_coerce parse c) = false
  ↔ ∃ t, to_datetime_coerce parse c = Date t.
Proof.
  split; [|by intros [t ->]].
  destruct c as [?|[]| |]; cbn; try done; eauto; destruct (parse _); by eauto.
Qed.

Lemma count_isna_zero (s : Series) :
  count_isna s = 0%nat ↔ Forall (λ c, isna c = false) s.
Proof.
  unfold count_isna. rewrite length_filter_zero.
  apply Forall_iff. intros c. by destruct (isna c).
Qed.

(** ** The alerts of the Quality Gate *)

Section GateAlerts.
Variable parse_date : cell → option Z.
Variable hoy : Z.

(** X1. The first check of the Quality Gate counts the rows whose date, once
    coerced, is a timestamp later than today: it prints the "all dates
    valid" message exactly when no date that parses lies in the future (a
    date that does not parse is never counted), and the alert with the
    number of such rows otherwise. *)
Theorem gate_future_alert l w df date country pop :
  heap w !! l = Some df →
  getcol "date" df = Some date →
  getcol "country" df = Some country →
  getcol "population" df = Some pop →
  length date = nrows df →
  let date' := to_datetime_coerce parse_date <$> date in
  let futuras := filter (λ c, date_gt hoy c = true) date' in
  ∃ w' m2 m3,
    chequear_datos parse_date hoy l w = (Ok l, w')
    ∧ stdout w' = stdout w ++
        [if decide (futuras = []) then MsgDatesValid
         else MsgFutureDates (length futuras); m2; m3]
    ∧ (futuras = [] ↔
       ∀ c t, c ∈ date → to_datetime_coerce parse_date c = Date t → (t ≤ hoy)%Z)
    ∧ (∀ c, c ∈ date → to_datetime_strict parse_date c = Raise ValueError →
         to_datetime_coerce parse_date c ∉ futuras).
Proof.
  intros Hl Hdate Hcountry Hpop Hlen date' futuras.
  eexists _, _, _. split; [by eapply chequear_run|].
  cbn [stdout]. fold date'.
  rewrite take_ge by (unfold date'; rewrite !length_fmap; lia).
  rewrite count_true_fmap. fold futuras.
  split; [|split].
  - unfold future_msg. do 2 f_equal.
    destruct futuras; [done|]. cbn [length].
    rewrite decide_True by lia. by rewrite decide_False.
  - rewrite <-length_zero_iff_nil. unfold futuras, date'.
    rewrite length_filter_zero, Forall_fmap, Forall_forall.
    split.
    + intros H c t Hc Ht. specialize (H c Hc). cbn in H.
      rewrite Ht in H. cbn in H.
      destruct (decide (t ≤ hoy)%Z); [done|].
      exfalso. apply H. apply bool_decide_eq_true_2. lia.
    + intros H c Hc Hgt. cbn in Hgt.
      apply date_gt_spec in Hgt as (t & Ht & Hlt).
      specialize (H c t Hc Ht). lia.
  - intros c Hc Hfail Hin.
    apply list_elem_of_filter in Hin as [Hgt _].
    rewrite (coerce_of_failure _ _ Hfail) in Hgt. done.
Qed.

(** X2. The second check totals the missing cells of [country], of the
    coerced [date] and of [population]: it prints the "keys complete"
    message exactly when no country and no population is missing and every
    date parses, and the alert with the total otherwise. *)
Theorem gate_null_alert l w df date country pop :
  heap w !! l = Some df →
  getcol "date" df = Some date →
  getcol "country" df = Some country →
  getcol "population" df = Some pop →
  let date' := to_datetime_coerce parse_date <$> date in
  let nulos := (count_isna country + count_isna date' + count_isna pop)%nat in
  ∃ w' m1 m3,
    chequear_datos parse_date hoy l w = (Ok l, w')
    ∧ stdout w' = stdout w ++
        [m1; if decide (nulos = 0%nat) then MsgKeysComplete
             else MsgNullKeys nulos columnas_clave; m3]
    ∧ (nulos = 0%nat ↔
       Forall (λ c, isna c = false) country
       ∧ Forall (λ c, ∃ t, to_datetime_coerce parse_date c = Date t) date
       ∧ Forall (λ c, isna c = false) pop).
Proof.
  intros Hl Hdate Hcountry Hpop date' nulos.
  eexists _, _, _. split; [by eapply chequear_run|].
  cbn [stdout]. fold date' nulos. split.
  - unfold null_msg, columnas_clave. do 3 f_equal.
    destruct (decide (nulos = 0%nat)) as [->|Hne]; [done|].
    by rewrite decide_True by lia.
  - unfold nulos.
    rewrite <-!count_isna_zero.
    assert (count_isna date' = 0%nat
            ↔ Forall (λ c, ∃ t, to_datetime_coerce parse_date c = Date t) date)
      as <-.
    { rewrite count_isna_zero. unfold date'. rewrite Forall_fmap.
      apply Forall_iff. intros c. apply isna_coerce. }
    lia.
Qed.

(** X3. The third check counts the rows whose (country, coerced date) pair
    already stood on an earlier row: it prints the "no duplicates" message
    exactly when the pairs are pairwise distinct, and otherwise the alert
    with the number of rows minus the number of distinct pairs.  The dates
    are compared after the coercion, so two rows of one country whose dates
    do not parse count as duplicates of one another. *)
Theorem gate_duplicate_alert l w df date country pop :
  heap w !! l = Some df →
  getcol "date" df = Some date →
  getcol "country" df = Some country →
  getcol "population" df = Some pop →
  length country = nrows df →
  length date = nrows df →
  let date' := to_datetime_coerce parse_date <$> date in
  let pares := zip country date' in
  let n := (nrows df - length (remove_dups pares))%nat in
  ∃ w' m1 m2,
    chequear_datos parse_date hoy l w = (Ok l, w')
    ∧ stdout w' = stdout w ++
        [m1; m2; if decide (NoDup pares) then MsgNoDuplicates
                 else MsgDuplicates n]
    ∧ (¬ NoDup pares → (0 < n)%nat)
    ∧ (∀ i j k a b, (i < j)%nat →
         country !! i = Some k → country !! j = Some k →
         date !! i = Some a → date !! j = Some b →
         to_datetime_strict parse_date a = Raise ValueError →
         to_datetime_strict parse_date b = Raise ValueError →
         ¬ NoDup pares).
Proof.
  intros Hl Hdate Hcountry Hpop Hlc Hld date' pares n.
  assert (length date' = nrows df) as Hld'
    by (unfold date'; by rewrite length_fmap).
  assert (length pares = nrows df) as Hlp
    by (unfold pares; rewrite length_zip_with; lia).
  assert (count_true (duplicated (rows
            (mkDF (nrows df) [("country", country); ("date", date')]))) = n)
    as Hcount.
  { rewrite (rows_two_columns _ _ _ _ (nrows df)) by done.
    rewrite duplicated_fmap by (intros [a b] [a' b'] [= -> ->]; done).
    fold pares. pose proof (count_duplicated pares). unfold n. lia. }
  assert (n = 0%nat ↔ NoDup pares) as Hzero.
  { rewrite <-Hcount.
    rewrite (rows_two_columns _ _ _ _ (nrows df)) by done.
    rewrite duplicated_fmap by (intros [a b] [a' b'] [= -> ->]; done).
    apply count_duplicated_zero. }
  eexists _, _, _. split; [by eapply chequear_run|].
  cbn [stdout]. fold date'. rewrite Hcount. split; [|split].
  - unfold dup_msg. do 4 f_equal.
    destruct (decide (NoDup pares)) as [Hnd|Hnd].
    + apply Hzero in Hnd. rewrite Hnd. done.
    + rewrite decide_True; [done|]. destruct n; [|lia].
      exfalso. by apply Hnd, Hzero.
  - intros Hnd. destruct n; [|lia]. exfalso. by apply Hnd, Hzero.
  - intros i j k a b Hij Hi Hj Ha Hb Hfa Hfb Hnd.
    assert (pares !! i = Some (k, NaT)) as Hpi.
    { unfold pares, date'. rewrite lookup_zip_with, Hi. cbn.
      rewrite list_lookup_fmap, Ha. cbn.
      by rewrite (coerce_of_failure _ _ Hfa). }
    assert (pares !! j = Some (k, NaT)) as Hpj.
    { unfold pares, date'. rewrite lookup_zip_with, Hj. cbn.
      rewrite list_lookup_fmap, Hb. cbn.
      by rewrite (coerce_of_failure _ _ Hfb). }
    pose proof (NoDup_lookup _ _ _ _ Hnd Hpi Hpj). lia.
Qed.

End GateAlerts.

Lemma gate_future_alert_witness :
  ∃ w' m2 m3,
    chequear_datos iso_date hoy_demo 0%nat (mkWorld [raw_demo] [] []) = (Ok 0%nat, w')
    ∧ stdout w' = [MsgFutureDates 1; m2; m3].
Proof.
  destruct (gate_future_alert iso_date hoy_demo 0%nat (mkWorld [raw_demo] [] [])
              raw_demo
              [Str "2024-01-01"; Str "ayer"; Str "2031-05-05"; Str "2024-01-01"]
              [Str "Ecuador"; Str "Ecuador"; Str "Peru"; Str "Ecuador"]
              [fnum 1000000; fnum 1000000; Num NaN; fnum 1000000])
    as (w' & m2 & m3 & Hrun & Hout & _).
  - reflexivity.
  - reflexivity.
  - reflexivity.
  - reflexivity.
  - reflexivity.
  - exists w', m2, m3. split; [exact Hrun|exact Hout].
Defined.

Lemma gate_null_alert_witness :
  ∃ w' m1 m3,
    chequear_datos iso_date hoy_demo 0%nat (mkWorld [raw_demo] [] []) = (Ok 0%nat, w')
    ∧ stdout w' = [m1; MsgNullKeys 2 ["country"; "date"; "population"]; m3].
Proof.
  destruct (gate_null_alert iso_date hoy_demo 0%nat (mkWorld [raw_demo] [] [])
              raw_demo
              [Str "2024-01-01"; Str "ayer"; Str "2031-05-05"; Str "2024-01-01"]
              [Str "Ecuador"; Str "Ecuador"; Str "Peru"; Str "Ecuador"]
              [fnum 1000000; fnum 1000000; Num NaN; fnum 1000000])
    as (w' & m1 & m3 & Hrun & Hout & _).
  - reflexivity.
  - reflexivity.
  - reflexivity.
  - reflexivity.
  - exists w', m1, m3. split; [exact Hrun|exact Hout].
Defined.

Lemma gate_duplicate_alert_witness :
  ∃ w' m1 m2,
    chequear_datos iso_date hoy_demo 0%nat (mkWorld [raw_demo] [] []) = (Ok 0%nat, w')
    ∧ stdout w' = [m1; m2; MsgDuplicates 1].
Proof.
  destruct (gate_duplicate_alert iso_date hoy_demo 0%nat (mkWorld [raw_demo] [] [])
              raw_demo
              [Str "2024-01-01"; Str "ayer"; Str "2031-05-05"; Str "2024-01-01"]
              [Str "Ecuador"; Str "Ecuador"; Str "Peru"; Str "Ecuador"]
              [fnum 1000000; fnum 1000000; Num NaN; fnum 1000000])
    as (w' & m1 & m2 & Hrun & Hout & _).
  - reflexivity.
  - reflexivity.
  - reflexivity.
  - reflexivity.
  - reflexivity.
  - reflexivity.
  - exists w', m1, m2. split; [exact Hrun|exact Hout].
Defined.

(** ** The Quality Gate, run again and run on tables that lack a column *)

Lemma bind_raise {A B} (m : M A) (k : A → M B) w e w' :
  m w = (Raise e, w') → bind m k w = (Raise e, w').
Proof. unfold bind. by intros ->. Qed.

Lemma run_getitem_missing l c w d :
  heap w !! l = Some d → getcol c d = None →
  getitem l c w = (Raise (KeyError c), w).
Proof.
  intros Hl Hc. unfold getitem, bind, lift.
  by rewrite (run_deref _ _ _ Hl), (column_missing _ _ Hc).
Qed.

Lemma run_getitems_raise l cs w d e :
  heap w !! l = Some d → project cs d = Raise e →
  getitems l cs w = (Raise e, w).
Proof.
  intros Hl Hp. unfold getitems, bind, lift.
  by rewrite (run_deref _ _ _ Hl), Hp.
Qed.

Section GateRuns.
Variable parse_date : cell → option Z.
Variable hoy : Z.

(** X4. The Quality Gate is idempotent: run again on the table it has
    checked, it leaves every table as it is (the dates are timestamps
    already) and prints the same three messages once more. *)
Theorem gate_twice l w df date country pop :
  heap w !! l = Some df →
  getcol "date" df = Some date →
  getcol "country" df = Some country →
  getcol "population" df = Some pop →
  ∃ w1 m1 m2 m3,
    chequear_datos parse_date hoy l w = (Ok l, w1)
    ∧ stdout w1 = stdout w ++ [m1; m2; m3]
    ∧ chequear_datos parse_date hoy l w1
      = (Ok l, mkWorld (heap w1) (stdout w1 ++ [m1; m2; m3]) (disk w1)).
Proof.
  intros Hl Hdate Hcountry Hpop.
  pose proof (lookup_lt_Some _ _ _ Hl) as Hlt.
  set (date' := to_datetime_coerce parse_date <$> date).
  set (df1 := setcol "date" date' df).
  assert (to_datetime_coerce parse_date <$> date' = date') as Hidem.
  { unfold date'. rewrite <-list_fmap_compose. apply list_fmap_ext.
    intros i c _. apply to_datetime_coerce_idem. }
  eexists _, _, _, _. split; [by eapply chequear_run|].
  cbn [stdout heap disk]. split; [reflexivity|].
  fold date' df1.
  erewrite (chequear_run _ _ _ _ df1 date' country pop).
  - cbn [heap stdout disk]. rewrite Hidem.
    rewrite (setcol_same "date" date' df1) by apply getcol_setcol_eq.
    by rewrite list_insert_insert_eq.
  - cbn [heap]. by apply list_lookup_insert_eq.
  - apply getcol_setcol_eq.
  - unfold df1. by rewrite getcol_setcol_ne.
  - unfold df1. by rewrite getcol_setcol_ne.
Qed.

(** X5. On a table that has no [date] column the Quality Gate raises
    [KeyError('date')] at its first statement: nothing is printed and no
    table is touched. *)
Theorem gate_needs_date l w df :
  heap w !! l = Some df →
  getcol "date" df = None →
  chequear_datos parse_date hoy l w = (Raise (KeyError "date"), w).
Proof.
  intros Hl Hdate. unfold chequear_datos.
  apply bind_raise. by eapply run_getitem_missing.
Qed.

(** X6. The Quality Gate is not atomic: on a table that has [date] but
    lacks [country] or [population] it raises a [KeyError] only at the
    second check, when the date column of the table has been overwritten
    already and the message of the first check printed. *)
Theorem gate_fails_after_rewriting l w df date :
  heap w !! l = Some df →
  getcol "date" df = Some date →
  getcol "country" df = None ∨ getcol "population" df = None →
  let date' := to_datetime_coerce parse_date <$> date in
  ∃ k m1,
    chequear_datos parse_date hoy l w
    = (Raise (KeyError k),
       mkWorld (<[l := setcol "date" date' df]> (heap w))
               (stdout w ++ [m1]) (disk w))
    ∧ k ∈ ["country"; "population"]
    ∧ (m1 = MsgDatesValid ∨ ∃ n, m1 = MsgFutureDates n).
Proof.
  intros Hl Hdate Hmiss date'.
  set (df1 := setcol "date" date' df).
  assert (∃ k, project columnas_clave df1 = Raise (KeyError k)
               ∧ k ∈ ["country"; "population"]) as (k & Hproj & Hk).
  { unfold project, columnas_clave. cbn [omapM].
    destruct (getcol "country" df) as [country|] eqn:Hc.
    - destruct Hmiss as [?|Hp]; [done|].
      exists "population". split; [|in_list].
      rewrite (column_Ok "country" df1 country)
        by (unfold df1; by rewrite getcol_setcol_ne).
      rewrite (column_Ok "date" df1 date') by apply getcol_setcol_eq.
      rewrite (column_missing "population" df1)
        by (unfold df1; by rewrite getcol_setcol_ne).
      done.
    - exists "country". split; [|in_list].
      rewrite (column_missing "country" df1)
        by (unfold df1; by rewrite getcol_setcol_ne).
      done. }
  exists k, (future_msg (nrows (filter_rows (date_gt hoy <$> date') df1))).
  split; [|split; [done|]].
  - unfold chequear_datos.
    do 4 step. step. step.
    apply bind_raise.
    etrans; [eapply run_getitems_raise; [heap_tac|exact Hproj]|].
    unfold upd. cbn [heap stdout disk]. done.
  - unfold future_msg. case_decide; eauto.
Qed.

End GateRuns.

Lemma gate_twice_witness :
  ∃ w1 m1 m2 m3,
    chequear_datos iso_date hoy_demo 0%nat (mkWorld [raw_demo] [] []) = (Ok 0%nat, w1)
    ∧ stdout w1 = [m1; m2; m3]
    ∧ chequear_datos iso_date hoy_demo 0%nat w1
      = (Ok 0%nat, mkWorld (heap w1) [m1; m2; m3; m1; m2; m3] (disk w1)).
Proof.
  destruct (gate_twice iso_date hoy_demo 0%nat (mkWorld [raw_demo] [] [])
              raw_demo
              [Str "2024-01-01"; Str "ayer"; Str "2031-05-05"; Str "2024-01-01"]
              [Str "Ecuador"; Str "Ecuador"; Str "Peru"; Str "Ecuador"]
              [fnum 1000000; fnum 1000000; Num NaN; fnum 1000000])
    as (w1 & m1 & m2 & m3 & Hrun & Hout & Hagain).
  - reflexivity.
  - reflexivity.
  - reflexivity.
  - reflexivity.
  - exists w1, m1, m2, m3. split; [exact Hrun|]. split; [exact Hout|].
    rewrite Hagain, Hout. reflexivity.
Defined.

Lemma gate_needs_date_witness :
  chequear_datos iso_date hoy_demo 0%nat
    (mkWorld [mkDF 1 [("country", [Str "Ecuador"])]] [] [])
  = (Raise (KeyError "date"),
     mkWorld [mkDF 1 [("country", [Str "Ecuador"])]] [] []).
Proof.
  apply (gate_needs_date iso_date hoy_demo 0%nat _
           (mkDF 1 [("country", [Str "Ecuador"])])); reflexivity.
Defined.

Lemma gate_fails_after_rewriting_witness :
  ∃ k m1,
    chequear_datos iso_date hoy_demo 0%nat
      (mkWorld [mkDF 1 [("country", [Str "Ecuador"]); ("date", [Str "ayer"])]] [] [])
    = (Raise (KeyError k),
       mkWorld [mkDF 1 [("country", [Str "Ecuador"]); ("date", [NaT])]] [m1] []).
Proof.
  destruct (gate_fails_after_rewriting iso_date hoy_demo 0%nat
              (mkWorld [mkDF 1 [("country", [Str "Ecuador"]); ("date", [Str "ayer"])]] [] [])
              (mkDF 1 [("country", [Str "Ecuador"]); ("date", [Str "ayer"])])
              [Str "ayer"])
    as (k & m1 & Hrun & _).
  - reflexivity.
  - reflexivity.
  - right. reflexivity.
  - exists k, m1. exact Hrun.
Defined.

(** ** Row masks *)

Lemma filter_mask_self {A} (g : A → bool) (l : list A) :
  filter_mask (g <$> l) l = filter (λ a, g a = true) l.
Proof.
  induction l as [|a l IH]; [done|].
  rewrite fmap_cons, filter_mask_cons, filter_cons, IH.
  destruct (g a); [by rewrite decide_True|by rewrite decide_False].
Qed.

Lemma filter_mask_app {A} m1 m2 (l1 l2 : list A) :
  length m1 = length l1 →
  filter_mask (m1 ++ m2) (l1 ++ l2) = filter_mask m1 l1 ++ filter_mask m2 l2.
Proof.
  intros H. unfold filter_mask.
  rewrite zip_with_app by done. by rewrite filter_app, fmap_app.
Qed.

Lemma filter_mask_sublist {A} m (v : list A) : filter_mask m v `sublist_of` v.
Proof.
  revert v. induction m as [|b m IH]; intros [|a v]; try done.
  - apply sublist_nil_l.
  - rewrite filter_mask_cons. destruct b.
    + by apply sublist_skip.
    + by apply sublist_cons.
Qed.

Lemma filter_mask_Forall_mask {A} (P : A → Prop) m (v : list A) :
  (∀ i a, m !! i = Some true → v !! i = Some a → P a) →
  Forall P (filter_mask m v).
Proof.
  revert v. induction m as [|b m IH]; intros [|a v] H; try done.
  rewrite filter_mask_cons.
  assert (Forall P (filter_mask m v)) as Hrest
    by (apply IH; intros i x Hm Hv; by apply (H (S i))).
  destruct b; [|done]. constructor; [|done]. by apply (H 0%nat).
Qed.

(** The positions a mask keeps, and what it keeps of a column. *)
Lemma filter_mask_seq {A} (dflt : A) (g : nat → bool) (v : list A) :
  filter_mask (g <$> seq 0 (length v)) v
  = (λ j, default dflt (v !! j)) <$> filter (λ i, g i = true) (seq 0 (length v)).
Proof.
  rewrite <-(fmap_lookup_seq dflt v) at 2.
  by rewrite filter_mask_fmap, filter_mask_self.
Qed.

Lemma count_true_take_le n m : (count_true (take n m) ≤ n)%nat.
Proof.
  unfold count_true. etrans; [apply length_filter|].
  rewrite length_take. lia.
Qed.

Lemma getcol_elem c d v : getcol c d = Some v → (c, v) ∈ cols d.
Proof.
  unfold getcol. induction (cols d) as [|[c' v'] l IH]; [done|]. cbn.
  destruct (decide (c' = c)) as [->|Hne].
  - intros [= ->]. apply list_elem_of_here.
  - intros H. by apply list_elem_of_further, IH.
Qed.

Lemma well_formed_length c d v :
  well_formed d → getcol c d = Some v → length v = nrows d.
Proof.
  intros Hwf Hc. apply getcol_elem in Hc.
  unfold well_formed in Hwf. rewrite Forall_forall in Hwf.
  by apply (Hwf _ Hc).
Qed.

(** ** The three masks of the Cleaner *)

Lemma mask_dropna_spec d :
  mask_dropna d = fila_completa d <$> seq 0 (nrows d).
Proof.
  unfold mask_dropna, rows. cbn [nrows].
  rewrite <-list_fmap_compose. apply list_fmap_ext. intros _ i _.
  cbn. unfold fila_completa.
  destruct (isna (default (Num NaN) (col "new_cases" d !! i))) eqn:E1;
    destruct (isna (default (Num NaN) (col "people_vaccinated" d !! i))) eqn:E2;
    cbn.
  - apply bool_decide_eq_false_2. intros H. inversion H as [|?? H1 _]; subst.
    congruence.
  - apply bool_decide_eq_false_2. intros H. inversion H as [|?? H1 _]; subst.
    congruence.
  - apply bool_decide_eq_false_2. intros H. inversion H as [|?? _ H2]; subst.
    inversion H2 as [|?? H3 _]; subst. congruence.
  - apply bool_decide_eq_true_2. repeat constructor; done.
Qed.

Lemma rows_filter_rows (g : nat → bool) d :
  well_formed d →
  rows (filter_rows (g <$> seq 0 (nrows d)) d)
  = (λ i, row i d) <$> filter (λ i, g i = true) (seq 0 (nrows d)).
Proof.
  intros Hwf. set (S1 := filter (λ i, g i = true) (seq 0 (nrows d))).
  assert (nrows (filter_rows (g <$> seq 0 (nrows d)) d) = length S1) as Hn.
  { cbn [nrows filter_rows]. unfold S1.
    rewrite <-filter_mask_self, length_filter_mask. by rewrite length_seq. }
  unfold rows. rewrite Hn.
  apply list_eq. intros p. rewrite !list_lookup_fmap.
  destruct (decide (p < length S1)%nat) as [Hp|Hp].
  - rewrite lookup_seq_lt by done.
    destruct (lookup_lt_is_Some_2 S1 p Hp) as [i Hi]. rewrite Hi.
    cbn [fmap option_fmap option_map]. f_equal.
    unfold row. cbn [filter_rows cols]. rewrite <-list_fmap_compose.
    apply list_fmap_ext. intros k [c v] Hk. cbn.
    assert (length v = nrows d) as Hv.
    { unfold well_formed in Hwf. rewrite Forall_lookup in Hwf.
      apply (Hwf _ _ Hk). }
    rewrite <-Hv, (filter_mask_seq (Num NaN)), list_lookup_fmap, Hv.
    fold S1. by rewrite Hi.
  - rewrite lookup_seq_ge by lia. by rewrite lookup_ge_None_2 by lia.
Qed.

Lemma elem_of_firsts {B} `{EqDecision B} (P : nat → Prop)
    `{∀ i, Decision (P i)} (f : nat → B) n x :
  x ∈ filter_mask (negb <$> duplicated (f <$> filter P (seq 0 n)))
                  (filter P (seq 0 n))
  ↔ (x < n)%nat ∧ P x ∧ ∀ j, (j < x)%nat → P j → f j ≠ f x.
Proof.
  induction n as [|n IH].
  - cbn. split; [by intros ?%elem_of_nil|lia].
  - rewrite seq_S, filter_app. cbn [Nat.add].
    rewrite filter_cons, filter_nil.
    destruct (decide (P n)) as [Hn|Hn].
    + rewrite fmap_app. cbn [fmap list_fmap].
      rewrite duplicated_snoc, fmap_app. cbn [fmap list_fmap].
      rewrite filter_mask_app
        by (rewrite length_fmap; unfold duplicated;
            by rewrite length_imap, length_fmap).
      rewrite elem_of_app, IH.
      assert (f n ∈ f <$> filter P (seq 0 n)
              ↔ ∃ j, (j < n)%nat ∧ P j ∧ f j = f n) as Hin.
      { rewrite list_elem_of_fmap. split.
        - intros (j & Hj & Hjin). apply list_elem_of_filter in Hjin as [Hpj Hjs].
          apply elem_of_seq in Hjs. exists j. repeat split; [lia|done|done].
        - intros (j & Hj & Hpj & Hfj). exists j. split; [done|].
          apply list_elem_of_filter. split; [done|]. apply elem_of_seq. lia. }
      rewrite filter_mask_cons, filter_mask_nil_r.
      split.
      * intros [(Hx & Hpx & Hfirst)|Hx]; [repeat split; [lia|done|done]|].
        case_bool_decide as Hd; cbn in Hx; [by apply elem_of_nil in Hx|].
        apply list_elem_of_singleton in Hx as ->.
        repeat split; [lia|done|].
        intros j Hj Hpj Hfj. apply Hd, Hin. by exists j.
      * intros (Hx & Hpx & Hfirst).
        destruct (decide (x = n)) as [->|Hne]; [|left; repeat split; [lia|done|done]].
        right. rewrite bool_decide_eq_false_2; [apply list_elem_of_here|].
        intros (j & Hj & Hpj & Hfj)%Hin. by apply (Hfirst j).
    + rewrite app_nil_r, IH. split.
      * intros (Hx & Hpx & Hfirst). repeat split; [lia|done|done].
      * intros (Hx & Hpx & Hfirst). repeat split; [|done|done].
        destruct (decide (x = n)) as [->|Hne]; [done|lia].
Qed.

(** The positions of the rows the Cleaner keeps. *)
Lemma kept_seq_spec d :
  well_formed d → length (col "country" d) = nrows d →
  kept d (seq 0 (nrows d))
  = filter (λ i, del_pais d i = true)
      (filter_mask
         (negb <$> duplicated ((λ i, row i d) <$>
                     filter (λ i, fila_completa d i = true) (seq 0 (nrows d))))
         (filter (λ i, fila_completa d i = true) (seq 0 (nrows d)))).
Proof.
  intros Hwf Hlen. unfold kept. cbv zeta.
  set (S1 := filter (λ i, fila_completa d i = true) (seq 0 (nrows d))).
  assert (filter_mask (mask_dropna d) (seq 0 (nrows d)) = S1) as H1.
  { rewrite mask_dropna_spec. apply filter_mask_self. }
  assert (mask_first (filter_rows (mask_dropna d) d)
          = negb <$> duplicated ((λ i, row i d) <$> S1)) as H2.
  { unfold mask_first. rewrite mask_dropna_spec.
    by rewrite rows_filter_rows. }
  set (S2 := filter_mask (negb <$> duplicated ((λ i, row i d) <$> S1)) S1).
  assert (mask_paises (filter_rows (mask_first (filter_rows (mask_dropna d) d))
                         (filter_rows (mask_dropna d) d))
          = del_pais d <$> S2) as H3.
  { unfold mask_paises. rewrite !col_filter_rows, H2.
    rewrite mask_dropna_spec, <-Hlen, (filter_mask_seq (Num NaN)), Hlen.
    fold S1. rewrite filter_mask_fmap. fold S2.
    unfold isin. rewrite <-list_fmap_compose. done. }
  rewrite H3, H2, H1. fold S2.
  apply filter_mask_self.
Qed.

Lemma elem_of_kept_seq d i :
  well_formed d → length (col "country" d) = nrows d →
  i ∈ kept d (seq 0 (nrows d))
  ↔ (i < nrows d)%nat ∧ fila_completa d i = true ∧ del_pais d i = true
    ∧ ∀ j, (j < i)%nat → fila_completa d j = true → row j d ≠ row i d.
Proof.
  intros Hwf Hlen. rewrite kept_seq_spec by done.
  rewrite list_elem_of_filter, elem_of_firsts. tauto.
Qed.

Lemma kept_sublist {A} d (v : list A) : kept d v `sublist_of` v.
Proof.
  unfold kept. cbv zeta.
  etrans; [apply filter_mask_sublist|].
  etrans; [apply filter_mask_sublist|]. apply filter_mask_sublist.
Qed.

Lemma nrows_limpio_le d : (nrows (limpio d) ≤ nrows d)%nat.
Proof.
  unfold limpio. cbn [nrows filter_rows].
  etrans; [apply count_true_take_le|].
  etrans; [apply count_true_take_le|]. apply count_true_take_le.
Qed.

Lemma fila_completa_present d i :
  fila_completa d i = true →
  (∀ a, col "new_cases" d !! i = Some a → isna a = false)
  ∧ (∀ a, col "people_vaccinated" d !! i = Some a → isna a = false).
Proof.
  unfold fila_completa. intros [H1 H2]%andb_true_iff.
  split; intros a Ha; rewrite Ha in *; cbn in *; by destruct (isna a).
Qed.

Lemma mask_dropna_true d i :
  mask_dropna d !! i = Some true → fila_completa d i = true.
Proof.
  rewrite mask_dropna_spec, list_lookup_fmap.
  destruct (seq 0 (nrows d) !! i) as [j|] eqn:Hj; [|done].
  apply lookup_seq in Hj as [-> _]. cbn. by intros [= ->].
Qed.

Lemma kept_new_cases_present d :
  Forall (λ v, isna v = false) (kept d (col "new_cases" d)).
Proof.
  unfold kept. cbv zeta. do 2 apply filter_mask_Forall.
  apply filter_mask_Forall_mask. intros i a Hm Hv.
  by apply (proj1 (fila_completa_present d i (mask_dropna_true d i Hm))).
Qed.

Lemma kept_people_vaccinated_present d :
  Forall (λ v, isna v = false) (kept d (col "people_vaccinated" d)).
Proof.
  unfold kept. cbv zeta. do 2 apply filter_mask_Forall.
  apply filter_mask_Forall_mask. intros i a Hm Hv.
  by apply (proj2 (fila_completa_present d i (mask_dropna_true d i Hm))).
Qed.

(** ** The Cleaner, run *)

(** X7. On every table that has the five columns it reads the Cleaner
    raises nothing, leaves the table it was given and every other table
    as they are, writes no file and prints one message, the number of
    rows of the table it returns.  That table is a new one with exactly
    the five columns, in the order the Cleaner lists them; it has at most
    as many rows as the input, and each of its columns is what is left of
    the input column when rows are dropped, the order of the rows kept. *)
Theorem cleaner_frame l w d country date nc pv pop :
  heap w !! l = Some d →
  getcol "country" d = Some country →
  getcol "date" d = Some date →
  getcol "new_cases" d = Some nc →
  getcol "people_vaccinated" d = Some pv →
  getcol "population" d = Some pop →
  ∃ c,
    datos_procesados l w
    = (Ok (length (heap w)),
       mkWorld (heap w ++ [c]) (stdout w ++ [MsgProcessed (nrows c)]) (disk w))
    ∧ columns c = columnas
    ∧ (nrows c ≤ nrows d)%nat
    ∧ col "country" c `sublist_of` country
    ∧ col "date" c `sublist_of` date
    ∧ col "new_cases" c `sublist_of` nc
    ∧ col "people_vaccinated" c `sublist_of` pv
    ∧ col "population" c `sublist_of` pop.
Proof.
  intros Hl Hcountry Hdate Hnc Hpv Hpop.
  exists (limpio d). split; [by eapply datos_run|].
  split; [done|]. split; [apply nrows_limpio_le|].
  rewrite !col_limpio by (unfold columnas; in_list).
  rewrite (getcol_col _ _ _ Hcountry), (getcol_col _ _ _ Hdate),
    (getcol_col _ _ _ Hnc), (getcol_col _ _ _ Hpv), (getcol_col _ _ _ Hpop).
  repeat split; apply kept_sublist.
Qed.

(** X8. Every row of the table the Cleaner returns belongs to Ecuador or
    Argentina and has a [new_cases] and a [people_vaccinated]. *)
Theorem cleaner_postcondition l w d country date nc pv pop :
  heap w !! l = Some d →
  getcol "country" d = Some country →
  getcol "date" d = Some date →
  getcol "new_cases" d = Some nc →
  getcol "people_vaccinated" d = Some pv →
  getcol "population" d = Some pop →
  ∃ ks ncs pvs,
    column_of "country" (datos_procesados l w) = Some ks
    ∧ column_of "new_cases" (datos_procesados l w) = Some ncs
    ∧ column_of "people_vaccinated" (datos_procesados l w) = Some pvs
    ∧ Forall (λ k, k ∈ paises) ks
    ∧ Forall (λ v, isna v = false) ncs
    ∧ Forall (λ v, isna v = false) pvs.
Proof.
  intros Hl Hcountry Hdate Hnc Hpv Hpop.
  erewrite datos_run by eassumption.
  rewrite !column_of_new by done.
  rewrite !getcol_limpio by (unfold columnas; in_list).
  eexists _, _, _. split; [done|]. split; [done|]. split; [done|].
  split; [apply kept_country_paises|].
  split; [apply kept_new_cases_present|apply kept_people_vaccinated_present].
Qed.

(** X9. Which rows the Cleaner keeps.  On a table whose columns are as
    long as its index, the row at position [i] is kept exactly when it has
    a [new_cases] and a [people_vaccinated], its country is Ecuador or
    Argentina, and no earlier row that has both values equals it on every
    column of the input (also on the columns that are not returned).  The
    rows kept stay in the order of the input, and every returned column
    holds the input cells of those rows. *)
Theorem cleaner_keeps_exactly l w d country date nc pv pop :
  heap w !! l = Some d →
  getcol "country" d = Some country →
  getcol "date" d = Some date →
  getcol "new_cases" d = Some nc →
  getcol "people_vaccinated" d = Some pv →
  getcol "population" d = Some pop →
  well_formed d →
  let K := kept d (seq 0 (nrows d)) in
  (∀ c, c ∈ columnas →
     column_of c (datos_procesados l w) = Some (reorder (Num NaN) K (col c d)))
  ∧ K `sublist_of` seq 0 (nrows d)
  ∧ ∀ i, i ∈ K ↔
      (i < nrows d)%nat ∧ fila_completa d i = true ∧ del_pais d i = true
      ∧ ∀ j, (j < i)%nat → fila_completa d j = true → row j d ≠ row i d.
Proof.
  intros Hl Hcountry Hdate Hnc Hpv Hpop Hwf K.
  split; [|split].
  - intros c Hc.
    erewrite datos_run by eassumption.
    rewrite column_of_new by done.
    rewrite getcol_limpio by done. f_equal.
    assert (length (col c d) = nrows d) as Hlen.
    { unfold columnas in Hc.
      repeat (apply elem_of_cons in Hc as [->|Hc];
              [erewrite getcol_col by eassumption;
               by eapply well_formed_length|]).
      by apply elem_of_nil in Hc. }
    rewrite (kept_index (Num NaN)), Hlen. done.
  - apply kept_sublist.
  - intros i. apply elem_of_kept_seq; [done|].
    rewrite (getcol_col _ _ _ Hcountry). by eapply well_formed_length.
Qed.

(** X10. The Cleaner reads [new_cases], [people_vaccinated] and [country]
    before it prints: on a table that lacks one of them it raises a
    [KeyError] with nothing printed and no table made. *)
Theorem cleaner_needs_inputs l w d :
  heap w !! l = Some d →
  getcol "new_cases" d = None ∨ getcol "people_vaccinated" d = None
  ∨ getcol "country" d = None →
  ∃ k, datos_procesados l w = (Raise (KeyError k), w)
       ∧ k ∈ ["new_cases"; "people_vaccinated"; "country"].
Proof.
  intros Hl Hmiss. unfold datos_procesados.
  destruct (getcol "new_cases" d) as [nc|] eqn:Hnc.
  - destruct (getcol "people_vaccinated" d) as [pv|] eqn:Hpv.
    + destruct Hmiss as [?|[?|Hc]]; [done..|].
      exists "country". split; [|in_list].
      step.
      assert (dropna ["new_cases"; "people_vaccinated"] d
              = Ok (filter_rows (mask_dropna d) d)) as Hdrop.
      { unfold dropna, project. cbn [omapM].
        rewrite (column_Ok _ _ _ Hnc), (column_Ok _ _ _ Hpv). cbn [obind].
        unfold mask_dropna.
        by rewrite (getcol_col _ _ _ Hnc), (getcol_col _ _ _ Hpv). }
      step.
      apply bind_raise. rewrite run_lift. f_equal.
      apply column_missing. unfold drop_duplicates.
      by rewrite !getcol_filter_rows, Hc.
    + exists "people_vaccinated". split; [|in_list].
      step. apply bind_raise. rewrite run_lift. f_equal.
      unfold dropna, project. cbn [omapM].
      by rewrite (column_Ok _ _ _ Hnc), (column_missing _ _ Hpv).
  - exists "new_cases". split; [|in_list].
    step. apply bind_raise. rewrite run_lift. f_equal.
    unfold dropna, project. cbn [omapM].
    by rewrite (column_missing _ _ Hnc).
Qed.

(** X11. The Cleaner prints before it selects the columns it returns: on a
    table that has [new_cases], [people_vaccinated] and [country] but
    lacks [date] or [population] it prints the number of rows it kept and
    then raises a [KeyError]; no table is returned. *)
Theorem cleaner_fails_after_message l w d country nc pv :
  heap w !! l = Some d →
  getcol "country" d = Some country →
  getcol "new_cases" d = Some nc →
  getcol "people_vaccinated" d = Some pv →
  getcol "date" d = None ∨ getcol "population" d = None →
  ∃ k, datos_procesados l w
       = (Raise (KeyError k),
          mkWorld (heap w) (stdout w ++ [MsgProcessed (nrows (limpio d))])
                  (disk w))
       ∧ k ∈ ["date"; "population"].
Proof.
  intros Hl Hcountry Hnc Hpv Hmiss. unfold datos_procesados.
  set (d1 := filter_rows (mask_dropna d) d).
  set (d2 := filter_rows (mask_first d1) d1).
  set (d3 := filter_rows (mask_paises d2) d2).
  assert (∀ c, getcol c d3
               = filter_mask (mask_paises d2) <$>
                   (filter_mask (mask_first d1) <$>
                      (filter_mask (mask_dropna d) <$> getcol c d))) as Hd3.
  { intros c. unfold d3, d2, d1. by rewrite !getcol_filter_rows. }
  assert (∃ k, project columnas d3 = Raise (KeyError k)
               ∧ k ∈ ["date"; "population"]) as (k & Hproj & Hk).
  { unfold project, columnas. cbn [omapM].
    rewrite (column_Ok "country" d3 _ ltac:(rewrite Hd3, Hcountry; reflexivity)).
    cbn [obind].
    destruct (getcol "date" d) as [date|] eqn:Hdate.
    - destruct Hmiss as [?|Hp]; [done|].
      exists "population". split; [|in_list].
      rewrite (column_Ok "date" d3 _ ltac:(rewrite Hd3, Hdate; reflexivity)).
      rewrite (column_Ok "new_cases" d3 _ ltac:(rewrite Hd3, Hnc; reflexivity)).
      rewrite (column_Ok "people_vaccinated" d3 _
                 ltac:(rewrite Hd3, Hpv; reflexivity)).
      rewrite (column_missing "population" d3) by (by rewrite Hd3, Hp).
      done.
    - exists "date". split; [|in_list].
      rewrite (column_missing "date" d3) by (by rewrite Hd3, Hdate).
      done. }
  exists k. split; [|done].
  step.
  assert (dropna ["new_cases"; "people_vaccinated"] d = Ok d1) as Hdrop.
  { unfold dropna, project. cbn [omapM].
    rewrite (column_Ok _ _ _ Hnc), (column_Ok _ _ _ Hpv). cbn [obind].
    unfold d1, mask_dropna.
    by rewrite (getcol_col _ _ _ Hnc), (getcol_col _ _ _ Hpv). }
  step.
  unfold drop_duplicates. fold (mask_first d1). fold d2.
  assert (getcol "country" d2
          = Some (filter_mask (mask_first d1) (filter_mask (mask_dropna d) country)))
    as Hc2 by (unfold d2, d1; by rewrite !getcol_filter_rows, Hcountry).
  etrans; [eapply bind_ok; rewrite run_lift; f_equal; apply column_Ok, Hc2|].
  cbv beta.
  assert (isin paises (filter_mask (mask_first d1) (filter_mask (mask_dropna d) country))
          = mask_paises d2) as ->.
  { unfold mask_paises. by rewrite (getcol_col _ _ _ Hc2). }
  fold d3. step.
  apply bind_raise. rewrite run_lift. cbn [heap stdout disk].
  by rewrite Hproj.
Qed.

Lemma cleaner_frame_witness :
  ∃ c,
    datos_procesados 0%nat (mkWorld [raw_demo] [] [])
    = (Ok 1%nat, mkWorld [raw_demo; c] [MsgProcessed (nrows c)] [])
    ∧ columns c = columnas
    ∧ (nrows c ≤ 4)%nat.
Proof.
  destruct (cleaner_frame 0%nat (mkWorld [raw_demo] [] []) raw_demo
              [Str "Ecuador"; Str "Ecuador"; Str "Peru"; Str "Ecuador"]
              [Str "2024-01-01"; Str "ayer"; Str "2031-05-05"; Str "2024-01-01"]
              [fnum 100; fnum 200; fnum 7; fnum 300]
              [fnum 5; fnum 6; fnum 7; Num NaN]
              [fnum 1000000; fnum 1000000; Num NaN; fnum 1000000])
    as (c & Hrun & Hcols & Hn & _).
  - reflexivity.
  - reflexivity.
  - reflexivity.
  - reflexivity.
  - reflexivity.
  - reflexivity.
  - exists c. split; [exact Hrun|]. split; [exact Hcols|exact Hn].
Defined.

Lemma cleaner_postcondition_witness :
  ∃ ks ncs pvs,
    column_of "country" (datos_procesados 0%nat (mkWorld [raw_demo] [] [])) = Some ks
    ∧ column_of "new_cases" (datos_procesados 0%nat (mkWorld [raw_demo] [] [])) = Some ncs
    ∧ column_of "people_vaccinated" (datos_procesados 0%nat (mkWorld [raw_demo] [] []))
      = Some pvs
    ∧ Forall (λ k, k ∈ paises) ks
    ∧ Forall (λ v, isna v = false) ncs
    ∧ Forall (λ v, isna v = false) pvs.
Proof.
  apply (cleaner_postcondition 0%nat (mkWorld [raw_demo] [] []) raw_demo
           [Str "Ecuador"; Str "Ecuador"; Str "Peru"; Str "Ecuador"]
           [Str "2024-01-01"; Str "ayer"; Str "2031-05-05"; Str "2024-01-01"]
           [fnum 100; fnum 200; fnum 7; fnum 300]
           [fnum 5; fnum 6; fnum 7; Num NaN]
           [fnum 1000000; fnum 1000000; Num NaN; fnum 1000000]);
    reflexivity.
Defined.

Lemma cleaner_keeps_exactly_witness :
  column_of "new_cases" (datos_procesados 0%nat (mkWorld [raw_demo] [] []))
  = Some [fnum 100; fnum 200]
  ∧ (2%nat ∈ kept raw_demo (seq 0 4) ↔
     (2 < 4)%nat ∧ fila_completa raw_demo 2 = true ∧ del_pais raw_demo 2 = true
     ∧ ∀ j, (j < 2)%nat → fila_completa raw_demo j = true →
            row j raw_demo ≠ row 2 raw_demo).
Proof.
  destruct (cleaner_keeps_exactly 0%nat (mkWorld [raw_demo] [] []) raw_demo
              [Str "Ecuador"; Str "Ecuador"; Str "Peru"; Str "Ecuador"]
              [Str "2024-01-01"; Str "ayer"; Str "2031-05-05"; Str "2024-01-01"]
              [fnum 100; fnum 200; fnum 7; fnum 300]
              [fnum 5; fnum 6; fnum 7; Num NaN]
              [fnum 1000000; fnum 1000000; Num NaN; fnum 1000000])
    as (Hcols & _ & Hrows).
  - reflexivity.
  - reflexivity.
  - reflexivity.
  - reflexivity.
  - reflexivity.
  - reflexivity.
  - unfold well_formed. repeat constructor.
  - split; [|exact (Hrows 2%nat)].
    apply (Hcols "new_cases"). unfold columnas. in_list.
Defined.

Lemma cleaner_needs_inputs_witness :
  ∃ k, datos_procesados 0%nat (mkWorld [mkDF 1 [("country", [Str "Ecuador"])]] [] [])
       = (Raise (KeyError k), mkWorld [mkDF 1 [("country", [Str "Ecuador"])]] [] []).
Proof.
  destruct (cleaner_needs_inputs 0%nat
              (mkWorld [mkDF 1 [("country", [Str "Ecuador"])]] [] [])
              (mkDF 1 [("country", [Str "Ecuador"])]))
    as (k & Hrun & _).
  - reflexivity.
  - left. reflexivity.
  - exists k. exact Hrun.
Defined.

Lemma cleaner_fails_after_message_witness :
  ∃ k, datos_procesados 0%nat
         (mkWorld [mkDF 1 [("country", [Str "Ecuador"]); ("new_cases", [fnum 1]);
                           ("people_vaccinated", [fnum 1])]] [] [])
       = (Raise (KeyError k),
          mkWorld [mkDF 1 [("country", [Str "Ecuador"]); ("new_cases", [fnum 1]);
                           ("people_vaccinated", [fnum 1])]] [MsgProcessed 1] []).
Proof.
  destruct (cleaner_fails_after_message 0%nat
              (mkWorld [mkDF 1 [("country", [Str "Ecuador"]); ("new_cases", [fnum 1]);
                                ("people_vaccinated", [fnum 1])]] [] [])
              (mkDF 1 [("country", [Str "Ecuador"]); ("new_cases", [fnum 1]);
                       ("people_vaccinated", [fnum 1])])
              [Str "Ecuador"] [fnum 1] [fnum 1])
    as (k & Hrun & _).
  - reflexivity.
  - reflexivity.
  - reflexivity.
  - reflexivity.
  - left. reflexivity.
  - exists k. exact Hrun.
Defined.

(** ** Dates the derivations cannot read *)

Lemma to_datetime_strict_raises parse c e :
  to_datetime_strict parse c = Raise e → e = ValueError.
Proof.
  destruct c as [?|[]| |]; cbn; try done; destruct (parse _); cbn; congruence.
Qed.

Lemma to_datetime_fails parse (s : Series) i c :
  s !! i = Some c → to_datetime_strict parse c = Raise ValueError →
  to_datetime parse s = Raise ValueError.
Proof.
  unfold to_datetime. revert i. induction s as [|a s IH]; intros [|i] Hi Hc;
    try done.
  - injection Hi as ->. cbn [omapM]. by rewrite Hc.
  - cbn in Hi. cbn [omapM]. rewrite (IH i Hi Hc).
    destruct (to_datetime_strict parse a) as [b|e] eqn:Ea; [done|].
    cbn. by rewrite (to_datetime_strict_raises _ _ _ Ea).
Qed.

Section StrictDates.
Variable parse_date : cell → option Z.

(** X12. The two derivations convert the dates without coercion: on a
    table with a date that does not parse each of them raises a
    [ValueError] at its first statement, with the table untouched and
    nothing returned (the Quality Gate, on the same dates, goes on with
    [NaT]). *)
Theorem derivations_reject_unparsed_dates l w df date i c :
  heap w !! l = Some df →
  getcol "date" df = Some date →
  date !! i = Some c →
  to_datetime_strict parse_date c = Raise ValueError →
  metrica_incidencia_7d parse_date l w = (Raise ValueError, w)
  ∧ metrica_factor_crec_7d parse_date l w = (Raise ValueError, w).
Proof.
  intros Hl Hdate Hi Hc.
  pose proof (to_datetime_fails _ _ _ _ Hi Hc) as Hfail.
  split.
  - unfold metrica_incidencia_7d. step.
    apply bind_raise. by rewrite run_lift, Hfail.
  - unfold metrica_factor_crec_7d. step.
    apply bind_raise. by rewrite run_lift, Hfail.
Qed.
End StrictDates.

Lemma derivations_reject_unparsed_dates_witness :
  metrica_incidencia_7d iso_date 0%nat (mkWorld [raw_demo] [] [])
  = (Raise ValueError, mkWorld [raw_demo] [] [])
  ∧ metrica_factor_crec_7d iso_date 0%nat (mkWorld [raw_demo] [] [])
    = (Raise ValueError, mkWorld [raw_demo] [] []).
Proof.
  apply (derivations_reject_unparsed_dates iso_date 0%nat
           (mkWorld [raw_demo] [] []) raw_demo
           [Str "2024-01-01"; Str "ayer"; Str "2031-05-05"; Str "2024-01-01"]
           1%nat (Str "ayer")); reflexivity.
Defined.

(** ** Means between bounds *)

Lemma qn_S n : qn (S n) = qn n + 1.
Proof.
  unfold qn, Qc_of_Z. apply Qc_is_canon. cbn [this Qcplus Q2Qc].
  rewrite !Qred_correct. rewrite Nat2Z.inj_succ, <-Z.add_1_r.
  by rewrite inject_Z_plus.
Qed.

Lemma qn_pos n : (0 < n)%nat → 0 < qn n.
Proof.
  intros Hn. unfold qn, Qc_of_Z, Qclt. cbn [this Q2Qc].
  rewrite !Qred_correct. unfold Qlt. cbn. lia.
Qed.

Lemma qsum_between (obs : list Qc) lo hi :
  Forall (λ q, lo ≤ q ∧ q ≤ hi) obs →
  lo * qn (length obs) ≤ qsum obs ∧ qsum obs ≤ hi * qn (length obs).
Proof.
  induction 1 as [|q obs [Hlo Hhi] _ [IHlo IHhi]].
  - cbn [length qsum foldr].
    replace (qn 0) with (0 : Qc) by (by apply Qc_is_canon).
    replace (lo * 0) with (0 : Qc) by ring.
    replace (hi * 0) with (0 : Qc) by ring. split; apply Qcle_refl.
  - cbn [length qsum foldr]. rewrite qn_S.
    replace (lo * (qn (length obs) + 1)) with (lo + lo * qn (length obs)) by ring.
    replace (hi * (qn (length obs) + 1)) with (hi + hi * qn (length obs)) by ring.
    split; by apply Qcplus_le_compat.
Qed.

Lemma agg_mean_between (obs : list Qc) lo hi :
  (0 < length obs)%nat → Forall (λ q, lo ≤ q ∧ q ≤ hi) obs →
  ∃ q, agg_mean obs = Fin q ∧ lo ≤ q ∧ q ≤ hi.
Proof.
  intros Hn Hobs. destruct (qsum_between obs lo hi Hobs) as [Hlo Hhi].
  pose proof (qn_pos _ Hn) as Hpos.
  assert (qn (length obs) ≠ 0) as Hne
    by (intros E; rewrite E in Hpos; by apply Qclt_not_eq in Hpos).
  eexists. split; [reflexivity|]. split.
  - apply (Qcmult_lt_0_le_reg_r _ _ (qn (length obs))); [done|].
    by rewrite test_field.
  - apply (Qcmult_lt_0_le_reg_r _ _ (qn (length obs))); [done|].
    by rewrite test_field.
Qed.

Lemma elem_of_observed (w : list xnum) q : q ∈ observed w ↔ Fin q ∈ w.
Proof.
  unfold observed. rewrite list_elem_of_omap. split.
  - intros (v & Hv & Hq). destruct v; cbn in Hq; try done. by injection Hq as ->.
  - intros H. by exists (Fin q).
Qed.

(** A value of a rolling mean is [NaN] or a number between the bounds of the
    numbers of the series: never an infinity. *)
Lemma rolling_mean_between n (x : list xnum) lo hi :
  (∀ q, Fin q ∈ x → lo ≤ q ∧ q ≤ hi) →
  Forall (λ v, v = NaN ∨ ∃ q, v = Fin q ∧ lo ≤ q ∧ q ≤ hi) (rolling_mean n 1 x).
Proof.
  intros Hx. apply Forall_lookup. intros i v Hv.
  pose proof (lookup_lt_Some _ _ _ Hv) as Hi.
  unfold rolling_mean in *. rewrite length_rolling in Hi.
  rewrite lookup_rolling in Hv by done. injection Hv as <-.
  case_decide as Hobs; [right|by left].
  apply agg_mean_between; [lia|].
  apply Forall_forall. intros q Hq.
  apply Hx. apply elem_of_observed in Hq. by eapply window_sub.
Qed.

Lemma select_sub {A} k (keys : list cell) (vals : list A) v :
  v ∈ select k keys vals → v ∈ vals.
Proof.
  unfold select. rewrite list_elem_of_fmap. intros ([k' v'] & -> & Hin).
  apply list_elem_of_filter in Hin as [_ Hin].
  apply list_elem_of_lookup in Hin as [i Hi].
  apply lookup_zip_with_Some in Hi as (a & b & [= <- <-] & _ & Hb).
  by eapply list_elem_of_lookup_2.
Qed.

Lemma group_apply_Forall (P : xnum → Prop) f (keys : list cell) (vals : list xnum) :
  P NaN → (∀ k, Forall P (f (select k keys vals))) →
  Forall P (group_apply f keys vals).
Proof.
  intros Hnan Hf. apply Forall_lookup. intros i v Hv.
  pose proof (lookup_lt_Some _ _ _ Hv) as Hi.
  rewrite length_group_apply in Hi.
  destruct (lookup_lt_is_Some_2 keys i Hi) as [k Hk].
  rewrite (lookup_group_apply _ _ _ _ _ Hk) in Hv. injection Hv as <-.
  destruct (isna k); [done|].
  destruct (f (select k keys vals) !! rank k (take i keys)) as [u|] eqn:Hu;
    [|done].
  cbn. specialize (Hf k). rewrite Forall_lookup in Hf. by eapply Hf.
Qed.

(** ** The Validator, value by value *)

Lemma within_bounds_between lo hi v :
  within_bounds lo → within_bounds hi →
  xleb lo v = true → xleb v hi = true → within_bounds v.
Proof.
  intros (a & -> & Ha1 & Ha2) (b & -> & Hb1 & Hb2) H1 H2.
  destruct v as [q| | |]; try done. cbn in H1, H2.
  apply bool_decide_eq_true in H1, H2.
  exists q. split; [done|].
  split; [exact (Qcle_trans _ _ _ Ha1 H1)|exact (Qcle_trans _ _ _ H2 Hb2)].
Qed.

Lemma range_msg_in_range (x : list xnum) :
  (∃ lo hi, range_msg x = MsgInRange lo hi)
  ↔ (∃ v, v ∈ x ∧ v ≠ NaN) ∧ ∀ v, v ∈ x → v ≠ NaN → within_bounds v.
Proof.
  unfold range_msg.
  destruct (in_range (series_min x) && in_range (series_max x)) eqn:E.
  - apply andb_true_iff in E as [Emin Emax].
    apply in_range_spec in Emin, Emax.
    split; [intros _|eauto].
    destruct (series_min_spec x) as [[_ Hnan]|(Hin & Hne & Hle)].
    { rewrite Hnan in Emin. by destruct Emin as (? & ? & _). }
    destruct (series_max_spec x) as [[_ Hnan]|(_ & _ & Hge)].
    { rewrite Hnan in Emax. by destruct Emax as (? & ? & _). }
    split; [eauto|]. intros v Hv Hvn.
    apply (within_bounds_between (series_min x) (series_max x)); auto.
  - split; [by intros (? & ? & ?)|].
    intros [(v & Hv & Hvn) Hall]. exfalso.
    apply andb_false_iff in E as [E|E].
    + destruct (series_min_spec x) as [[Hp _]|(Hin & Hne & _)].
      * assert (v ∈ present x) as Hvp by by apply present_spec.
        rewrite Hp in Hvp. by apply elem_of_nil in Hvp.
      * apply (Hall _ Hin), in_range_spec in Hne. congruence.
    + destruct (series_max_spec x) as [[Hp _]|(Hin & Hne & _)].
      * assert (v ∈ present x) as Hvp by by apply present_spec.
        rewrite Hp in Hvp. by apply elem_of_nil in Hvp.
      * apply (Hall _ Hin), in_range_spec in Hne. congruence.
Qed.

(** X13. The Validator, value by value: it prints the "in range" message
    exactly when [incidencia_7d] holds at least one value that is not
    [NaN] and every such value lies within [[0, 2000]].  Missing values
    are passed over, and a column of missing values only is reported out
    of range. *)
Theorem validator_by_value l w t x :
  heap w !! l = Some t →
  getcol "incidencia_7d" t = Some (of_floats x) →
  (∃ lo hi, chequeo_incidencia l w
            = (Ok (), mkWorld (heap w) (stdout w ++ [MsgInRange lo hi]) (disk w)))
  ↔ (∃ v, v ∈ x ∧ v ≠ NaN) ∧ ∀ v, v ∈ x → v ≠ NaN → within_bounds v.
Proof.
  intros Hl Hc. rewrite (chequeo_run _ _ _ _ Hl Hc), <-range_msg_in_range.
  split.
  - intros (lo & hi & H). exists lo, hi.
    injection H as H. by apply app_inv_head in H as [= ->].
  - intros (lo & hi & ->). by exists lo, hi.
Qed.

Lemma validator_by_value_witness :
  (∃ lo hi, chequeo_incidencia 0%nat (mkWorld [incidencia_demo] [] [])
            = (Ok (), mkWorld [incidencia_demo] [MsgInRange lo hi] []))
  ↔ (∃ v, v ∈ [Fin (qz 10); Fin (qz 15)] ∧ v ≠ NaN)
    ∧ ∀ v, v ∈ [Fin (qz 10); Fin (qz 15)] → v ≠ NaN → within_bounds v.
Proof.
  apply (validator_by_value 0%nat (mkWorld [incidencia_demo] [] [])
           incidencia_demo [Fin (qz 10); Fin (qz 15)]); reflexivity.
Defined.

Lemma range_msg_bounded (x : list xnum) :
  (∃ v, v ∈ x ∧ v ≠ NaN) → (∀ v, v ∈ x → v ≠ NaN → within_bounds v) →
  range_msg x = MsgInRange (series_min x) (series_max x)
  ∧ within_bounds (series_min x) ∧ within_bounds (series_max x).
Proof.
  intros Hex Hall.
  destruct (proj2 (range_msg_in_range x) (conj Hex Hall)) as (lo & hi & H).
  unfold range_msg in *.
  destruct (in_range (series_min x) && in_range (series_max x)) eqn:E; [|done].
  apply andb_true_iff in E as [Emin Emax].
  apply in_range_spec in Emin, Emax. done.
Qed.

Lemma getcol_setcol c c' v df :
  getcol c (setcol c' v df) = if decide (c = c') then Some v else getcol c df.
Proof.
  case_decide as H; [subst; apply getcol_setcol_eq|by apply getcol_setcol_ne].
Qed.

(** ** The derivations on a cleaned table *)

Section Derivations.
Variable parse_date : cell → option Z.

Lemma serie_between (country : Series) (x : list xnum) lo hi :
  (∀ q, Fin q ∈ x → lo ≤ q ∧ q ≤ hi) →
  Forall (λ v, v = NaN ∨ ∃ q, v = Fin q ∧ lo ≤ q ∧ q ≤ hi)
    (group_apply (rolling_mean 7 1) country x).
Proof.
  intros Hx. apply group_apply_Forall; [by left|].
  intros k. apply rolling_mean_between. intros q Hq.
  apply Hx. by eapply select_sub.
Qed.


(** X15. The incidence derivation and the Validator, one after the other:
    when every daily incidence that is a number lies within [[0, 2000]]
    and at least one row with a country has one, the Validator prints the
    "in range" message, with a minimum and a maximum within the range. *)
Theorem bounded_incidence_passes l w df country date nc pop :
  heap w !! l = Some df →
  CleanedTable df country date nc pop →
  (∀ q, Fin q ∈ incidencia_diaria nc pop → qz 0 ≤ q ∧ q ≤ qz 2000) →
  (∃ i k q, country !! i = Some k ∧ isna k = false
            ∧ incidencia_diaria nc pop !! i = Some (Fin q)) →
  ∃ w' lo hi,
    (inc <- metrica_incidencia_7d parse_date l ;; chequeo_incidencia inc) w
    = (Ok (), w')
    ∧ stdout w' = stdout w ++ [MsgInRange lo hi]
    ∧ within_bounds lo ∧ within_bounds hi.
Proof.
  intros Hl [Hc Hd Hn Hp Hdt L1 L2 L3 L4] Hx (i & k & q & Hk & Hna & Hq).
  set (s := group_apply (rolling_mean 7 1) country (incidencia_diaria nc pop)).
  assert (range_msg s = MsgInRange (series_min s) (series_max s)
          ∧ within_bounds (series_min s) ∧ within_bounds (series_max s))
    as (Hmsg & Hmin & Hmax).
  { apply range_msg_bounded.
    - pose proof (lookup_select _ _ _ _ _ Hk Hq) as Hs.
      destruct (rolling_mean_defined _ _ _ Hs) as [Hroll _].
      exists (agg_mean (observed (window 7 (rank k (take i country))
                          (select k country (incidencia_diaria nc pop))))).
      split; [|done].
      apply list_elem_of_lookup. exists i. unfold s.
      by rewrite (lookup_group_apply _ _ _ _ _ Hk), Hna, Hroll.
    - intros v Hv Hvn.
      pose proof (serie_between country _ _ _ Hx) as Hall.
      rewrite Forall_forall in Hall.
      destruct (Hall v Hv) as [->|(q' & -> & Hlo & Hhi)]; [done|].
      by exists q'. }
  eexists _, (series_min s), (series_max s). split.
  - etrans; [eapply bind_ok; eapply incidencia_run;
             eauto using to_datetime_datetime|].
    cbv beta. eapply chequeo_run.
    + cbn [heap]. rewrite lookup_app_r by (by rewrite length_insert).
      rewrite length_insert, Nat.sub_diag. reflexivity.
    + by getcol_explicit.
  - cbn [stdout]. fold s. by rewrite Hmsg.
Qed.

(** X16. The two derivations commute.  Run on the same cleaned table in
    either order they return the same incidence table and the same
    growth table, and leave on the table they were given the same columns
    with the same contents (the order of the added columns apart). *)
Theorem derivations_commute l w df country date nc pop :
  heap w !! l = Some df →
  CleanedTable df country date nc pop →
  let n := length (heap w) in
  ∃ inc fac dA dB wA wB,
    (i <- metrica_incidencia_7d parse_date l ;;
     f <- metrica_factor_crec_7d parse_date l ;; ret (i, f)) w
    = (Ok (n, S n), wA)
    ∧ (f <- metrica_factor_crec_7d parse_date l ;;
       i <- metrica_incidencia_7d parse_date l ;; ret (i, f)) w
      = (Ok (S n, n), wB)
    ∧ heap wA !! n = Some inc ∧ heap wA !! S n = Some fac
    ∧ heap wB !! S n = Some inc ∧ heap wB !! n = Some fac
    ∧ heap wA !! l = Some dA ∧ heap wB !! l = Some dB
    ∧ nrows dA = nrows dB
    ∧ ∀ c, getcol c dA = getcol c dB.
Proof.
  intros Hl [Hc Hd Hn Hp Hdt L1 L2 L3 L4] n.
  pose proof (lookup_lt_Some _ _ _ Hl) as Hlt.
  pose proof (to_datetime_datetime parse_date _ Hdt) as Hparse.
  eexists _, _, _, _, _, _.
  split.
  { etrans; [eapply bind_ok; by eapply incidencia_run|]. cbv beta.
    etrans.
    { eapply bind_ok. eapply factor_run.
      - cbn [heap]. rewrite lookup_app_l by (by rewrite length_insert).
        by apply list_lookup_insert_eq.
      - rewrite !getcol_setcol_ne by done. apply getcol_setcol_eq.
      - exact Hparse.
      - rewrite !getcol_setcol_ne by done. exact Hc.
      - rewrite !getcol_setcol_ne by done. exact Hn. }
    cbv beta. cbn [heap stdout disk]. unfold ret.
    rewrite length_app, length_insert. cbn [length].
    replace (length (heap w) + 1)%nat with (S n) by (unfold n; lia).
    reflexivity. }
  split.
  { etrans; [eapply bind_ok; by eapply factor_run|]. cbv beta.
    etrans.
    { eapply bind_ok. eapply incidencia_run.
      - cbn [heap]. rewrite lookup_app_l by (by rewrite length_insert).
        by apply list_lookup_insert_eq.
      - rewrite !getcol_setcol_ne by done. apply getcol_setcol_eq.
      - exact Hparse.
      - rewrite !getcol_setcol_ne by done. exact Hn.
      - rewrite !getcol_setcol_ne by done. exact Hp.
      - rewrite !getcol_setcol_ne by done. exact Hc. }
    cbv beta. cbn [heap stdout disk]. unfold ret.
    rewrite length_app, length_insert. cbn [length].
    replace (length (heap w) + 1)%nat with (S n) by (unfold n; lia).
    reflexivity. }
  cbn [heap nrows setcol].
  rewrite !insert_app_l by (by rewrite length_insert).
  rewrite !list_insert_insert_eq.
  assert (length (<[l:=df]> (heap w)) = n) as Hlen by apply length_insert.
  split.
  { rewrite <-app_assoc, lookup_app_r; rewrite length_insert; [|done].
    rewrite Nat.sub_diag. reflexivity. }
  split.
  { rewrite lookup_app_r;
      rewrite length_app, length_insert; cbn [length]; [|unfold n; lia].
    replace (S n - (length (heap w) + 1))%nat with 0%nat by (unfold n; lia).
    reflexivity. }
  split.
  { rewrite lookup_app_r;
      rewrite length_app, length_insert; cbn [length]; [|unfold n; lia].
    replace (S n - (length (heap w) + 1))%nat with 0%nat by (unfold n; lia).
    reflexivity. }
  split.
  { rewrite <-app_assoc, lookup_app_r; rewrite length_insert; [|done].
    rewrite Nat.sub_diag. reflexivity. }
  split.
  { rewrite <-app_assoc, lookup_app_l by (by rewrite length_insert).
    by apply list_lookup_insert_eq. }
  split.
  { rewrite <-app_assoc, lookup_app_l by (by rewrite length_insert).
    by apply list_lookup_insert_eq. }
  split; [done|].
  intros c. fold (setcol "date" date df).
  repeat match goal with
         | |- context [mkDF (nrows ?d) (assoc_set ?a ?v (cols ?d))] =>
             change (mkDF (nrows d) (assoc_set a v (cols d))) with (setcol a v d)
         end.
  rewrite !getcol_setcol.
  repeat (case_decide; subst; try done).
Qed.

End Derivations.

Section Idempotence.
Variable parse_date : cell → option Z.

(** X17. Each derivation is idempotent on the table it extends: run a
    second time on the same cleaned table it changes nothing in it (the
    columns it would add are there already, with the same contents) and
    returns a table equal to the one returned before. *)
Theorem derivations_idempotent l w df country date nc pop :
  heap w !! l = Some df →
  CleanedTable df country date nc pop →
  let n := length (heap w) in
  (∃ w1 t,
     metrica_incidencia_7d parse_date l w = (Ok n, w1)
     ∧ heap w1 !! n = Some t
     ∧ metrica_incidencia_7d parse_date l w1
       = (Ok (S n), mkWorld (heap w1 ++ [t]) (stdout w1) (disk w1)))
  ∧ (∃ w1 t,
       metrica_factor_crec_7d parse_date l w = (Ok n, w1)
       ∧ heap w1 !! n = Some t
       ∧ metrica_factor_crec_7d parse_date l w1
         = (Ok (S n), mkWorld (heap w1 ++ [t]) (stdout w1) (disk w1))).
Proof.
  intros Hl [Hc Hd Hn Hp Hdt L1 L2 L3 L4] n.
  pose proof (lookup_lt_Some _ _ _ Hl) as Hlt.
  pose proof (to_datetime_datetime parse_date _ Hdt) as Hparse.
  split.
  - set (i7 := group_apply (rolling_mean 7 1) country (incidencia_diaria nc pop)).
    set (df1 := setcol "incidencia_7d" (of_floats i7)
                  (setcol "incidencia_diaria" (of_floats (incidencia_diaria nc pop))
                     (setcol "date" date df))).
    eexists _, _. split; [by eapply incidencia_run|].
    cbn [heap stdout disk]. fold i7 df1. split.
    { rewrite lookup_app_r by (by rewrite length_insert).
      rewrite length_insert, Nat.sub_diag. reflexivity. }
    erewrite (incidencia_run _ _ _ df1 date date country nc pop).
    + cbn [heap stdout disk]. fold i7.
      rewrite length_app, length_insert. cbn [length].
      replace (length (heap w) + 1)%nat with (S n) by (unfold n; lia).
      rewrite (setcol_same "date" date df1)
        by (unfold df1; rewrite !getcol_setcol_ne by done; apply getcol_setcol_eq).
      rewrite (setcol_same "incidencia_diaria" _ df1)
        by (unfold df1; rewrite getcol_setcol_ne by done; apply getcol_setcol_eq).
      rewrite (setcol_same "incidencia_7d" _ df1) by apply getcol_setcol_eq.
      rewrite list_insert_id
        by (rewrite lookup_app_l by (by rewrite length_insert);
            by apply list_lookup_insert_eq).
      reflexivity.
    + cbn [heap]. rewrite lookup_app_l by (by rewrite length_insert).
      by apply list_lookup_insert_eq.
    + unfold df1. rewrite !getcol_setcol_ne by done. apply getcol_setcol_eq.
    + exact Hparse.
    + unfold df1. rewrite !getcol_setcol_ne by done. exact Hn.
    + unfold df1. rewrite !getcol_setcol_ne by done. exact Hp.
    + unfold df1. rewrite !getcol_setcol_ne by done. exact Hc.
  - set (actual := group_apply (rolling_sum 7 7) country nc).
    set (prev := group_apply (shift 7) country actual).
    set (factor := zip_with xdiv actual prev).
    set (df1 := setcol "factor_crec_7d" (of_floats factor)
                  (setcol "casos_semana_prev" (of_floats prev)
                     (setcol "casos_semana_actual" (of_floats actual)
                        (setcol "date" date df)))).
    eexists _, _. split; [by eapply factor_run|].
    cbn [heap stdout disk]. fold actual prev factor df1. split.
    { rewrite lookup_app_r by (by rewrite length_insert).
      rewrite length_insert, Nat.sub_diag. reflexivity. }
    erewrite (factor_run _ _ _ df1 date date country nc).
    + cbn [heap stdout disk]. fold actual prev factor.
      rewrite length_app, length_insert. cbn [length].
      replace (length (heap w) + 1)%nat with (S n) by (unfold n; lia).
      rewrite (setcol_same "date" date df1)
        by (unfold df1; rewrite !getcol_setcol_ne by done; apply getcol_setcol_eq).
      rewrite (setcol_same "casos_semana_actual" _ df1)
        by (unfold df1; rewrite !getcol_setcol_ne by done; apply getcol_setcol_eq).
      rewrite (setcol_same "casos_semana_prev" _ df1)
        by (unfold df1; rewrite getcol_setcol_ne by done; apply getcol_setcol_eq).
      rewrite (setcol_same "factor_crec_7d" _ df1) by apply getcol_setcol_eq.
      rewrite list_insert_id
        by (rewrite lookup_app_l by (by rewrite length_insert);
            by apply list_lookup_insert_eq).
      reflexivity.
    + cbn [heap]. rewrite lookup_app_l by (by rewrite length_insert).
      by apply list_lookup_insert_eq.
    + unfold df1. rewrite !getcol_setcol_ne by done. apply getcol_setcol_eq.
    + exact Hparse.
    + unfold df1. rewrite !getcol_setcol_ne by done. exact Hc.
    + unfold df1. rewrite !getcol_setcol_ne by done. exact Hn.
Qed.

End Idempotence.

Lemma ecuador2_limpio_cleaned :
  CleanedTable ecuador2_limpio
    [Str "Ecuador"; Str "Ecuador"]
    [Date 1704067200000000000; Date 1704153600000000000]
    [Fin (qz 100); Fin (qz 200)] [Fin (qz 1000000); Fin (qz 1000000)].
Proof. constructor; try reflexivity. repeat constructor. Qed.

Lemma ecuador2_diaria :
  incidencia_diaria [Fin (qz 100); Fin (qz 200)]
    [Fin (qz 1000000); Fin (qz 1000000)] = [Fin (qz 10); Fin (qz 20)].
Proof. apply (bool_decide_eq_true_1 _). vm_compute. reflexivity. Qed.


Lemma bounded_incidence_passes_witness :
  ∃ w' lo hi,
    (inc <- metrica_incidencia_7d iso_date 0%nat ;; chequeo_incidencia inc)
      (mkWorld [ecuador2_limpio] [] [])
    = (Ok (), w')
    ∧ stdout w' = [MsgInRange lo hi]
    ∧ within_bounds lo ∧ within_bounds hi.
Proof.
  apply (bounded_incidence_passes iso_date 0%nat (mkWorld [ecuador2_limpio] [] [])
           ecuador2_limpio
           [Str "Ecuador"; Str "Ecuador"]
           [Date 1704067200000000000; Date 1704153600000000000]
           [Fin (qz 100); Fin (qz 200)] [Fin (qz 1000000); Fin (qz 1000000)]).
  - reflexivity.
  - exact ecuador2_limpio_cleaned.
  - intros q Hq. rewrite ecuador2_diaria in Hq.
    apply elem_of_cons in Hq as [[= ->]|Hq];
      [|apply list_elem_of_singleton in Hq as [= ->]];
      split; apply (bool_decide_eq_true_1 _); vm_compute; reflexivity.
  - exists 0%nat, (Str "Ecuador"), (qz 10).
    split; [reflexivity|]. split; [reflexivity|].
    rewrite ecuador2_diaria. reflexivity.
Defined.

Lemma derivations_commute_witness :
  ∃ inc fac wA wB,
    (i <- metrica_incidencia_7d iso_date 0%nat ;;
     f <- metrica_factor_crec_7d iso_date 0%nat ;; ret (i, f))
      (mkWorld [ecuador2_limpio] [] [])
    = (Ok (1%nat, 2%nat), wA)
    ∧ (f <- metrica_factor_crec_7d iso_date 0%nat ;;
       i <- metrica_incidencia_7d iso_date 0%nat ;; ret (i, f))
        (mkWorld [ecuador2_limpio] [] [])
      = (Ok (2%nat, 1%nat), wB)
    ∧ heap wA !! 1%nat = Some inc ∧ heap wA !! 2%nat = Some fac
    ∧ heap wB !! 2%nat = Some inc ∧ heap wB !! 1%nat = Some fac.
Proof.
  destruct (derivations_commute iso_date 0%nat (mkWorld [ecuador2_limpio] [] [])
              ecuador2_limpio
              [Str "Ecuador"; Str "Ecuador"]
              [Date 1704067200000000000; Date 1704153600000000000]
              [Fin (qz 100); Fin (qz 200)] [Fin (qz 1000000); Fin (qz 1000000)])
    as (inc & fac & dA & dB & wA & wB & HA & HB & H1 & H2 & H3 & H4 & _).
  - reflexivity.
  - exact ecuador2_limpio_cleaned.
  - exists inc, fac, wA, wB. repeat split; assumption.
Defined.

Lemma derivations_idempotent_witness :
  ∃ w1 t,
    metrica_incidencia_7d iso_date 0%nat (mkWorld [ecuador2_limpio] [] [])
    = (Ok 1%nat, w1)
    ∧ heap w1 !! 1%nat = Some t
    ∧ metrica_incidencia_7d iso_date 0%nat w1
      = (Ok 2%nat, mkWorld (heap w1 ++ [t]) (stdout w1) (disk w1)).
Proof.
  apply (derivations_idempotent iso_date 0%nat (mkWorld [ecuador2_limpio] [] [])
           ecuador2_limpio
           [Str "Ecuador"; Str "Ecuador"]
           [Date 1704067200000000000; Date 1704153600000000000]
           [Fin (qz 100); Fin (qz 200)] [Fin (qz 1000000); Fin (qz 1000000)]).
  - reflexivity.
  - exact ecuador2_limpio_cleaned.
Defined.

(** ** The Sink *)



(** ** The whole run, sheet by sheet *)


Section Sheets.
Variable parse_date : cell → option Z.
Variable hoy : Z.


(** X20. What a run leaves behind.  The raw table is changed in its date
    column only (the columns of the derivations go to the cleaned table,
    never to the raw one); every other table that was there is untouched;
    three tables are new, six messages are printed, and no file but the
    report is written. *)
Theorem run_frame l w raw country date x pv y :
  heap w !! l = Some raw →
  getcol "country" raw = Some country →
  getcol "date" raw = Some date →
  getcol "new_cases" raw = Some (of_floats x) →
  getcol "people_vaccinated" raw = Some pv →
  getcol "population" raw = Some (of_floats y) →
  ∃ w' raw',
    despues_de_leer parse_date hoy l w = (Ok output_file, w')
    ∧ heap w' !! l = Some raw'
    ∧ nrows raw' = nrows raw
    ∧ columns raw' = columns raw
    ∧ (∀ c, c ≠ "date" → getcol c raw' = getcol c raw)
    ∧ getcol "date" raw' = Some (to_datetime_coerce parse_date <$> date)
    ∧ length (heap w') = (length (heap w) + 3)%nat
    ∧ (∀ l', l' ≠ l → (l' < length (heap w))%nat → heap w' !! l' = heap w !! l')
    ∧ length (stdout w') = (length (stdout w) + 6)%nat
    ∧ (∀ p, p ≠ output_file → assoc p (disk w') = assoc p (disk w)).
Proof.
  intros Hl Hcountry Hdate Hnc Hpv Hpop.
  pose proof (lookup_lt_Some _ _ _ Hl) as Hlt.
  eexists _, (tras_chequeo parse_date raw).
  split; [by eapply despues_de_leer_run|].
  cbn [heap stdout disk].
  split.
  { rewrite lookup_app_l by (by rewrite length_insert).
    by apply list_lookup_insert_eq. }
  split; [done|].
  split; [unfold tras_chequeo; by eapply columns_setcol|].
  split; [intros c Hc; unfold tras_chequeo; by apply getcol_setcol_ne|].
  split.
  { unfold tras_chequeo. rewrite getcol_setcol_eq.
    by rewrite (getcol_col _ _ _ Hdate). }
  split; [rewrite length_app, length_insert; done|].
  split.
  { intros l' Hne Hl'. rewrite lookup_app_l by (by rewrite length_insert).
    by apply list_lookup_insert_ne. }
  split; [by rewrite length_app|].
  intros p Hp. by apply assoc_set_ne.
Qed.

End Sheets.


Lemma run_frame_witness :
  ∃ w' raw',
    despues_de_leer iso_date hoy_demo 0%nat (mkWorld [raw_demo] [] [])
    = (Ok output_file, w')
    ∧ heap w' !! 0%nat = Some raw'
    ∧ columns raw' = columns raw_demo
    ∧ length (heap w') = 4%nat.
Proof.
  destruct (run_frame iso_date hoy_demo 0%nat (mkWorld [raw_demo] [] [])
              raw_demo
              [Str "Ecuador"; Str "Ecuador"; Str "Peru"; Str "Ecuador"]
              [Str "2024-01-01"; Str "ayer"; Str "2031-05-05"; Str "2024-01-01"]
              [Fin (qz 100); Fin (qz 200); Fin (qz 7); Fin (qz 300)]
              [fnum 5; fnum 6; fnum 7; Num NaN]
              [Fin (qz 1000000); Fin (qz 1000000); NaN; Fin (qz 1000000)])
    as (w' & raw' & Hrun & Hraw & _ & Hcols & _ & _ & Hlen & _).
  - reflexivity.
  - reflexivity.
  - reflexivity.
  - reflexivity.
  - reflexivity.
  - reflexivity.
  - exists w', raw'. repeat split; assumption.
Defined.

(** ** The job, from the Reader on *)

Section Job.
Variable parse_date : cell → option Z.
Variable read_csv : string → outcome DataFrame.
Variable hoy : Z.

(** X21. The job and its Reader.  An exception of the request or of the
    CSV parser ends the job at once: nothing is printed, no table is made
    and no later stage runs.  A response with a status other than 200
    lets the job go on with the empty table, and the Quality Gate ends it
    with [KeyError('date')] after the failure message.  A text that
    parses is handed to the later stages as a new table, the download
    message printed. *)
Theorem job_after_reader :
  (∀ e w, pipeline_covid parse_date read_csv hoy (HttpRaises e) w = (Raise e, w))
  ∧ (∀ text e w, read_csv text = Raise e →
       pipeline_covid parse_date read_csv hoy (HttpResponse 200 text) w
       = (Raise e, w))
  ∧ (∀ status_code text w, status_code ≠ 200%Z →
       pipeline_covid parse_date read_csv hoy (HttpResponse status_code text) w
       = (Raise (KeyError "date"),
          mkWorld (heap w ++ [empty_frame])
                  (stdout w ++ [MsgDownloadFailed status_code]) (disk w)))
  ∧ (∀ text d w, read_csv text = Ok d →
       pipeline_covid parse_date read_csv hoy (HttpResponse 200 text) w
       = despues_de_leer parse_date hoy (length (heap w))
           (mkWorld (heap w ++ [d]) (stdout w ++ [MsgDownloaded (nrows d)])
                    (disk w))).
Proof.
  split; [done|]. split; [|split].
  - intros text e w Hr. unfold pipeline_covid, leer_datos.
    rewrite decide_False by (intros H; by apply H).
    apply bind_raise. unfold bind, lift. by rewrite Hr.
  - intros status_code text w Hs. unfold pipeline_covid, leer_datos.
    rewrite decide_True by done.
    etrans; [eapply bind_ok; reflexivity|]. cbv beta.
    unfold despues_de_leer, chequear_datos.
    do 2 apply bind_raise.
    eapply run_getitem_missing; [apply lookup_snoc|done].
  - intros text d w Hr. unfold pipeline_covid, leer_datos.
    rewrite decide_False by (intros H; by apply H).
    eapply bind_ok. unfold bind, lift. by rewrite Hr.
Qed.

End Job.

Lemma job_after_reader_witness :
  pipeline_covid iso_date csv_simple hoy_demo (HttpResponse 200 "") world0
  = (Raise EmptyDataError, world0)
  ∧ pipeline_covid iso_date csv_simple hoy_demo (HttpResponse 500 "") world0
    = (Raise (KeyError "date"),
       mkWorld [empty_frame] [MsgDownloadFailed 500] [])
  ∧ pipeline_covid iso_date csv_simple hoy_demo (HttpResponse 200 csv_demo) world0
    = despues_de_leer iso_date hoy_demo 0%nat
        (mkWorld [ecuador2] [MsgDownloaded 2] []).
Proof.
  destruct (job_after_reader iso_date csv_simple hoy_demo) as (_ & H2 & H3 & H4).
  split; [|split].
  - apply (H2 "" EmptyDataError world0). reflexivity.
  - apply (H3 500%Z "" world0). discriminate.
  - apply (H4 csv_demo ecuador2 world0). vm_compute. reflexivity.
Defined.

(** ** Weekly sums in a run *)


Section WeeklySums.
Variable parse_date : cell → option Z.
Variable hoy : Z.


End WeeklySums.


(** ** Masks that keep every row *)

Lemma filter_mask_all_true {A} m (v : list A) :
  Forall (λ b, b = true) m → (length v ≤ length m)%nat → filter_mask m v = v.
Proof.
  intros Hm. revert v. induction Hm as [|b m -> _ IH]; intros [|a v] Hlen;
    try done; cbn in Hlen; [lia|].
  rewrite filter_mask_cons, IH by lia. done.
Qed.

Lemma count_true_all_true m :
  Forall (λ b, b = true) m → count_true m = length m.
Proof.
  intros Hm. unfold count_true. induction Hm as [|b m -> _ IH]; [done|].
  rewrite filter_cons, decide_True by done. cbn [length]. by rewrite IH.
Qed.

Lemma filter_rows_all_true m d :
  well_formed d → length m = nrows d → Forall (λ b, b = true) m →
  filter_rows m d = d.
Proof.
  intros Hwf Hlen Hm. unfold filter_rows. destruct d as [n cs].
  cbn [nrows cols] in *. f_equal.
  - rewrite take_ge by lia. rewrite count_true_all_true by done. done.
  - rewrite <-(list_fmap_id cs) at 2. apply list_fmap_ext.
    intros i [c v] Hi. cbn. f_equal.
    apply filter_mask_all_true; [done|].
    unfold well_formed in Hwf. rewrite Forall_lookup in Hwf.
    specialize (Hwf _ _ Hi). cbn in Hwf. lia.
Qed.

Lemma well_formed_filter_rows m d :
  well_formed d → well_formed (filter_rows m d).
Proof.
  unfold well_formed, filter_rows. cbn [nrows cols]. intros Hwf.
  rewrite Forall_fmap. eapply Forall_impl; [exact Hwf|].
  intros [c v] Hv. cbn in *. by rewrite length_filter_mask, Hv.
Qed.

Lemma rows_filter_mask m d :
  well_formed d → length m = nrows d →
  rows (filter_rows m d) = filter_mask m (rows d).
Proof.
  intros Hwf Hlen.
  assert (m = (λ i, default false (m !! i)) <$> seq 0 (nrows d)) as Hm
    by (by rewrite <-Hlen, fmap_lookup_seq).
  rewrite Hm at 1 2. rewrite rows_filter_rows by done.
  unfold rows. by rewrite filter_mask_fmap, filter_mask_self.
Qed.

Lemma length_duplicated {A} `{EqDecision A} (l : list A) :
  length (duplicated l) = length l.
Proof. apply length_imap. Qed.

Lemma length_rows d : length (rows d) = nrows d.
Proof. unfold rows. by rewrite length_fmap, length_seq. Qed.

Lemma duplicated_NoDup {A} `{EqDecision A} (l : list A) :
  NoDup l → Forall (λ b, b = true) (negb <$> duplicated l).
Proof.
  induction l as [|a l IH] using rev_ind; [constructor|].
  rewrite NoDup_app. intros (Hl & Ha & _).
  rewrite duplicated_snoc, fmap_app, Forall_app. split; [by apply IH|].
  cbn. constructor; [|done].
  rewrite bool_decide_eq_false_2; [done|].
  intros Hin. apply (Ha a Hin), list_elem_of_here.
Qed.

(** What [drop_duplicates] leaves holds no repeated row. *)
Lemma NoDup_firsts {A} `{EqDecision A} (l : list A) :
  NoDup (filter_mask (negb <$> duplicated l) l).
Proof.
  induction l as [|a l IH] using rev_ind; [constructor|].
  rewrite duplicated_snoc, fmap_app.
  rewrite filter_mask_app by (by rewrite length_fmap, length_duplicated).
  cbn [fmap list_fmap]. rewrite filter_mask_cons, filter_mask_nil_r.
  case_bool_decide as Ha; cbn [negb]; [by rewrite app_nil_r|].
  apply NoDup_app. split; [done|]. split; [|apply NoDup_singleton].
  intros x Hx Hx'. apply list_elem_of_singleton in Hx' as ->.
  apply Ha. eapply elem_of_sublist; [exact Hx|apply filter_mask_sublist].
Qed.

(** ** The Cleaner on a table of the five columns *)

Lemma five_columns d :
  columns d = columnas →
  ∃ a b x p y,
    cols d = [("country", a); ("date", b); ("new_cases", x);
              ("people_vaccinated", p); ("population", y)].
Proof.
  unfold columns, columnas. intros H.
  destruct (cols d) as [|[c1 a] [|[c2 b] [|[c3 x] [|[c4 p] [|[c5 y] [|]]]]]];
    try done.
  cbn in H. injection H as -> -> -> -> ->. by eexists _, _, _, _, _.
Qed.

Lemma limpio_five_columns d :
  columns d = columnas →
  let d1 := filter_rows (mask_dropna d) d in
  let d2 := filter_rows (mask_first d1) d1 in
  limpio d = filter_rows (mask_paises d2) d2.
Proof.
  intros (a & b & x & p & y & Hcols)%five_columns. cbv zeta.
  unfold limpio, kept. cbv zeta.
  set (d1 := filter_rows (mask_dropna d) d).
  set (d2 := filter_rows (mask_first d1) d1).
  assert (cols d2
          = (λ cv, (cv.1, filter_mask (mask_first d1)
                            (filter_mask (mask_dropna d) cv.2))) <$> cols d)
    as Hd2.
  { change (cols d2)
      with ((λ cv : string * Series, (cv.1, filter_mask (mask_first d1) cv.2))
              <$> cols d1).
    change (cols d1)
      with ((λ cv : string * Series, (cv.1, filter_mask (mask_dropna d) cv.2))
              <$> cols d).
    by rewrite <-list_fmap_compose. }
  assert (col "country" d = a) as Ea by (unfold col, getcol; by rewrite Hcols).
  assert (col "date" d = b) as Eb by (unfold col, getcol; by rewrite Hcols).
  assert (col "new_cases" d = x) as Ex by (unfold col, getcol; by rewrite Hcols).
  assert (col "people_vaccinated" d = p) as Ep
    by (unfold col, getcol; by rewrite Hcols).
  assert (col "population" d = y) as Ey by (unfold col, getcol; by rewrite Hcols).
  clearbody d2.
  unfold filter_rows. cbn [nrows cols]. f_equal.
  rewrite Hd2, Hcols. unfold columnas. cbn [fmap list_fmap fst snd].
  by rewrite Ea, Eb, Ex, Ep, Ey.
Qed.

Lemma columns_filter_rows m d : columns (filter_rows m d) = columns d.
Proof.
  unfold columns, filter_rows. cbn [cols].
  rewrite <-list_fmap_compose. by apply list_fmap_ext.
Qed.

Lemma getcol_is_Some c d : c ∈ columns d → is_Some (getcol c d).
Proof.
  unfold columns, getcol. induction (cols d) as [|[c' v] l IH]; cbn.
  - by intros ?%elem_of_nil.
  - intros [->|H]%elem_of_cons; [by rewrite decide_True|].
    destruct (decide (c' = c)); [done|by apply IH].
Qed.

Lemma length_col c d :
  well_formed d → c ∈ columns d → length (col c d) = nrows d.
Proof.
  intros Hwf [v Hv]%getcol_is_Some.
  rewrite (getcol_col _ _ _ Hv). by eapply well_formed_length.
Qed.

Lemma lookup_lt_default {A} (dflt : A) (v : list A) i :
  (i < length v)%nat → v !! i = Some (default dflt (v !! i)).
Proof. intros H. by destruct (lookup_lt_is_Some_2 v i H) as [a ->]. Qed.

(** On a table of the five columns the Cleaner returns a table without
    repeated rows, every row of which passes the three filters again. *)
Lemma limpio_fixed d :
  well_formed d → columns d = columnas →
  let c := limpio d in
  well_formed c ∧ columns c = columnas ∧ NoDup (rows c)
  ∧ Forall (λ b, b = true) (mask_dropna c)
  ∧ Forall (λ b, b = true) (mask_paises c).
Proof.
  intros Hwf Hcols c.
  set (d1 := filter_rows (mask_dropna d) d).
  set (d2 := filter_rows (mask_first d1) d1).
  assert (c = filter_rows (mask_paises d2) d2) as Hc
    by by apply limpio_five_columns.
  assert (well_formed d1) as Hwf1 by by apply well_formed_filter_rows.
  assert (well_formed d2) as Hwf2 by by apply well_formed_filter_rows.
  assert (well_formed c) as Hwfc by (rewrite Hc; by apply well_formed_filter_rows).
  assert (columns c = columnas) as Hcc by done.
  assert (∀ name, name ∈ columnas → length (col name c) = nrows c) as Hlen.
  { intros name Hname. apply length_col; [done|by rewrite Hcc]. }
  split; [done|]. split; [done|]. split; [|split].
  - rewrite Hc, rows_filter_mask; [|done|].
    + eapply sublist_NoDup; [|apply filter_mask_sublist].
      unfold d2. rewrite rows_filter_mask; [apply NoDup_firsts|done|].
      unfold mask_first. by rewrite length_fmap, length_duplicated, length_rows.
    + unfold mask_paises, isin. rewrite length_fmap.
      apply length_col; [done|].
      unfold d2, d1. rewrite !columns_filter_rows, Hcols. unfold columnas. in_list.
  - rewrite mask_dropna_spec, Forall_fmap, Forall_forall.
    intros i Hi%elem_of_seq. cbn. unfold fila_completa.
    pose proof (kept_new_cases_present d) as H1.
    pose proof (kept_people_vaccinated_present d) as H2.
    rewrite <-col_limpio in H1, H2 by (unfold columnas; in_list).
    fold c in H1, H2. rewrite Forall_lookup in H1, H2.
    assert (i < length (col "new_cases" c))%nat as L1
      by (rewrite Hlen by (unfold columnas; in_list); lia).
    assert (i < length (col "people_vaccinated" c))%nat as L2
      by (rewrite Hlen by (unfold columnas; in_list); lia).
    rewrite (H1 i _ (lookup_lt_default (Num NaN) _ i L1)).
    rewrite (H2 i _ (lookup_lt_default (Num NaN) _ i L2)).
    done.
  - unfold mask_paises, isin. rewrite Forall_fmap.
    pose proof (kept_country_paises d) as H.
    rewrite <-col_limpio in H by (unfold columnas; in_list). fold c in H.
    eapply Forall_impl; [exact H|]. intros k Hk. cbn.
    by apply bool_decide_eq_true_2.
Qed.

Lemma limpio_limpio d :
  well_formed d → columns d = columnas → limpio (limpio d) = limpio d.
Proof.
  intros Hwf Hcols.
  destruct (limpio_fixed d Hwf Hcols) as (Hwfc & Hcc & Hnd & Hm1 & Hm3).
  set (c := limpio d) in *.
  rewrite (limpio_five_columns c Hcc). cbv zeta.
  assert (filter_rows (mask_dropna c) c = c) as E1.
  { apply filter_rows_all_true; [done| |done].
    by rewrite mask_dropna_spec, length_fmap, length_seq. }
  rewrite E1.
  assert (filter_rows (mask_first c) c = c) as E2.
  { apply filter_rows_all_true; [done| |by apply duplicated_NoDup].
    unfold mask_first. by rewrite length_fmap, length_duplicated, length_rows. }
  rewrite E2.
  apply filter_rows_all_true; [done| |done].
  unfold mask_paises, isin. rewrite length_fmap.
  apply length_col; [done|]. rewrite Hcc. unfold columnas. in_list.
Qed.

(** X23. The Cleaner is idempotent on the tables of its own shape.  On a
    table with exactly the five columns, each as long as the index, the
    table it returns holds no repeated row, and the Cleaner run on that
    table returns an equal table and prints the same count.  (With further
    columns in the input, rows that differ only there are both kept and
    the returned table can hold a row twice.) *)
Theorem cleaner_idempotent l w d :
  heap w !! l = Some d →
  well_formed d →
  columns d = columnas →
  let n := length (heap w) in
  ∃ c w1,
    datos_procesados l w = (Ok n, w1)
    ∧ heap w1 !! n = Some c
    ∧ NoDup (rows c)
    ∧ datos_procesados n w1
      = (Ok (S n),
         mkWorld (heap w1 ++ [c]) (stdout w1 ++ [MsgProcessed (nrows c)])
                 (disk w1)).
Proof.
  intros Hl Hwf Hcols n.
  destruct (limpio_fixed d Hwf Hcols) as (Hwfc & Hcc & Hnd & _).
  assert (∀ t name, columns t = columnas → name ∈ columnas →
            ∃ v, getcol name t = Some v) as Hget.
  { intros t name Ht Hname. apply getcol_is_Some. by rewrite Ht. }
  destruct (Hget d "country" Hcols ltac:(unfold columnas; in_list)) as [a Ha].
  destruct (Hget d "date" Hcols ltac:(unfold columnas; in_list)) as [b Hb].
  destruct (Hget d "new_cases" Hcols ltac:(unfold columnas; in_list)) as [x Hx].
  destruct (Hget d "people_vaccinated" Hcols ltac:(unfold columnas; in_list))
    as [p Hp].
  destruct (Hget d "population" Hcols ltac:(unfold columnas; in_list)) as [y Hy].
  exists (limpio d). eexists. split; [by eapply datos_run|].
  cbn [heap stdout disk]. split; [apply lookup_snoc|]. split; [done|].
  erewrite (datos_run n _ (limpio d)).
  - cbn [heap stdout disk]. rewrite length_app. cbn [length].
    replace (length (heap w) + 1)%nat with (S n) by (unfold n; lia).
    by rewrite limpio_limpio.
  - cbn [heap]. apply lookup_snoc.
  - apply getcol_limpio. unfold columnas. in_list.
  - apply getcol_limpio. unfold columnas. in_list.
  - apply getcol_limpio. unfold columnas. in_list.
  - apply getcol_limpio. unfold columnas. in_list.
  - apply getcol_limpio. unfold columnas. in_list.
Qed.

Lemma cleaner_idempotent_witness :
  ∃ c w1,
    datos_procesados 0%nat (mkWorld [ecuador2] [] []) = (Ok 1%nat, w1)
    ∧ heap w1 !! 1%nat = Some c
    ∧ NoDup (rows c)
    ∧ datos_procesados 1%nat w1
      = (Ok 2%nat,
         mkWorld (heap w1 ++ [c]) (stdout w1 ++ [MsgProcessed (nrows c)])
                 (disk w1)).
Proof.
  apply (cleaner_idempotent 0%nat (mkWorld [ecuador2] [] []) ecuador2).
  - reflexivity.
  - unfold well_formed. repeat constructor.
  - reflexivity.
Defined.

(** Two rows that differ in a column the Cleaner does not return are both
    kept: the returned table holds the same row twice, and a second pass
    of the Cleaner drops one. *)
Example cleaner_repeated_rows :
  let d := mkDF 2 [("country", [Str "Ecuador"; Str "Ecuador"]);
                   ("date", [Str "2024-01-01"; Str "2024-01-01"]);
                   ("new_cases", [fnum 1; fnum 1]);
                   ("people_vaccinated", [fnum 1; fnum 1]);
                   ("population", [fnum 10; fnum 10]);
                   ("total_deaths", [fnum 0; fnum 5])] in
  nrows (limpio d) = 2%nat
  ∧ ¬ NoDup (rows (limpio d))
  ∧ nrows (limpio (limpio d)) = 1%nat.
Proof.
  cbv zeta. split; [by vm_compute|]. split; [|by vm_compute].
  apply (bool_decide_eq_false_1 _). by vm_compute.
Qed.

(** ** The Quality Gate before the derivations *)

Section GateThenDerivations.
Variable parse_date : cell → option Z.
Variable hoy : Z.

(** X24. The Quality Gate makes every date readable for the derivations.
    On a table that has the columns they read, whatever its dates, each
    derivation run after the Gate on the same table returns without an
    error, and the dates of the table it returns are the coerced ones
    (without the Gate, a date that does not parse makes them raise). *)
Theorem gate_makes_dates_readable l w df date country nc pop :
  heap w !! l = Some df →
  getcol "date" df = Some date →
  getcol "country" df = Some country →
  getcol "new_cases" df = Some (of_floats nc) →
  getcol "population" df = Some (of_floats pop) →
  let date' := to_datetime_coerce parse_date <$> date in
  let inc := (d <- chequear_datos parse_date hoy l ;;
              metrica_incidencia_7d parse_date d) w in
  let fac := (d <- chequear_datos parse_date hoy l ;;
              metrica_factor_crec_7d parse_date d) w in
  inc.1 = Ok (length (heap w))
  ∧ column_of "fecha" inc = Some date'
  ∧ fac.1 = Ok (length (heap w))
  ∧ column_of "semana_fin" fac = Some date'.
Proof.
  intros Hl Hdate Hcountry Hnc Hpop date' inc fac.
  pose proof (lookup_lt_Some _ _ _ Hl) as Hlt.
  assert (to_datetime parse_date date' = Ok date') as Hparse
    by apply to_datetime_datetime, to_datetime_coerce_datetime.
  assert (∃ W, inc = (Ok (length (heap w)), W)
               ∧ column_of "fecha" (Ok (length (heap w)), W) = Some date')
    as (Wi & Hi1 & Hi2).
  { unfold inc, bind.
    erewrite chequear_run by eassumption. fold date'.
    erewrite (incidencia_run _ _ _ (setcol "date" date' df) date' date' country nc pop).
    - cbn [heap fst snd]. rewrite length_insert.
      eexists. split; [reflexivity|].
      rewrite column_of_new by (by rewrite !length_insert).
      by getcol_explicit.
    - cbn [heap]. by apply list_lookup_insert_eq.
    - apply getcol_setcol_eq.
    - exact Hparse.
    - by rewrite getcol_setcol_ne.
    - by rewrite getcol_setcol_ne.
    - by rewrite getcol_setcol_ne. }
  assert (∃ W, fac = (Ok (length (heap w)), W)
               ∧ column_of "semana_fin" (Ok (length (heap w)), W) = Some date')
    as (Wf & Hf1 & Hf2).
  { unfold fac, bind.
    erewrite chequear_run by eassumption. fold date'.
    erewrite (factor_run _ _ _ (setcol "date" date' df) date' date' country nc).
    - cbn [heap fst snd]. rewrite length_insert.
      eexists. split; [reflexivity|].
      rewrite column_of_new by (by rewrite !length_insert).
      by getcol_explicit.
    - cbn [heap]. by apply list_lookup_insert_eq.
    - apply getcol_setcol_eq.
    - exact Hparse.
    - by rewrite getcol_setcol_ne.
    - by rewrite getcol_setcol_ne. }
  rewrite Hi1, Hf1. done.
Qed.

End GateThenDerivations.

Lemma gate_makes_dates_readable_witness :
  ((d <- chequear_datos iso_date hoy_demo 0%nat ;;
    metrica_incidencia_7d iso_date d) (mkWorld [raw_demo] [] [])).1 = Ok 1%nat
  ∧ column_of "fecha"
      ((d <- chequear_datos iso_date hoy_demo 0%nat ;;
        metrica_incidencia_7d iso_date d) (mkWorld [raw_demo] [] []))
    = Some [Date 1704067200000000000; NaT; Date 1935705600000000000;
            Date 1704067200000000000].
Proof.
  destruct (gate_makes_dates_readable iso_date hoy_demo 0%nat
              (mkWorld [raw_demo] [] []) raw_demo
              [Str "2024-01-01"; Str "ayer"; Str "2031-05-05"; Str "2024-01-01"]
              [Str "Ecuador"; Str "Ecuador"; Str "Peru"; Str "Ecuador"]
              [Fin (qz 100); Fin (qz 200); Fin (qz 7); Fin (qz 300)]
              [Fin (qz 1000000); Fin (qz 1000000); NaN; Fin (qz 1000000)])
    as (H1 & H2 & _).
  - reflexivity.
  - reflexivity.
  - reflexivity.
  - reflexivity.
  - reflexivity.
  - split; [exact H1|]. rewrite H2. vm_compute. reflexivity.
Defined.

(** ** When a rolling value is a number *)





Section Defined.
Variable parse_date : cell → option Z.



End Defined.



(** ** The 7-day incidence in a run *)


Section RunIncidence.
Variable parse_date : cell → option Z.
Variable hoy : Z.


End RunIncidence.

